(** * EMF modelling tool: the FEMM model script [Main.py]

    A shallow embedding of the script that builds the 2-D cross-section of a
    three-phase submarine power cable for the FEMM solver, drives the solver
    and samples the solved field.

    Numbers.  The script computes with Python floats and NumPy doubles.  The
    embedding reads every float as a real number ([R]) and every Python [int]
    as an integer ([Z]): the statements about lengths, angles, currents and
    sampled values are about the exact real values of the expressions the
    script evaluates, for inputs in the range where the float operation has
    a real counterpart (a conductor area that is not negative, so that its
    square root is real, and finite intermediate values).  Where the float
    operation leaves the reals (a division by zero, the conversion of [inf]
    or [nan] to [int]) the exception Python raises is modelled explicitly.

    The wire count of an armour ring is the one place where the script turns
    a float into an integer that decides what is drawn.  The exact count
    [armour_count] is the floor of the exact quotient; the count the
    interpreter computes is the floor of the binary64 quotient, which module
    [Binary64] evaluates bit for bit with the primitive floats of the
    prover.  The two differ when the exact quotient is within rounding
    distance of an integer, and the binary64 perimeter overflows for a
    radius near the top of the double range, where the exact one does not.
    Statements about counts over all inputs are therefore made for inputs
    of moderate size ([moderate_inputs]) and with a margin that rounding
    cannot consume.

    Effects.  Every call into the [femm] module is recorded, in order, in a
    trace of commands; an uncaught exception stops the script and keeps the
    trace emitted so far. *)

From Stdlib Require Import Floats.PrimFloat Floats.FloatOps Floats.SpecFloat.
From Stdlib Require Import Reals Lra Lia Psatz ZArith List String Bool.
Import ListNotations.

Open Scope string_scope.
Open Scope R_scope.

(** ** Python and NumPy primitives *)

(** [np.radians(x)]. *)
Definition radians (x : R) : R := x * PI / 180.

(** [int(x)] on a finite float: truncation towards zero. *)
Definition py_int (x : R) : Z :=
  if Rle_dec 0 x then Zfloor x else Zceil x.

(** [range(a, b)] with step 1. *)
Definition py_range (a b : Z) : list Z :=
  map (fun k => (a + Z.of_nat k)%Z) (seq 0 (Z.to_nat (b - a))).

(** Complex numbers as (real part, imaginary part); [np.abs] on them. *)
Definition C : Type := (R * R)%type.

Definition Cabs (z : C) : R := sqrt (fst z ^ 2 + snd z ^ 2).

(** The exceptions the script can raise. *)
Inductive py_error : Type :=
| ZeroDivisionError
| OverflowError
| ValueError.

(** ** The calls into the solver front end

    [mi_addmaterial] is always called with its ten trailing arguments equal
    to the literal 0, and [mi_setblockprop] with [automesh], [magdir],
    [group] and [turns] equal to the literal 0: only the arguments that vary
    are kept. *)
Inductive femm_cmd : Type :=
| openfemm
| newdocument (doctype : Z)
| mi_probdef (freq : R) (units type : string) (precision depth minangle : R)
             (acsolver : Z)
| mi_zoom (x1 y1 x2 y2 : R)
| mi_addmaterial (name : string) (mu_x mu_y Cduct : R)
| mi_addblocklabel (x y : R)
| mi_drawline (x1 y1 x2 y2 : R)
| mi_drawarc (x1 y1 x2 y2 angle : R) (maxseg : Z)
| mi_selectlabel (x y : R)
| mi_setblockprop (blockname : string) (meshsize : R) (incircuit : string)
| mi_addcircprop (circuitname : string) (i : C) (circuittype : Z)
| mi_saveas (filename : string)
| mi_analyze
| mi_loadsolution
| py_print (text : string) (value : option R).

(** Commands that add geometry to the model. *)
Definition is_geometry (c : femm_cmd) : bool :=
  match c with
  | mi_addblocklabel _ _ | mi_drawline _ _ _ _ | mi_drawarc _ _ _ _ _ _ => true
  | _ => false
  end.

Definition is_drawline (c : femm_cmd) : bool :=
  match c with
  | mi_drawline _ _ _ _ => true
  | _ => false
  end.

Definition is_solve (c : femm_cmd) : bool :=
  match c with
  | mi_analyze => true
  | _ => false
  end.

(** Block properties that assign the material [m]. *)
Definition assigns_material (m : string) (c : femm_cmd) : bool :=
  match c with
  | mi_setblockprop name _ _ => String.eqb name m
  | _ => false
  end.

(** ** A script: a trace of commands and a result or an exception *)

Definition script (A : Type) : Type := (list femm_cmd * (py_error + A))%type.

Definition ret {A : Type} (a : A) : script A := ([], inr a).

Definition raise {A : Type} (e : py_error) : script A := ([], inl e).

Definition bind {A B : Type} (m : script A) (k : A -> script B) : script B :=
  match m with
  | (t, inl e) => (t, inl e)
  | (t, inr a) => let (t', r) := k a in ((t ++ t')%list, r)
  end.

Definition emit (cmds : list femm_cmd) : script unit := (cmds, inr tt).

Declare Scope script_scope.
Delimit Scope script_scope with script.

Notation "x <- m ;; k" := (bind m (fun x => k))
  (at level 61, m at next level, right associativity) : script_scope.
Notation "m ;; k" := (bind m (fun _ => k))
  (at level 61, right associativity) : script_scope.

Definition trace {A : Type} (m : script A) : list femm_cmd := fst m.

Definition outcome {A : Type} (m : script A) : py_error + A := snd m.

(** A [for] loop whose body only emits commands. *)
Definition for_each {A : Type} (l : list A) (body : A -> list femm_cmd)
  : list femm_cmd :=
  flat_map body l.

(** ** Subsea cable parameters *)

Record config : Type := {
  (* user inputs *)
  A_cond : R;
  cond_screen : R;
  insulation : R;
  insul_screen_NM : R;
  insul_screen_ME : R;
  bedding : R;
  r_armour : R;
  r_armour_2 : R;
  over_sheath : R;
  AMPS_RMS : R;
  freq : R;
  burial_depth : R;
  (* environment and cable component characteristics *)
  copper_conductivity : R;
  copper_permeability : R;
  XLPE_conductivity : R;
  XLPE_permeability : R;
  NM_screen_conductivity : R;
  NM_screen_permeability : R;
  M_screen_conductivity : R;
  M_screen_permeability : R;
  inner_conductivity : R;
  inner_permeability : R;
  bedding_conductivity : R;
  bedding_permeability : R;
  armour_conductivity : R;
  armour_permeability : R;
  over_conductivity : R;
  over_permeability : R;
  seawater_conductivity : R;
  seawater_permeability : R;
  seabed_conductivity : R;
  seabed_permeability : R
}.

(** The values written in the script. *)
Definition Main_config : config := {|
  A_cond := 50;
  cond_screen := 0.2;
  insulation := 3.4;
  insul_screen_NM := 3.0;
  insul_screen_ME := 0.2;
  bedding := 0.2;
  r_armour := 2.00;
  r_armour_2 := 0;
  over_sheath := 2.0;
  AMPS_RMS := 0.057;
  freq := 50;
  burial_depth := 2000;
  copper_conductivity := 58000000;
  copper_permeability := 1.0;
  XLPE_conductivity := 0.0;
  XLPE_permeability := 1.0;
  NM_screen_conductivity := 1.0;
  NM_screen_permeability := 1.0;
  M_screen_conductivity := 5000000;
  M_screen_permeability := 1.0;
  inner_conductivity := 0.0;
  inner_permeability := 1.0;
  bedding_conductivity := 0.0;
  bedding_permeability := 1.0;
  armour_conductivity := 1100000;
  armour_permeability := 300;
  over_conductivity := 0.0;
  over_permeability := 1.0;
  seawater_conductivity := 5.0;
  seawater_permeability := 1.0;
  seabed_conductivity := 1.0;
  seabed_permeability := 1.0
|}.

(** Constants of the script that are not inputs. *)
Definition dist1 : R := 0.01.
Definition dist2 : R := 0.01.
Definition cond_surf : R := 0.2.
Definition limit_fine : R := 400.
Definition limit_coarse : R := 3500.
Definition space : R := 0.05.
Definition cos60 : R := cos (radians 60).
Definition sin60 : R := sin (radians 60).

(** ** The armour ring packer

    The script computes the wire count of both armour layers with the same
    expression, [int(sp.floor(2*pi*R / (2*r + space)))], followed by
    [np.radians(360/N)].  The quotient of two doubles with a zero divisor is
    [inf] or [nan], which [int] refuses; [360/N] with [N = 0] raises
    [ZeroDivisionError].

    [armour_count] is the count in exact arithmetic: the floor of the real
    quotient.  [count_step] is the step of the script in that reading; it
    raises where the real divisor is zero.  The count in binary64
    arithmetic, with its rounding and its overflow, is
    [Binary64.NbrOfArmourElem] below. *)
Definition armour_perimeter (R_ring : R) : R := 2 * PI * R_ring.

Definition armour_count (R_ring r_wire gap : R) : Z :=
  Zfloor (armour_perimeter R_ring / (2 * r_wire + gap)).

Definition count_step (R_ring r_wire gap : R) : script Z :=
  if Req_dec_T (2 * r_wire + gap) 0 then
    if Req_dec_T (armour_perimeter R_ring) 0 then raise ValueError
    else raise OverflowError
  else ret (armour_count R_ring r_wire gap).

Definition theta_step (N : Z) : script R :=
  if Z.eqb N 0 then raise ZeroDivisionError
  else ret (radians (360 / IZR N)).

(** *** The packer in binary64

    Lines 308 and 309 of the script on doubles: the perimeter
    [2 * sp.pi * R_armour], its quotient by [2 * r_armour + space], and
    [int(sp.floor(...))] of the quotient.  Every operation is the IEEE 754
    binary64 one, rounded to nearest; [sp.pi] is the double nearest to pi.
    [int] raises [OverflowError] on an infinite quotient and [ValueError]
    on [nan]. *)
Module Binary64.

(** The real number a finite double stands for; 0 for [inf] and [nan]. *)
Definition float_to_R (x : float) : R :=
  match Prim2SF x with
  | S754_finite s m e => IZR (if s then Z.neg m else Z.pos m) * powerRZ 2 e
  | _ => 0
  end.

(** [int(sp.floor(x))]. *)
Definition float_floor (x : float) : py_error + Z :=
  match Prim2SF x with
  | S754_nan => inl ValueError
  | S754_infinity _ => inl OverflowError
  | S754_zero _ => inr 0%Z
  | S754_finite s m e =>
      let z := if s then Z.neg m else Z.pos m in
      inr (if (0 <=? e)%Z then z * 2 ^ e else z / 2 ^ (- e))%Z
  end.

(** [sp.pi], 3.141592653589793. *)
Definition pi : float := 0x1.921fb54442d18p+1.

Definition Armour_perimeter (R_armour : float) : float :=
  (2 * pi * R_armour)%float.

Definition quotient (R_armour r_armour space : float) : float :=
  (Armour_perimeter R_armour / (2 * r_armour + space))%float.

Definition NbrOfArmourElem (R_armour r_armour space : float)
  : py_error + Z :=
  float_floor (quotient R_armour r_armour space).

End Binary64.

(** A ring of radius 21.003677839837426 mm with wires of radius 0.77 mm and
    the script's gap of 0.05 mm: the exact quotient is just below 83. *)
Definition tight_ring : float * float * float :=
  (0x1.500f107e9d259p+4, 0x1.8a3d70a3d70a4p-1, 0x1.999999999999ap-5)%float.

(** A ring of radius 1e308 mm with wires of radius 2 mm and the script's
    gap. *)
Definition huge_ring : float * float * float :=
  (0x1.1ccf385ebc8ap+1023, 0x1p+1, 0x1.999999999999ap-5)%float.

(** The wire of index [i] (from 1) of a ring: its angle and its centre. *)
Definition wire_angle (theta : R) (i : Z) : R := IZR (i - 1) * theta.

Definition wire_center (R_ring theta : R) (i : Z) : R * R :=
  (R_ring * sin (wire_angle theta i), R_ring * cos (wire_angle theta i)).

(** Body of the loop that draws one armour wire. *)
Definition draw_wire (R_ring r_wire theta : R) (i : Z) : list femm_cmd :=
  [ mi_addblocklabel (R_ring * sin (IZR (i - 1) * theta))
                     (R_ring * cos (IZR (i - 1) * theta));
    mi_drawarc ((R_ring - r_wire + dist1) * sin (IZR (i - 1) * theta))
               ((R_ring - r_wire + dist1) * cos (IZR (i - 1) * theta))
               ((R_ring + r_wire - dist1) * sin (IZR (i - 1) * theta))
               ((R_ring + r_wire - dist1) * cos (IZR (i - 1) * theta)) 180 3;
    mi_drawarc ((R_ring + r_wire - dist1) * sin (IZR (i - 1) * theta))
               ((R_ring + r_wire - dist1) * cos (IZR (i - 1) * theta))
               ((R_ring - r_wire + dist1) * sin (IZR (i - 1) * theta))
               ((R_ring - r_wire + dist1) * cos (IZR (i - 1) * theta)) 180 3 ].

Definition draw_ring (R_ring r_wire theta : R) (N : Z) : list femm_cmd :=
  for_each (py_range 1 (N + 1)) (draw_wire R_ring r_wire theta).

(** ** What the post-processor reports

    One profile per plotted curve: the sampled positions with the flux
    density and electric field magnitudes.  The near and far families have
    one profile per offset, in the order of the offsets. *)
Record profile : Type := {
  contour : list Z;
  b_value : list R;
  e_value : list R
}.

Record report : Type := {
  near : list profile;
  far : list profile;
  radial : profile
}.

(** ** The script, for one configuration and one solver *)

Section Model.

Variable cfg : config.

(** The solved field, as the post-processor queries it: [mo_getb x y] is the
    pair of flux density components and [mo_getj x y] the current density,
    both complex, at the integer point [(x, y)]. *)
Variable mo_getb : Z -> Z -> C * C.
Variable mo_getj : Z -> Z -> C.

(** *** Support variables *)

Definition AMPS : R := sqrt 2 * AMPS_RMS cfg.

(** [sp.sqrt(A_cond/sp.pi)].  The real square root stands for the script's
    on an area that is not negative; on a negative area [sp.sqrt] returns a
    complex number and the script cannot go on, a case the embedding leaves
    out: statements that depend on [r_cond] being a radius assume
    [0 <= A_cond]. *)
Definition r_cond : R := sqrt (A_cond cfg / PI).
Definition r_cond_screen : R := r_cond + cond_screen cfg.
Definition r_cond_insul : R := r_cond + cond_screen cfg + insulation cfg.
Definition r_cond_insu_screen_NM : R :=
  r_cond + cond_screen cfg + insulation cfg + insul_screen_NM cfg.
Definition r_cond_total : R :=
  r_cond + cond_screen cfg + insulation cfg + insul_screen_NM cfg
  + insul_screen_ME cfg.

Definition cond_center : R := 2 * r_cond_total + cond_surf.

Definition GridSize : R := 0.3 * r_cond_total.

(** Apothem of an equilateral triangle. *)
Definition delta_y_triangle : R := (1 / 6) * sqrt 3 * cond_center.

(** Centres of the three conductors: the label points of the copper cores. *)
Definition conductor_1_center : R * R := (cond_center * cos60, - delta_y_triangle).
Definition conductor_2_center : R * R := (0, cond_center * sin60 - delta_y_triangle).
Definition conductor_3_center : R * R := (- cond_center * cos60, - delta_y_triangle).

(** *** Start of FEMM, problem definition, materials *)

Definition setup : list femm_cmd :=
  [ openfemm;
    newdocument 0;
    mi_probdef (freq cfg) "millimeters" "planar" 1e-8 5000 10 0;
    mi_zoom (-400) (-400) 400 400 ].

Definition materials : list femm_cmd :=
  [ mi_addmaterial "copper_conductors" (copper_permeability cfg)
      (copper_permeability cfg) (seawater_conductivity cfg * powerRZ 10 (-6));
    mi_addmaterial "XLPE" (XLPE_permeability cfg) (XLPE_permeability cfg)
      (XLPE_conductivity cfg * powerRZ 10 (-6));
    mi_addmaterial "M_screen" (M_screen_permeability cfg)
      (M_screen_permeability cfg) (M_screen_conductivity cfg * powerRZ 10 (-6));
    mi_addmaterial "NM_screen" (NM_screen_permeability cfg)
      (NM_screen_permeability cfg) (NM_screen_conductivity cfg * powerRZ 10 (-6));
    mi_addmaterial "inner" (inner_permeability cfg) (inner_permeability cfg)
      (inner_conductivity cfg * powerRZ 10 (-6));
    mi_addmaterial "bedding" (bedding_permeability cfg)
      (bedding_permeability cfg) (bedding_conductivity cfg * powerRZ 10 (-6));
    mi_addmaterial "armour" (armour_permeability cfg)
      (armour_permeability cfg) (armour_conductivity cfg * powerRZ 10 (-6));
    mi_addmaterial "over" (over_permeability cfg) (over_permeability cfg)
      (over_conductivity cfg * powerRZ 10 (-6));
    mi_addmaterial "seawater" (seawater_permeability cfg)
      (seawater_permeability cfg) (seawater_conductivity cfg * powerRZ 10 (-6));
    mi_addmaterial "seabed" (seabed_permeability cfg)
      (seabed_permeability cfg) (seabed_conductivity cfg * powerRZ 10 (-6)) ].

(** *** Environment geometry *)

Definition coarse_square : list femm_cmd :=
  [ mi_addblocklabel (limit_coarse * 4 / 5) (limit_coarse * 4 / 5);
    mi_drawline limit_coarse limit_coarse limit_coarse (- limit_coarse);
    mi_drawline limit_coarse limit_coarse (- limit_coarse) limit_coarse;
    mi_drawline (- limit_coarse) (- limit_coarse) limit_coarse (- limit_coarse);
    mi_drawline (- limit_coarse) (- limit_coarse) (- limit_coarse) limit_coarse ].

Definition fine_square : list femm_cmd :=
  [ mi_addblocklabel (limit_fine * 4 / 5) (limit_fine * 4 / 5);
    mi_drawline limit_fine limit_fine limit_fine (- limit_fine);
    mi_drawline limit_fine limit_fine (- limit_fine) limit_fine;
    mi_drawline (- limit_fine) (- limit_fine) limit_fine (- limit_fine);
    mi_drawline (- limit_fine) (- limit_fine) (- limit_fine) limit_fine ].

(** The test [burial_depth!=0 and burial_depth>limit_fine]. *)
Definition seabed_present : bool :=
  if Req_dec_T (burial_depth cfg) 0 then false
  else if Rlt_dec limit_fine (burial_depth cfg) then true else false.

Definition seabed_geometry : list femm_cmd :=
  if seabed_present then
    [ mi_addblocklabel (limit_coarse * 4 / 5) (- limit_coarse * 4 / 5);
      mi_drawline (- limit_coarse) (burial_depth cfg) limit_coarse
                  (burial_depth cfg) ]
  else [].

(** *** Conductors, filling and bedding *)

Definition conductor_1 : list femm_cmd :=
  [ mi_addblocklabel (cond_center * cos60) (- delta_y_triangle);
    mi_drawarc (cond_center * cos60 - r_cond) (- delta_y_triangle)
        (cond_center * cos60 + r_cond) (- delta_y_triangle) 180 3;
    mi_drawarc (cond_center * cos60 + r_cond) (- delta_y_triangle)
        (cond_center * cos60 - r_cond) (- delta_y_triangle) 180 3;
    mi_addblocklabel
        (cond_center * cos60 + r_cond_screen - 0.5 * cond_screen cfg)
        (- delta_y_triangle);
    mi_drawarc (cond_center * cos60 - r_cond_screen) (- delta_y_triangle)
        (cond_center * cos60 + r_cond_screen) (- delta_y_triangle) 180 3;
    mi_drawarc (cond_center * cos60 + r_cond_screen) (- delta_y_triangle)
        (cond_center * cos60 - r_cond_screen) (- delta_y_triangle) 180 3;
    mi_addblocklabel
        (cond_center * cos60 + r_cond_insul - 0.5 * insulation cfg)
        (- delta_y_triangle);
    mi_drawarc (cond_center * cos60 - r_cond_insul) (- delta_y_triangle)
        (cond_center * cos60 + r_cond_insul) (- delta_y_triangle) 180 3;
    mi_drawarc (cond_center * cos60 + r_cond_insul) (- delta_y_triangle)
        (cond_center * cos60 - r_cond_insul) (- delta_y_triangle) 180 3;
    mi_addblocklabel
        (cond_center * cos60 + r_cond_insu_screen_NM - 0.5 * insul_screen_NM cfg)
        (- delta_y_triangle);
    mi_drawarc (cond_center * cos60 - r_cond_insu_screen_NM)
        (- delta_y_triangle) (cond_center * cos60 + r_cond_insu_screen_NM)
        (- delta_y_triangle) 180 3;
    mi_drawarc (cond_center * cos60 + r_cond_insu_screen_NM)
        (- delta_y_triangle) (cond_center * cos60 - r_cond_insu_screen_NM)
        (- delta_y_triangle) 180 3;
    mi_addblocklabel
        (cond_center * cos60 + r_cond_total - 0.5 * insul_screen_ME cfg)
        (- delta_y_triangle);
    mi_drawarc (cond_center * cos60 - r_cond_total) (- delta_y_triangle)
        (cond_center * cos60 + r_cond_total) (- delta_y_triangle) 180 3;
    mi_drawarc (cond_center * cos60 + r_cond_total) (- delta_y_triangle)
        (cond_center * cos60 - r_cond_total) (- delta_y_triangle) 180 3 ].

Definition conductor_2 : list femm_cmd :=
  [ mi_addblocklabel 0 (cond_center * sin60 - delta_y_triangle);
    mi_drawarc 0 (cond_center * sin60 - r_cond - delta_y_triangle) 0
        (cond_center * sin60 + r_cond - delta_y_triangle) 180 3;
    mi_drawarc 0 (cond_center * sin60 + r_cond - delta_y_triangle) 0
        (cond_center * sin60 - r_cond - delta_y_triangle) 180 3;
    mi_addblocklabel (0 + r_cond_screen - 0.5 * cond_screen cfg)
        (cond_center * sin60 - delta_y_triangle);
    mi_drawarc 0 (cond_center * sin60 - r_cond_screen - delta_y_triangle) 0
        (cond_center * sin60 + r_cond_screen - delta_y_triangle) 180 3;
    mi_drawarc 0 (cond_center * sin60 + r_cond_screen - delta_y_triangle) 0
        (cond_center * sin60 - r_cond_screen - delta_y_triangle) 180 3;
    mi_addblocklabel (0 + r_cond_insul - 0.5 * insulation cfg)
        (cond_center * sin60 - delta_y_triangle);
    mi_drawarc 0 (cond_center * sin60 - r_cond_insul - delta_y_triangle) 0
        (cond_center * sin60 + r_cond_insul - delta_y_triangle) 180 3;
    mi_drawarc 0 (cond_center * sin60 + r_cond_insul - delta_y_triangle) 0
        (cond_center * sin60 - r_cond_insul - delta_y_triangle) 180 3;
    mi_addblocklabel (0 + r_cond_insu_screen_NM - 0.5 * insul_screen_NM cfg)
        (cond_center * sin60 - delta_y_triangle);
    mi_drawarc 0
        (cond_center * sin60 - r_cond_insu_screen_NM - delta_y_triangle) 0
        (cond_center * sin60 + r_cond_insu_screen_NM - delta_y_triangle) 180 3;
    mi_drawarc 0
        (cond_center * sin60 + r_cond_insu_screen_NM - delta_y_triangle) 0
        (cond_center * sin60 - r_cond_insu_screen_NM - delta_y_triangle) 180 3;
    mi_addblocklabel (0 + r_cond_total - 0.5 * insul_screen_ME cfg)
        (cond_center * sin60 - delta_y_triangle);
    mi_drawarc 0 (cond_center * sin60 - r_cond_total - delta_y_triangle) 0
        (cond_center * sin60 + r_cond_total - delta_y_triangle) 180 3;
    mi_drawarc 0 (cond_center * sin60 + r_cond_total - delta_y_triangle) 0
        (cond_center * sin60 - r_cond_total - delta_y_triangle) 180 3 ].

Definition conductor_3 : list femm_cmd :=
  [ mi_addblocklabel (- cond_center * cos60) (- delta_y_triangle);
    mi_drawarc (- cond_center * cos60 - r_cond) (0 - delta_y_triangle)
        (- cond_center * cos60 + r_cond) (0 - delta_y_triangle) 180 3;
    mi_drawarc (- cond_center * cos60 + r_cond) (0 - delta_y_triangle)
        (- cond_center * cos60 - r_cond) (0 - delta_y_triangle) 180 3;
    mi_addblocklabel
        (- cond_center * cos60 + r_cond_screen - 0.5 * cond_screen cfg)
        (- delta_y_triangle);
    mi_drawarc (- cond_center * cos60 - r_cond_screen)
        (0 - delta_y_triangle) (- cond_center * cos60 + r_cond_screen)
        (0 - delta_y_triangle) 180 3;
    mi_drawarc (- cond_center * cos60 + r_cond_screen)
        (0 - delta_y_triangle) (- cond_center * cos60 - r_cond_screen)
        (0 - delta_y_triangle) 180 3;
    mi_addblocklabel
        (- cond_center * cos60 + r_cond_insul - 0.5 * insulation cfg)
        (- delta_y_triangle);
    mi_drawarc (- cond_center * cos60 - r_cond_insul) (0 - delta_y_triangle)
        (- cond_center * cos60 + r_cond_insul) (0 - delta_y_triangle) 180 3;
    mi_drawarc (- cond_center * cos60 + r_cond_insul) (0 - delta_y_triangle)
        (- cond_center * cos60 - r_cond_insul) (0 - delta_y_triangle) 180 3;
    mi_addblocklabel
        (- cond_center * cos60 + r_cond_insu_screen_NM - 0.5 * insul_screen_NM cfg)
        (- delta_y_triangle);
    mi_drawarc (- cond_center * cos60 - r_cond_insu_screen_NM)
        (0 - delta_y_triangle) (- cond_center * cos60 + r_cond_insu_screen_NM)
        (0 - delta_y_triangle) 180 3;
    mi_drawarc (- cond_center * cos60 + r_cond_insu_screen_NM)
        (0 - delta_y_triangle) (- cond_center * cos60 - r_cond_insu_screen_NM)
        (0 - delta_y_triangle) 180 3;
    mi_addblocklabel
        (- cond_center * cos60 + r_cond_total - 0.5 * insul_screen_ME cfg)
        (- delta_y_triangle);
    mi_drawarc (- cond_center * cos60 - r_cond_total) (0 - delta_y_triangle)
        (- cond_center * cos60 + r_cond_total) (0 - delta_y_triangle) 180 3;
    mi_drawarc (- cond_center * cos60 + r_cond_total) (0 - delta_y_triangle)
        (- cond_center * cos60 - r_cond_total) (0 - delta_y_triangle) 180 3 ].

(** Laying up / filling. *)
Definition filling : list femm_cmd :=
  [ mi_addblocklabel 0 0 ].

(** Bedding: inner and outer radius. *)
Definition bedding_geometry : list femm_cmd :=
  [ mi_addblocklabel 0
        (cond_center * sin60 + r_cond_total - delta_y_triangle + 0.5 * bedding cfg);
    mi_drawarc 0
        (cond_center * sin60 + r_cond_total - delta_y_triangle + dist1) 0
        (- cond_center * sin60 - r_cond_total + delta_y_triangle - dist1) 180 3;
    mi_drawarc 0
        (- cond_center * sin60 - r_cond_total + delta_y_triangle - dist1) 0
        (cond_center * sin60 + r_cond_total - delta_y_triangle + dist1) 180 3;
    mi_drawarc 0
        (cond_center * sin60 + r_cond_total - delta_y_triangle + bedding cfg) 0
        (- cond_center * sin60 - r_cond_total + delta_y_triangle - bedding cfg)
        180 3;
    mi_drawarc 0
        (- cond_center * sin60 - r_cond_total + delta_y_triangle - bedding cfg)
        0 (cond_center * sin60 + r_cond_total - delta_y_triangle + bedding cfg)
        180 3 ].

(** *** Armour and over sheath *)

Definition R_armour : R :=
  (cond_center * sin60 - delta_y_triangle) + r_cond_total + bedding cfg
  + r_armour cfg.

Definition Armour_perimeter : R := armour_perimeter R_armour.

Definition NbrOfArmourElem : Z := armour_count R_armour (r_armour cfg) space.

Definition R_armour_2 : R := R_armour + r_armour cfg + space + r_armour_2 cfg.

Definition NbrOfArmourElem2 : Z :=
  armour_count R_armour_2 (r_armour_2 cfg) space.

(** Area between armouring. *)
Definition area_between_armouring (theta : R) : list femm_cmd :=
  [ mi_addblocklabel
      ((R_armour - 0.4 * r_armour cfg) * sin ((1 - 0.5) * theta))
      ((R_armour - 0.4 * r_armour cfg) * cos ((1 - 0.5) * theta)) ].

(** Over sheath when the cable has a second armour layer. *)
Definition over_sheath_2 : list femm_cmd :=
  [ mi_addblocklabel 0
        (R_armour_2 + r_armour_2 cfg + dist1 + 0.5 * over_sheath cfg);
    mi_drawarc 0 (R_armour_2 + r_armour_2 cfg + dist1) 0
        (- R_armour_2 - r_armour_2 cfg - dist1) 180 2;
    mi_drawarc 0 (- R_armour_2 - r_armour_2 cfg - dist1) 0
        (R_armour_2 + r_armour_2 cfg + dist1) 180 2;
    mi_drawarc 0 (R_armour_2 + r_armour_2 cfg + over_sheath cfg + 2 * dist1)
        0 (- R_armour_2 - r_armour_2 cfg - over_sheath cfg - 2 * dist1) 180 2;
    mi_drawarc 0
        (- R_armour_2 - r_armour_2 cfg - over_sheath cfg - 2 * dist1) 0
        (R_armour_2 + r_armour_2 cfg + over_sheath cfg + 2 * dist1) 180 2 ].

(** Over sheath when the cable has one armour layer. *)
Definition over_sheath_1 : list femm_cmd :=
  [ mi_addblocklabel 0
        (R_armour + r_armour cfg + dist1 + 0.5 * over_sheath cfg);
    mi_drawarc 0 (R_armour + r_armour cfg + dist1) 0
        (- R_armour - r_armour cfg - dist1) 180 2;
    mi_drawarc 0 (- R_armour - r_armour cfg - dist1) 0
        (R_armour + r_armour cfg + dist1) 180 2;
    mi_drawarc 0 (R_armour + r_armour cfg + over_sheath cfg + 2 * dist1) 0
        (- R_armour - r_armour cfg - over_sheath cfg - 2 * dist1) 180 2;
    mi_drawarc 0 (- R_armour - r_armour cfg - over_sheath cfg - 2 * dist1) 0
        (R_armour + r_armour cfg + over_sheath cfg + 2 * dist1) 180 2 ].

(** Overall cable radius: assigned in both branches of the test on
    [r_armour_2]. *)
Definition R_cable_total : R :=
  if Req_dec_T (r_armour_2 cfg) 0
  then R_armour + r_armour cfg + over_sheath cfg + dist1
  else R_armour_2 + r_armour_2 cfg + over_sheath cfg + dist1.

(** *** Object properties

    Every label is selected and assigned twice ([for i in range(2)]): the
    script's way to leave the label deselected.  [femm.mi_clearselected] is
    named without being called and has no effect. *)

Definition environment_properties : list femm_cmd :=
  for_each (py_range 0 2) (fun _ =>
    [ mi_selectlabel (limit_coarse * 4 / 5) (limit_coarse * 4 / 5);
      mi_setblockprop "seawater" (10 * GridSize) "<None>" ])
  ++ (if seabed_present then
        for_each (py_range 0 2) (fun _ =>
          [ mi_selectlabel (limit_fine * 4 / 5) (limit_fine * 4 / 5);
            mi_setblockprop "seabed" (6 * GridSize) "<None>" ])
        ++ for_each (py_range 0 2) (fun _ =>
          [ mi_selectlabel (limit_coarse * 4 / 5) (- limit_coarse * 4 / 5);
            mi_setblockprop "seabed" (10 * GridSize) "<None>" ])
      else
        for_each (py_range 0 2) (fun _ =>
          [ mi_selectlabel (limit_fine * 4 / 5) (limit_fine * 4 / 5);
            mi_setblockprop "seawater" (6 * GridSize) "<None>" ])).

Definition armour_properties (R_ring theta : R) (N : Z) : list femm_cmd :=
  for_each (py_range 1 (2 * N + 1)) (fun i =>
    [ mi_selectlabel (R_ring * sin (IZR (i - 1) * theta))
                     (R_ring * cos (IZR (i - 1) * theta));
      mi_setblockprop "armour" (0.5 * GridSize) "<None>" ]).

Definition area_properties (theta : R) : list femm_cmd :=
  for_each (py_range 0 2) (fun _ =>
    [ mi_selectlabel
        ((R_armour - 0.4 * r_armour cfg) * sin ((1 - 0.5) * theta))
        ((R_armour - 0.4 * r_armour cfg) * cos ((1 - 0.5) * theta));
      mi_setblockprop "seawater" GridSize "<None>" ]).

Definition over_sheath_2_properties : list femm_cmd :=
  for_each (py_range 0 2) (fun _ =>
    [ mi_selectlabel 0
        (R_armour_2 + r_armour_2 cfg + dist1 + 0.5 * over_sheath cfg);
      mi_setblockprop "over" GridSize "<None>" ]).

Definition over_sheath_1_properties : list femm_cmd :=
  for_each (py_range 0 2) (fun _ =>
    [ mi_selectlabel 0 (R_armour + r_armour cfg + dist1 + 0.5 * over_sheath cfg);
      mi_setblockprop "over" GridSize "<None>" ]).

Definition bedding_properties : list femm_cmd :=
  for_each (py_range 0 2) (fun _ =>
    [ mi_selectlabel 0
        (cond_center * sin60 + r_cond_total - delta_y_triangle
         + 0.5 * bedding cfg);
      mi_setblockprop "bedding" GridSize "<None>" ]).

Definition filling_properties : list femm_cmd :=
  for_each (py_range 0 2) (fun _ =>
    [ mi_selectlabel 0 0;
      mi_setblockprop "bedding" GridSize "<None>" ]).

Definition conductor_properties : list femm_cmd :=
  for_each (py_range 0 2) (fun _ =>
    [ mi_selectlabel (cond_center * cos60 + r_cond_total - 0.5 * insul_screen_ME cfg)
        (- delta_y_triangle);
      mi_selectlabel (0 + r_cond_total - 0.5 * insul_screen_ME cfg)
        (cond_center * sin60 - delta_y_triangle);
      mi_selectlabel (- cond_center * cos60 + r_cond_total - 0.5 * insul_screen_ME cfg)
        (- delta_y_triangle);
      mi_setblockprop "M_screen" GridSize "<None>" ])
  ++ for_each (py_range 0 2) (fun _ =>
    [ mi_selectlabel
        (cond_center * cos60 + r_cond_insu_screen_NM - 0.5 * insul_screen_NM cfg)
        (- delta_y_triangle);
      mi_selectlabel (0 + r_cond_insu_screen_NM - 0.5 * insul_screen_NM cfg)
        (cond_center * sin60 - delta_y_triangle);
      mi_selectlabel
        (- cond_center * cos60 + r_cond_insu_screen_NM - 0.5 * insul_screen_NM cfg)
        (- delta_y_triangle);
      mi_setblockprop "NM_screen" GridSize "<None>" ])
  ++ for_each (py_range 0 2) (fun _ =>
    [ mi_selectlabel (cond_center * cos60 + r_cond_insul - 0.5 * insulation cfg)
        (- delta_y_triangle);
      mi_selectlabel (0 + r_cond_insul - 0.5 * insulation cfg)
        (cond_center * sin60 - delta_y_triangle);
      mi_selectlabel (- cond_center * cos60 + r_cond_insul - 0.5 * insulation cfg)
        (- delta_y_triangle);
      mi_setblockprop "XLPE" GridSize "<None>" ])
  ++ for_each (py_range 0 2) (fun _ =>
    [ mi_selectlabel (cond_center * cos60 + r_cond_screen - 0.5 * cond_screen cfg)
        (- delta_y_triangle);
      mi_selectlabel (0 + r_cond_screen - 0.5 * cond_screen cfg)
        (cond_center * sin60 - delta_y_triangle);
      mi_selectlabel (- cond_center * cos60 + r_cond_screen - 0.5 * cond_screen cfg)
        (- delta_y_triangle);
      mi_setblockprop "NM_screen" GridSize "<None>" ])
  ++ for_each (py_range 0 2) (fun _ =>
    [ mi_selectlabel (cond_center * cos60) (- delta_y_triangle);
      mi_setblockprop "copper_conductors" (0.5 * GridSize) "icoil1";
      mi_selectlabel 0 (cond_center * sin60 - delta_y_triangle);
      mi_setblockprop "copper_conductors" (0.5 * GridSize) "icoil2";
      mi_selectlabel (- cond_center * cos60) (- delta_y_triangle);
      mi_setblockprop "copper_conductors" (0.5 * GridSize) "icoil3" ]).

(** *** Circuits: the three phase currents *)

Definition icoil1 : C := (AMPS, 0).
Definition icoil2 : C := (-0.5 * AMPS, AMPS * 0.866).
Definition icoil3 : C := (-0.5 * AMPS, - (AMPS * 0.866)).

Definition circuits : list femm_cmd :=
  [ mi_addcircprop "icoil1" icoil1 1;
    mi_addcircprop "icoil2" icoil2 1;
    mi_addcircprop "icoil3" icoil3 1 ].

(** *** Analysis

    After the solution is loaded the script also reads the point values at
    (0, 30) into a variable it never uses, and it ends by plotting the report
    with matplotlib: neither is part of the model. *)

Definition analysis : list femm_cmd :=
  [ mi_saveas "SubseaCable_model.fem";
    mi_analyze;
    mi_loadsolution ].

(** *** Field sampling *)

(** [np.sqrt(np.abs(b[0])**2+np.abs(b[1])**2)*10**6]. *)
Definition b_magnitude (b : C * C) : R :=
  sqrt (Cabs (fst b) ^ 2 + Cabs (snd b) ^ 2) * 10 ^ 6.

(** The test [burial_depth!=0 and y<=burial_depth] on a sample at height
    [y]. *)
Definition below_burial_depth (y : Z) : bool :=
  if Req_dec_T (burial_depth cfg) 0 then false
  else if Rle_dec (IZR y) (burial_depth cfg) then true else false.

(** The electric field magnitude of a current density sample [e] taken at
    height [y]. *)
Definition e_magnitude (e : C) (y : Z) : R :=
  if below_burial_depth y
  then (Cabs e * 10 ^ 6 / seabed_conductivity cfg) * 10 ^ 6
  else (Cabs e * 10 ^ 6 / seawater_conductivity cfg) * 10 ^ 6.

Definition near_offset (p : Z) : Z := (py_int R_cable_total + 100 * p)%Z.
Definition far_offset (p : Z) : Z := (py_int R_cable_total + 1000 * p)%Z.

(** One horizontal scan, [for n in range(-500,500,1)], at height [y]. *)
Definition scan_line (y : Z) : profile := {|
  contour := py_range (-500) 500;
  b_value := map (fun n => b_magnitude (mo_getb n y)) (py_range (-500) 500);
  e_value := map (fun n => e_magnitude (mo_getj n y) y) (py_range (-500) 500)
|}.

Definition near_profiles : list profile :=
  map (fun p => scan_line (near_offset p)) (py_range 1 4).

Definition far_profiles : list profile :=
  map (fun p => scan_line (far_offset p)) (py_range 1 4).

(** The radial scan above the cable,
    [for n in range(int(R_cable_total)+100,3000,1)]. *)
Definition radial_profile : profile := {|
  contour := py_range (py_int R_cable_total + 100) 3000;
  b_value := map (fun n => b_magnitude (mo_getb 0 n))
                 (py_range (py_int R_cable_total + 100) 3000);
  e_value := map (fun n => e_magnitude (mo_getj 0 n) n)
                 (py_range (py_int R_cable_total + 100) 3000)
|}.

Definition sample_field : report := {|
  near := near_profiles;
  far := far_profiles;
  radial := radial_profile
|}.

(** *** The whole script *)

Open Scope script_scope.

(** Geometry emitted before the first armour count is computed. *)
Definition core_geometry : list femm_cmd :=
  coarse_square ++ fine_square ++ seabed_geometry
  ++ conductor_1 ++ conductor_2 ++ conductor_3 ++ filling ++ bedding_geometry.

(** The branch on [r_armour_2 != 0]: the second armour layer, when there is
    one, and the over sheath.  It yields the count and step of the second
    layer for the property assignment that follows. *)
Definition outer_layers : script (option (Z * R)) :=
  if Req_dec_T (r_armour_2 cfg) 0 then
    emit over_sheath_1 ;;
    emit [ py_print "Overall Cable Diameter :" (Some (2 * R_cable_total)) ] ;;
    ret None
  else
    N2 <- count_step R_armour_2 (r_armour_2 cfg) space ;;
    theta_2 <- theta_step N2 ;;
    emit (draw_ring R_armour_2 (r_armour_2 cfg) theta_2 N2) ;;
    emit over_sheath_2 ;;
    emit [ py_print "Overall Cable Diameter :" (Some (2 * R_cable_total)) ] ;;
    ret (Some (N2, theta_2)).

(** The second test on [r_armour_2] has the outcome of the first. *)
Definition outer_properties (layer2 : option (Z * R)) : list femm_cmd :=
  match layer2 with
  | Some (N2, theta_2) =>
      armour_properties R_armour_2 theta_2 N2 ++ over_sheath_2_properties
  | None => over_sheath_1_properties
  end.

Definition Main : script report :=
  emit setup ;;
  emit materials ;;
  emit core_geometry ;;
  N <- count_step R_armour (r_armour cfg) space ;;
  theta <- theta_step N ;;
  emit (draw_ring R_armour (r_armour cfg) theta N) ;;
  emit (area_between_armouring theta) ;;
  layer2 <- outer_layers ;;
  emit [ py_print "Objects geometries defined" None ] ;;
  emit environment_properties ;;
  emit (armour_properties R_armour theta N) ;;
  emit (area_properties theta) ;;
  emit (outer_properties layer2) ;;
  emit bedding_properties ;;
  emit filling_properties ;;
  emit conductor_properties ;;
  emit circuits ;;
  emit [ py_print "Objects properties defined" None ] ;;
  emit analysis ;;
  ret sample_field.

Close Scope script_scope.

End Model.

(** ** Configurations that differ from another in one input *)

(** The configuration [cfg] with [copper_conductivity = v]. *)
Definition with_copper_conductivity (v : R) (cfg : config) : config := {|
  A_cond := A_cond cfg;
  cond_screen := cond_screen cfg;
  insulation := insulation cfg;
  insul_screen_NM := insul_screen_NM cfg;
  insul_screen_ME := insul_screen_ME cfg;
  bedding := bedding cfg;
  r_armour := r_armour cfg;
  r_armour_2 := r_armour_2 cfg;
  over_sheath := over_sheath cfg;
  AMPS_RMS := AMPS_RMS cfg;
  freq := freq cfg;
  burial_depth := burial_depth cfg;
  copper_conductivity := v;
  copper_permeability := copper_permeability cfg;
  XLPE_conductivity := XLPE_conductivity cfg;
  XLPE_permeability := XLPE_permeability cfg;
  NM_screen_conductivity := NM_screen_conductivity cfg;
  NM_screen_permeability := NM_screen_permeability cfg;
  M_screen_conductivity := M_screen_conductivity cfg;
  M_screen_permeability := M_screen_permeability cfg;
  inner_conductivity := inner_conductivity cfg;
  inner_permeability := inner_permeability cfg;
  bedding_conductivity := bedding_conductivity cfg;
  bedding_permeability := bedding_permeability cfg;
  armour_conductivity := armour_conductivity cfg;
  armour_permeability := armour_permeability cfg;
  over_conductivity := over_conductivity cfg;
  over_permeability := over_permeability cfg;
  seawater_conductivity := seawater_conductivity cfg;
  seawater_permeability := seawater_permeability cfg;
  seabed_conductivity := seabed_conductivity cfg;
  seabed_permeability := seabed_permeability cfg
|}.

(** The configuration [cfg] with [burial_depth = v]. *)
Definition with_burial_depth (v : R) (cfg : config) : config := {|
  A_cond := A_cond cfg;
  cond_screen := cond_screen cfg;
  insulation := insulation cfg;
  insul_screen_NM := insul_screen_NM cfg;
  insul_screen_ME := insul_screen_ME cfg;
  bedding := bedding cfg;
  r_armour := r_armour cfg;
  r_armour_2 := r_armour_2 cfg;
  over_sheath := over_sheath cfg;
  AMPS_RMS := AMPS_RMS cfg;
  freq := freq cfg;
  burial_depth := v;
  copper_conductivity := copper_conductivity cfg;
  copper_permeability := copper_permeability cfg;
  XLPE_conductivity := XLPE_conductivity cfg;
  XLPE_permeability := XLPE_permeability cfg;
  NM_screen_conductivity := NM_screen_conductivity cfg;
  NM_screen_permeability := NM_screen_permeability cfg;
  M_screen_conductivity := M_screen_conductivity cfg;
  M_screen_permeability := M_screen_permeability cfg;
  inner_conductivity := inner_conductivity cfg;
  inner_permeability := inner_permeability cfg;
  bedding_conductivity := bedding_conductivity cfg;
  bedding_permeability := bedding_permeability cfg;
  armour_conductivity := armour_conductivity cfg;
  armour_permeability := armour_permeability cfg;
  over_conductivity := over_conductivity cfg;
  over_permeability := over_permeability cfg;
  seawater_conductivity := seawater_conductivity cfg;
  seawater_permeability := seawater_permeability cfg;
  seabed_conductivity := seabed_conductivity cfg;
  seabed_permeability := seabed_permeability cfg
|}.

(** The configuration [cfg] with [bedding = v]. *)
Definition with_bedding (v : R) (cfg : config) : config := {|
  A_cond := A_cond cfg;
  cond_screen := cond_screen cfg;
  insulation := insulation cfg;
  insul_screen_NM := insul_screen_NM cfg;
  insul_screen_ME := insul_screen_ME cfg;
  bedding := v;
  r_armour := r_armour cfg;
  r_armour_2 := r_armour_2 cfg;
  over_sheath := over_sheath cfg;
  AMPS_RMS := AMPS_RMS cfg;
  freq := freq cfg;
  burial_depth := burial_depth cfg;
  copper_conductivity := copper_conductivity cfg;
  copper_permeability := copper_permeability cfg;
  XLPE_conductivity := XLPE_conductivity cfg;
  XLPE_permeability := XLPE_permeability cfg;
  NM_screen_conductivity := NM_screen_conductivity cfg;
  NM_screen_permeability := NM_screen_permeability cfg;
  M_screen_conductivity := M_screen_conductivity cfg;
  M_screen_permeability := M_screen_permeability cfg;
  inner_conductivity := inner_conductivity cfg;
  inner_permeability := inner_permeability cfg;
  bedding_conductivity := bedding_conductivity cfg;
  bedding_permeability := bedding_permeability cfg;
  armour_conductivity := armour_conductivity cfg;
  armour_permeability := armour_permeability cfg;
  over_conductivity := over_conductivity cfg;
  over_permeability := over_permeability cfg;
  seawater_conductivity := seawater_conductivity cfg;
  seawater_permeability := seawater_permeability cfg;
  seabed_conductivity := seabed_conductivity cfg;
  seabed_permeability := seabed_permeability cfg
|}.

(** The configuration [cfg] with [r_armour = v]. *)
Definition with_r_armour (v : R) (cfg : config) : config := {|
  A_cond := A_cond cfg;
  cond_screen := cond_screen cfg;
  insulation := insulation cfg;
  insul_screen_NM := insul_screen_NM cfg;
  insul_screen_ME := insul_screen_ME cfg;
  bedding := bedding cfg;
  r_armour := v;
  r_armour_2 := r_armour_2 cfg;
  over_sheath := over_sheath cfg;
  AMPS_RMS := AMPS_RMS cfg;
  freq := freq cfg;
  burial_depth := burial_depth cfg;
  copper_conductivity := copper_conductivity cfg;
  copper_permeability := copper_permeability cfg;
  XLPE_conductivity := XLPE_conductivity cfg;
  XLPE_permeability := XLPE_permeability cfg;
  NM_screen_conductivity := NM_screen_conductivity cfg;
  NM_screen_permeability := NM_screen_permeability cfg;
  M_screen_conductivity := M_screen_conductivity cfg;
  M_screen_permeability := M_screen_permeability cfg;
  inner_conductivity := inner_conductivity cfg;
  inner_permeability := inner_permeability cfg;
  bedding_conductivity := bedding_conductivity cfg;
  bedding_permeability := bedding_permeability cfg;
  armour_conductivity := armour_conductivity cfg;
  armour_permeability := armour_permeability cfg;
  over_conductivity := over_conductivity cfg;
  over_permeability := over_permeability cfg;
  seawater_conductivity := seawater_conductivity cfg;
  seawater_permeability := seawater_permeability cfg;
  seabed_conductivity := seabed_conductivity cfg;
  seabed_permeability := seabed_permeability cfg
|}.

(** ** Notions used to state the properties *)

(** The layers of one conductor, innermost first: their thicknesses and the
    radii the script derives for them. *)
Definition layer_thicknesses (cfg : config) : list R :=
  [ cond_screen cfg; insulation cfg; insul_screen_NM cfg; insul_screen_ME cfg ].

Definition layer_radii (cfg : config) : list R :=
  [ r_cond_screen cfg; r_cond_insul cfg; r_cond_insu_screen_NM cfg;
    r_cond_total cfg ].

(** The layer radius calculator in the words of the specification: from a
    base radius [r0] and thicknesses [t1 .. tn], the radii
    [r0 + t1], [r0 + t1 + t2], ... *)
Fixpoint cumulative_radii (r0 : R) (ts : list R) : list R :=
  match ts with
  | [] => []
  | t :: ts' => (r0 + t) :: cumulative_radii (r0 + t) ts'
  end.

Definition Rsum (l : list R) : R := fold_right Rplus 0 l.

Fixpoint nondecreasing (l : list R) : Prop :=
  match l with
  | [] => True
  | x :: l' =>
      match l' with
      | [] => True
      | y :: _ => x <= y /\ nondecreasing l'
      end
  end.

(** Euclidean distance of two points of the plane. *)
Definition distance (p q : R * R) : R :=
  sqrt ((fst p - fst q) ^ 2 + (snd p - snd q) ^ 2).

(** Two discs of radius [r] overlap when their centres are closer than
    [2 * r]. *)
Definition discs_overlap (r : R) (p q : R * R) : Prop :=
  distance p q < 2 * r.

(** Sum of complex numbers. *)
Definition Cadd (a b : C) : C := (fst a + fst b, snd a + snd b).

(** Equality of floats up to rounding, as [math.isclose] tests it with its
    default relative tolerance [1e-09]. *)
Definition isclose (a b : R) : Prop :=
  Rabs (a - b) <= 1e-9 * Rmax (Rabs a) (Rabs b).

(** The phasor [z] has phase [deg] degrees. *)
Definition phase_is (z : C) (deg : R) : Prop :=
  fst z = Cabs z * cos (radians deg) /\ snd z = Cabs z * sin (radians deg).

(** The label commands of a trace. *)
Definition is_label (c : femm_cmd) : bool :=
  match c with
  | mi_addblocklabel _ _ => true
  | _ => false
  end.

(** A solved field that vanishes everywhere. *)
Definition null_b : Z -> Z -> C * C := fun _ _ => ((0, 0), (0, 0)).
Definition null_j : Z -> Z -> C := fun _ _ => (0, 0).

(** The script's cable buried 300 mm deep: less than the fine-mesh
    half-width. *)
Definition shallow_config : config := with_burial_depth 300 Main_config.

(** The script's cable with a bedding thickness of -25 mm. *)
Definition thin_config : config := with_bedding (-25) Main_config.

(** The script's cable with armour wires of radius 8.3 mm. *)
Definition thick_wire_config : config := with_r_armour 8.3 Main_config.

(** ** Further notions: labels, materials, circles *)

(** The configuration [cfg] with [r_armour_2 = v]. *)
Definition with_r_armour_2 (v : R) (cfg : config) : config := {|
  A_cond := A_cond cfg;
  cond_screen := cond_screen cfg;
  insulation := insulation cfg;
  insul_screen_NM := insul_screen_NM cfg;
  insul_screen_ME := insul_screen_ME cfg;
  bedding := bedding cfg;
  r_armour := r_armour cfg;
  r_armour_2 := v;
  over_sheath := over_sheath cfg;
  AMPS_RMS := AMPS_RMS cfg;
  freq := freq cfg;
  burial_depth := burial_depth cfg;
  copper_conductivity := copper_conductivity cfg;
  copper_permeability := copper_permeability cfg;
  XLPE_conductivity := XLPE_conductivity cfg;
  XLPE_permeability := XLPE_permeability cfg;
  NM_screen_conductivity := NM_screen_conductivity cfg;
  NM_screen_permeability := NM_screen_permeability cfg;
  M_screen_conductivity := M_screen_conductivity cfg;
  M_screen_permeability := M_screen_permeability cfg;
  inner_conductivity := inner_conductivity cfg;
  inner_permeability := inner_permeability cfg;
  bedding_conductivity := bedding_conductivity cfg;
  bedding_permeability := bedding_permeability cfg;
  armour_conductivity := armour_conductivity cfg;
  armour_permeability := armour_permeability cfg;
  over_conductivity := over_conductivity cfg;
  over_permeability := over_permeability cfg;
  seawater_conductivity := seawater_conductivity cfg;
  seawater_permeability := seawater_permeability cfg;
  seabed_conductivity := seabed_conductivity cfg;
  seabed_permeability := seabed_permeability cfg
|}.

(** The script's cable with armour wires of radius -1 mm. *)
Definition negative_wire_config : config := with_r_armour (-1) Main_config.

(** The script's cable with a second armour layer of wire radius -30 mm. *)
Definition negative_layer_config : config := with_r_armour_2 (-30) Main_config.

(** The script's cable with a second armour layer of 2 mm wires. *)
Definition two_layer_config : config := with_r_armour_2 2 Main_config.

(** The points at which a trace adds a block label, in order. *)
Definition label_points (t : list femm_cmd) : list (R * R) :=
  flat_map (fun c => match c with
                     | mi_addblocklabel x y => [(x, y)]
                     | _ => []
                     end) t.

(** The points a trace selects, in order. *)
Definition selected_points (t : list femm_cmd) : list (R * R) :=
  flat_map (fun c => match c with
                     | mi_selectlabel x y => [(x, y)]
                     | _ => []
                     end) t.

(** The names of the materials and of the circuits a trace registers. *)
Definition registered_materials (t : list femm_cmd) : list string :=
  flat_map (fun c => match c with
                     | mi_addmaterial name _ _ _ => [name]
                     | _ => []
                     end) t.

Definition registered_circuits (t : list femm_cmd) : list string :=
  flat_map (fun c => match c with
                     | mi_addcircprop name _ _ => [name]
                     | _ => []
                     end) t.

Definition mem_string (s : string) (l : list string) : bool :=
  existsb (String.eqb s) l.

(** A block property is well named for the materials [ms] and circuits [cs]
    when its material is one of [ms] and its circuit is ['<None>'] or one of
    [cs]; other commands are. *)
Definition well_named (ms cs : list string) (c : femm_cmd) : bool :=
  match c with
  | mi_setblockprop name _ circ =>
      mem_string name ms && (String.eqb circ "<None>" || mem_string circ cs)
  | _ => true
  end.

(** Two arcs of 180 degrees, the second running back from the end of the
    first to its start, close the circle of centre [c] and radius [r] that
    has their common chord as a diameter. *)
Definition closes_circle (c : R * R) (r : R) (arcs : femm_cmd * femm_cmd)
  : Prop :=
  exists x1 y1 x2 y2 maxseg,
    fst arcs = mi_drawarc x1 y1 x2 y2 180 maxseg
    /\ snd arcs = mi_drawarc x2 y2 x1 y1 180 maxseg
    /\ ((x1 + x2) / 2, (y1 + y2) / 2) = c
    /\ distance (x1, y1) c = r
    /\ distance (x2, y2) c = r.

(** The arcs of a block, two by two in the order drawn. *)
Fixpoint arc_pairs (l : list femm_cmd) : list (femm_cmd * femm_cmd) :=
  match l with
  | [] => []
  | c1 :: l1 =>
      match c1, l1 with
      | mi_drawarc _ _ _ _ _ _, (mi_drawarc _ _ _ _ _ _ as c2) :: l2 =>
          (c1, c2) :: arc_pairs l2
      | _, _ => arc_pairs l1
      end
  end.

(** The radius at which the label of each conductor layer is put: the outer
    radius of the layer less half its thickness. *)
Definition layer_label_radii (cfg : config) : list R :=
  [ r_cond_screen cfg - 0.5 * cond_screen cfg;
    r_cond_insul cfg - 0.5 * insulation cfg;
    r_cond_insu_screen_NM cfg - 0.5 * insul_screen_NM cfg;
    r_cond_total cfg - 0.5 * insul_screen_ME cfg ].

(** Height of the top of the conductor bundle above the cable axis: the
    expression from which the script draws the bedding. *)
Definition bundle_top (cfg : config) : R :=
  cond_center cfg * sin60 + r_cond_total cfg - delta_y_triangle cfg.

(** The label radius [m] of a layer of thickness [t] between the radii
    [inner] and [outer] is the mean radius of the layer: strictly inside it
    exactly when the thickness is positive, on both circles when it is 0. *)
Definition label_in_layer (inner outer t m : R) : Prop :=
  outer - inner = t
  /\ m = (inner + outer) / 2
  /\ (0 < t <-> inner < m < outer)
  /\ (t = 0 -> m = inner /\ m = outer).

(** Two lists hold the same points. *)
Definition same_points (l1 l2 : list (R * R)) : Prop :=
  forall p, In p l1 <-> In p l2.

(** No command of the trace invokes the solver. *)
Definition never_solves (t : list femm_cmd) : Prop :=
  Forall (fun c => is_solve c = false) t.

(** A script that, when it returns, returns [result] after a trace that ends
    with the analysis commands and does not invoke the solver before them,
    and that, when it raises, has not invoked the solver. *)
Definition solves_last {A : Type} (result : A) (m : script A) : Prop :=
  match outcome m with
  | inr r =>
      r = result
      /\ exists pre, trace m = (pre ++ analysis)%list /\ never_solves pre
  | inl _ => never_solves (trace m)
  end.

(** A command that registers the material [name] gives it the conductivity
    [sigma]; any other command does. *)
Definition registers_with (name : string) (sigma : R) (c : femm_cmd)
  : Prop :=
  match c with
  | mi_addmaterial n _ _ s => n = name -> s = sigma
  | _ => True
  end.

(** Inputs of moderate size: a conductor area between 0 and 10^12 mm^2, and
    layer thicknesses, bedding, wire radii and over sheath between 0 and
    10^6 mm.  Every intermediate value of the script is then finite and
    below 10^10 in binary64 as in exact arithmetic. *)
Definition moderate_inputs (cfg : config) : Prop :=
  0 <= A_cond cfg <= 10 ^ 12
  /\ Forall (fun t => 0 <= t <= 10 ^ 6) (layer_thicknesses cfg)
  /\ 0 <= bedding cfg <= 10 ^ 6
  /\ 0 <= r_armour cfg <= 10 ^ 6
  /\ 0 <= r_armour_2 cfg <= 10 ^ 6
  /\ 0 <= over_sheath cfg <= 10 ^ 6.

(** The two arcs close a circle that lies within [rho] of the cable axis. *)
Definition circle_within (rho : R) (arcs : femm_cmd * femm_cmd) : Prop :=
  exists c r, closes_circle c r arcs /\ distance (0, 0) c + r <= rho.

(** The circles the script draws for the cable itself: the conductor
    layers and the bedding, and the over sheath of the armour layout in
    use. *)
Definition cable_circles (cfg : config) : list (femm_cmd * femm_cmd) :=
  (arc_pairs (conductor_1 cfg) ++ arc_pairs (conductor_2 cfg)
   ++ arc_pairs (conductor_3 cfg) ++ arc_pairs (bedding_geometry cfg)
   ++ arc_pairs (if Req_dec_T (r_armour_2 cfg) 0 then over_sheath_1 cfg
                 else over_sheath_2 cfg))%list.

(** * Properties *)

(** ** Numeric facts *)

Lemma PI_bounds : 3.1415 < PI < 3.1421.
Proof.
  pose proof (PI_2_3_7_ineq 1) as [Hlo Hhi].
  unfold PI_2_3_7_tg, tg_alt, Ratan_seq in Hlo, Hhi.
  simpl in Hlo, Hhi.
  split; lra.
Qed.

Lemma sqrt_between (x a b : R) :
  0 <= a -> 0 <= b -> a * a < x -> x < b * b -> a < sqrt x < b.
Proof.
  intros Ha Hb Hlo Hhi.
  assert (Hx : 0 <= x) by nra.
  pose proof (sqrt_pos x) as Hs.
  pose proof (sqrt_sqrt x Hx) as Hss.
  split; nra.
Qed.

Lemma sqrt3_bounds : 1.732 < sqrt 3 < 1.7321.
Proof. apply sqrt_between; lra. Qed.

Lemma sqrt3_sqr : sqrt 3 * sqrt 3 = 3.
Proof. apply sqrt_sqrt; lra. Qed.

Lemma radians_60 : radians 60 = PI / 3.
Proof. unfold radians; lra. Qed.

Lemma cos60_half : cos60 = 1 / 2.
Proof. unfold cos60; rewrite radians_60; apply cos_PI3. Qed.

Lemma sin60_sqrt3 : sin60 = sqrt 3 / 2.
Proof. unfold sin60; rewrite radians_60; apply sin_PI3. Qed.

Lemma Zfloor_spec (x : R) (z : Z) : IZR z <= x < IZR z + 1 -> Zfloor x = z.
Proof. apply Zfloor_eq. Qed.

Lemma py_int_eq (x : R) (z : Z) :
  (0 <= z)%Z -> IZR z <= x < IZR z + 1 -> py_int x = z.
Proof.
  intros Hz Hx. unfold py_int.
  destruct (Rle_dec 0 x) as [_ | Hneg].
  - now apply Zfloor_eq.
  - exfalso. apply Hneg. apply IZR_le in Hz. lra.
Qed.

(** ** Layer radii *)

Lemma cumulative_radii_length (ts : list R) :
  forall r0, List.length (cumulative_radii r0 ts) = List.length ts.
Proof.
  induction ts as [| t ts IH]; intro r0; simpl.
  - reflexivity.
  - now rewrite IH.
Qed.

Lemma Rsum_cons (x : R) (l : list R) : Rsum (x :: l) = x + Rsum l.
Proof. reflexivity. Qed.

Lemma cumulative_radii_nth (ts : list R) :
  forall r0 k, (k < List.length ts)%nat ->
    nth k (cumulative_radii r0 ts) 0 = r0 + Rsum (firstn (S k) ts).
Proof.
  induction ts as [| t ts IH]; intros r0 k Hk; simpl in Hk.
  - lia.
  - destruct k as [| k].
    + simpl. destruct ts; simpl; lra.
    + change (nth (S k) (cumulative_radii r0 (t :: ts)) 0)
        with (nth k (cumulative_radii (r0 + t) ts) 0).
      rewrite IH by lia.
      change (firstn (S (S k)) (t :: ts)) with (t :: firstn (S k) ts).
      rewrite Rsum_cons. lra.
Qed.

Lemma cumulative_radii_nondecreasing (ts : list R) :
  forall r0, Forall (fun t => 0 <= t) ts ->
    nondecreasing (r0 :: cumulative_radii r0 ts).
Proof.
  induction ts as [| t ts IH]; intros r0 Hts.
  - exact I.
  - inversion Hts as [| ? ? Ht Hts']; subst.
    split.
    + lra.
    + apply IH; assumption.
Qed.

(** C7.  For a positive conductor area and non-negative layer thicknesses,
    the base radius is [sqrt (A_cond / PI)], the radii the script derives are
    the cumulative radii [r0 + t1 + ... + tk] of the specification's
    calculator, they are non-decreasing from the base radius on, and there is
    one radius per thickness.  The calculator itself has these properties for
    every list of non-negative thicknesses. *)
Theorem layer_radii_cumulative (cfg : config) :
  0 < A_cond cfg ->
  Forall (fun t => 0 <= t) (layer_thicknesses cfg) ->
  (r_cond cfg = sqrt (A_cond cfg / PI) /\ 0 < r_cond cfg)
  /\ layer_radii cfg = cumulative_radii (r_cond cfg) (layer_thicknesses cfg)
  /\ (forall k, (k < List.length (layer_thicknesses cfg))%nat ->
        nth k (layer_radii cfg) 0
        = r_cond cfg + Rsum (firstn (S k) (layer_thicknesses cfg)))
  /\ nondecreasing (r_cond cfg :: layer_radii cfg)
  /\ List.length (layer_radii cfg) = List.length (layer_thicknesses cfg)
  /\ (forall r0 ts, Forall (fun t => 0 <= t) ts ->
        List.length (cumulative_radii r0 ts) = List.length ts
        /\ nondecreasing (r0 :: cumulative_radii r0 ts)
        /\ forall k, (k < List.length ts)%nat ->
             nth k (cumulative_radii r0 ts) 0 = r0 + Rsum (firstn (S k) ts)).
Proof.
  intros HA Hts.
  assert (Heq : layer_radii cfg
                = cumulative_radii (r_cond cfg) (layer_thicknesses cfg)).
  { unfold layer_radii, layer_thicknesses, r_cond_screen, r_cond_insul,
      r_cond_insu_screen_NM, r_cond_total. simpl. reflexivity. }
  split.
  { split; [reflexivity |].
    unfold r_cond. apply sqrt_lt_R0.
    apply Rdiv_lt_0_compat; [assumption | apply PI_RGT_0]. }
  split; [exact Heq |].
  split.
  { intros k Hk. rewrite Heq. now apply cumulative_radii_nth. }
  split.
  { rewrite Heq. now apply cumulative_radii_nondecreasing. }
  split.
  { reflexivity. }
  intros r0 ts Hnn.
  split; [apply cumulative_radii_length |].
  split; [now apply cumulative_radii_nondecreasing |].
  intros k Hk. now apply cumulative_radii_nth.
Qed.

Lemma layer_radii_cumulative_witness :
  nondecreasing (r_cond Main_config :: layer_radii Main_config)
  /\ List.length (layer_radii Main_config) = 4%nat.
Proof.
  assert (HA : 0 < A_cond Main_config) by (simpl; lra).
  assert (Hts : Forall (fun t => 0 <= t) (layer_thicknesses Main_config)).
  { unfold layer_thicknesses; simpl. repeat constructor; lra. }
  destruct (layer_radii_cumulative Main_config HA Hts)
    as (_ & _ & _ & Hmono & Hlen & _).
  split; [exact Hmono | exact Hlen].
Defined.

(** ** The conductor bundle *)

Lemma distance_sqr (p q : R * R) (d : R) :
  0 <= d ->
  (fst p - fst q) ^ 2 + (snd p - snd q) ^ 2 = d * d ->
  distance p q = d.
Proof.
  intros Hd Heq. unfold distance. rewrite Heq. now apply sqrt_square.
Qed.

Lemma delta_y_triangle_apothem (cfg : config) :
  delta_y_triangle cfg = cond_center cfg * sqrt 3 / 6.
Proof. unfold delta_y_triangle; lra. Qed.

(** C6.  Whatever the positive centre spacing [d] of a configuration, the
    three conductor centres are pairwise at distance exactly [d]: they are
    the vertices of an equilateral triangle of side [d], whose apothem is
    [d * sqrt 3 / 6], whose base lies that far below the cable axis and whose
    centroid is the axis.  The copper cores are labelled at these centres. *)
Theorem conductor_centers_equilateral (cfg : config) (d : R) :
  cond_center cfg = d ->
  0 < d ->
  conductor_1_center cfg = (d * cos (radians 60), - (d * sqrt 3 / 6))
  /\ conductor_2_center cfg = (0, d * sin (radians 60) - d * sqrt 3 / 6)
  /\ conductor_3_center cfg = (- d * cos (radians 60), - (d * sqrt 3 / 6))
  /\ distance (conductor_1_center cfg) (conductor_2_center cfg) = d
  /\ distance (conductor_2_center cfg) (conductor_3_center cfg) = d
  /\ distance (conductor_1_center cfg) (conductor_3_center cfg) = d
  /\ delta_y_triangle cfg = d * sqrt 3 / 6
  /\ (fst (conductor_1_center cfg) + fst (conductor_2_center cfg)
      + fst (conductor_3_center cfg) = 0
      /\ snd (conductor_1_center cfg) + snd (conductor_2_center cfg)
         + snd (conductor_3_center cfg) = 0)
  /\ (hd_error (conductor_1 cfg)
        = Some (mi_addblocklabel (fst (conductor_1_center cfg))
                                 (snd (conductor_1_center cfg)))
      /\ hd_error (conductor_2 cfg)
        = Some (mi_addblocklabel (fst (conductor_2_center cfg))
                                 (snd (conductor_2_center cfg)))
      /\ hd_error (conductor_3 cfg)
        = Some (mi_addblocklabel (fst (conductor_3_center cfg))
                                 (snd (conductor_3_center cfg)))).
Proof.
  intros Hd Hpos.
  pose proof sqrt3_sqr as H3.
  pose proof (delta_y_triangle_apothem cfg) as Hdelta. rewrite Hd in Hdelta.
  assert (Hc1 : conductor_1_center cfg = (d * (1 / 2), - (d * sqrt 3 / 6))).
  { unfold conductor_1_center. now rewrite Hdelta, Hd, cos60_half. }
  assert (Hc2 : conductor_2_center cfg
                = (0, d * (sqrt 3 / 2) - d * sqrt 3 / 6)).
  { unfold conductor_2_center. now rewrite Hdelta, Hd, sin60_sqrt3. }
  assert (Hc3 : conductor_3_center cfg = (- d * (1 / 2), - (d * sqrt 3 / 6))).
  { unfold conductor_3_center. now rewrite Hdelta, Hd, cos60_half. }
  split.
  { unfold conductor_1_center, cos60. now rewrite Hdelta, Hd. }
  split.
  { unfold conductor_2_center, sin60. now rewrite Hdelta, Hd. }
  split.
  { unfold conductor_3_center, cos60. now rewrite Hdelta, Hd. }
  split.
  { rewrite Hc1, Hc2. apply distance_sqr; [lra |]. simpl fst; simpl snd. nra. }
  split.
  { rewrite Hc2, Hc3. apply distance_sqr; [lra |]. simpl fst; simpl snd. nra. }
  split.
  { rewrite Hc1, Hc3. apply distance_sqr; [lra |]. simpl fst; simpl snd. nra. }
  split; [exact Hdelta |].
  split.
  { rewrite Hc1, Hc2, Hc3. simpl fst; simpl snd. split; lra. }
  repeat split; reflexivity.
Qed.

Lemma conductor_centers_equilateral_witness :
  cond_center Main_config = cond_center Main_config
  /\ 0 < cond_center Main_config
  /\ distance (conductor_1_center Main_config) (conductor_2_center Main_config)
     = cond_center Main_config.
Proof.
  assert (Hpos : 0 < cond_center Main_config).
  { unfold cond_center, r_cond_total, r_cond, cond_surf; simpl.
    pose proof (sqrt_pos (50 / PI)). lra. }
  split; [reflexivity |].
  split; [exact Hpos |].
  destruct (conductor_centers_equilateral Main_config
              (cond_center Main_config) eq_refl Hpos)
    as (_ & _ & _ & H12 & _).
  exact H12.
Defined.

(** ** The armour ring packer *)

Lemma armour_count_bounds (R_ring r_wire gap : R) :
  0 < 2 * r_wire + gap ->
  IZR (armour_count R_ring r_wire gap) * (2 * r_wire + gap)
    <= 2 * PI * R_ring
    < (IZR (armour_count R_ring r_wire gap) + 1) * (2 * r_wire + gap).
Proof.
  intro Hden. unfold armour_count, armour_perimeter.
  set (q := 2 * PI * R_ring / (2 * r_wire + gap)).
  assert (Hq : 2 * PI * R_ring = q * (2 * r_wire + gap)).
  { unfold q. field. lra. }
  destruct (Zfloor_bound q) as [Hlo Hhi].
  rewrite Hq. split.
  - apply Rmult_le_compat_r; lra.
  - apply Rmult_lt_compat_r; lra.
Qed.

Lemma armour_count_eq (R_ring r_wire gap : R) (N : Z) :
  0 < 2 * r_wire + gap ->
  IZR N * (2 * r_wire + gap) <= 2 * PI * R_ring
    < (IZR N + 1) * (2 * r_wire + gap) ->
  armour_count R_ring r_wire gap = N.
Proof.
  intros Hden [Hlo Hhi]. unfold armour_count, armour_perimeter.
  apply Zfloor_eq. split.
  - apply Rmult_le_reg_r with (2 * r_wire + gap); [assumption |].
    replace (2 * PI * R_ring / (2 * r_wire + gap) * (2 * r_wire + gap))
      with (2 * PI * R_ring) by (field; lra).
    assumption.
  - apply Rmult_lt_reg_r with (2 * r_wire + gap); [assumption |].
    replace (2 * PI * R_ring / (2 * r_wire + gap) * (2 * r_wire + gap))
      with (2 * PI * R_ring) by (field; lra).
    assumption.
Qed.

Lemma count_step_defined (R_ring r_wire gap : R) :
  2 * r_wire + gap <> 0 ->
  count_step R_ring r_wire gap = ret (armour_count R_ring r_wire gap).
Proof.
  intro Hden. unfold count_step.
  destruct (Req_dec_T (2 * r_wire + gap) 0) as [H0 | _]; [contradiction |].
  reflexivity.
Qed.

(** *** Exact and binary64 counts *)

Lemma PI_tight : 3.14159265358979323846 < PI < 3.14159265358979323847.
Proof.
  pose proof (PI_2_3_7_ineq 10) as [Hlo Hhi].
  unfold PI_2_3_7_tg, tg_alt, Ratan_seq in Hlo, Hhi.
  simpl in Hlo, Hhi.
  split; lra.
Qed.

Lemma powerRZ_2_pos (p : positive) : powerRZ 2 (Z.pos p) = IZR (2 ^ Z.pos p).
Proof.
  unfold powerRZ. rewrite pow_IZR. rewrite positive_nat_Z. reflexivity.
Qed.

Lemma powerRZ_2_neg (p : positive) :
  powerRZ 2 (Z.neg p) = / IZR (2 ^ Z.pos p).
Proof.
  unfold powerRZ. rewrite pow_IZR. rewrite positive_nat_Z. reflexivity.
Qed.

Lemma float_to_R_finite (x : float) (s : bool) (m p : positive) :
  Prim2SF x = S754_finite s m (Z.neg p) ->
  Binary64.float_to_R x
  = IZR (if s then Z.neg m else Z.pos m) / IZR (2 ^ Z.pos p).
Proof.
  intro H. unfold Binary64.float_to_R. rewrite H, powerRZ_2_neg. reflexivity.
Qed.

(** [int(sp.floor(x))] is the floor of the real number the double [x]
    stands for. *)
Lemma float_floor_bounds (x : float) (N : Z) :
  Binary64.float_floor x = inr N ->
  IZR N <= Binary64.float_to_R x < IZR N + 1.
Proof.
  unfold Binary64.float_floor, Binary64.float_to_R.
  destruct (Prim2SF x) as [s | s | | s m e]; try discriminate.
  - intro H. injection H as <-. lra.
  - intro H. injection H as <-.
    set (z := if s then Z.neg m else Z.pos m).
    destruct e as [ | p | p ].
    + change (0 <=? 0)%Z with true. cbv iota. simpl powerRZ.
      rewrite Z.pow_0_r, Z.mul_1_r. lra.
    + change (0 <=? Z.pos p)%Z with true. cbv iota.
      rewrite powerRZ_2_pos, <- mult_IZR. lra.
    + change (0 <=? Z.neg p)%Z with false. cbv iota.
      change (- Z.neg p)%Z with (Z.pos p).
      rewrite powerRZ_2_neg.
      assert (Hpos : (0 < 2 ^ Z.pos p)%Z) by (apply Z.pow_pos_nonneg; lia).
      pose proof (Z.div_mod z (2 ^ Z.pos p) ltac:(lia)) as Hdm.
      pose proof (Z.mod_pos_bound z (2 ^ Z.pos p) Hpos) as [Hm0 Hm1].
      set (d := (2 ^ Z.pos p)%Z) in *.
      set (q := (z / d)%Z) in *. set (r := (z mod d)%Z) in *.
      assert (HdR : 0 < IZR d) by (apply IZR_lt; exact Hpos).
      assert (Hz : IZR z = IZR d * IZR q + IZR r).
      { rewrite Hdm at 1. rewrite plus_IZR, mult_IZR. reflexivity. }
      apply IZR_le in Hm0. apply IZR_lt in Hm1.
      rewrite Hz. split.
      * apply Rmult_le_reg_r with (IZR d); [exact HdR |].
        field_simplify; [| lra]. nra.
      * apply Rmult_lt_reg_r with (IZR d); [exact HdR |].
        field_simplify; [| lra]. nra.
Qed.

Lemma float_floor_Zfloor (x : float) (N : Z) :
  Binary64.float_floor x = inr N -> N = Zfloor (Binary64.float_to_R x).
Proof.
  intro H. symmetry. apply Zfloor_eq. now apply float_floor_bounds.
Qed.

Lemma float_floor_raises (x : float) (e : py_error) :
  Binary64.float_floor x = inl e ->
  (e = OverflowError /\ exists s, Prim2SF x = S754_infinity s)
  \/ (e = ValueError /\ Prim2SF x = S754_nan).
Proof.
  unfold Binary64.float_floor.
  destruct (Prim2SF x) as [s | s | | s m ex]; try discriminate.
  - intro H. injection H as <-. left. split; [reflexivity |]. now exists s.
  - intro H. injection H as <-. right. split; reflexivity.
Qed.

(** The three doubles of [tight_ring], as fractions. *)
Lemma tight_ring_values :
  let '(R_ring, r_wire, gap) := tight_ring in
  Binary64.float_to_R R_ring = 5912009730806361 / 281474976710656
  /\ Binary64.float_to_R r_wire = 6935543426150564 / 9007199254740992
  /\ Binary64.float_to_R gap = 7205759403792794 / 144115188075855872.
Proof.
  cbv beta iota delta [tight_ring].
  repeat split.
  - rewrite (float_to_R_finite _ false 5912009730806361 48) by reflexivity.
    reflexivity.
  - rewrite (float_to_R_finite _ false 6935543426150564 53) by reflexivity.
    reflexivity.
  - rewrite (float_to_R_finite _ false 7205759403792794 57) by reflexivity.
    reflexivity.
Qed.

(** In exact arithmetic the tight ring holds 82 wires: 83 pitches are longer
    than its perimeter. *)
Lemma tight_ring_exact :
  let '(R_ring, r_wire, gap) := tight_ring in
  armour_count (Binary64.float_to_R R_ring) (Binary64.float_to_R r_wire)
    (Binary64.float_to_R gap) = 82%Z
  /\ 2 * PI * Binary64.float_to_R R_ring
     < 83 * (2 * Binary64.float_to_R r_wire + Binary64.float_to_R gap).
Proof.
  pose proof tight_ring_values as H.
  cbv beta iota delta [tight_ring] in H |- *.
  destruct H as (HR & Hr & Hg). rewrite HR, Hr, Hg.
  pose proof PI_tight as [Hlo Hhi].
  split; [| lra].
  unfold armour_count, armour_perimeter.
  set (q := 2 * PI * _ / _).
  assert (Hq : q * (2 * (6935543426150564 / 9007199254740992)
                    + 7205759403792794 / 144115188075855872)
               = 2 * PI * (5912009730806361 / 281474976710656)).
  { unfold q. field. }
  apply Zfloor_eq. split; lra.
Qed.

(** C2 (corrected).  The packer of the script computes in binary64: when it
    returns a count [N], [N] is the floor of the binary64 quotient [q] of
    the rounded perimeter by the rounded pitch, [N <= q < N + 1]; it raises
    [OverflowError] only when that quotient is infinite (as for a ring of
    radius 1e308 mm, whose perimeter overflows) and [ValueError] only when
    it is [nan], and raises nothing else.  In exact arithmetic, for positive
    [R], [r_w] and [g], the count [N = floor (2 * PI * R / (2 * r_w + g))]
    is not negative and satisfies
    [N * (2 * r_w + g) <= 2 * PI * R < (N + 1) * (2 * r_w + g)].  Both
    armour layers of the script take their count from the same
    expression. *)
Theorem packer_floors_binary64_quotient :
  (forall R_armour r_armour space N,
     Binary64.NbrOfArmourElem R_armour r_armour space = inr N ->
     N = Zfloor (Binary64.float_to_R
                   (Binary64.quotient R_armour r_armour space))
     /\ IZR N
          <= Binary64.float_to_R (Binary64.quotient R_armour r_armour space)
          < IZR N + 1)
  /\ (forall R_armour r_armour space e,
        Binary64.NbrOfArmourElem R_armour r_armour space = inl e ->
        (e = OverflowError
         /\ exists s, Prim2SF (Binary64.quotient R_armour r_armour space)
                      = S754_infinity s)
        \/ (e = ValueError
            /\ Prim2SF (Binary64.quotient R_armour r_armour space)
               = S754_nan))
  /\ (let '(R_armour, r_armour, space) := huge_ring in
      Binary64.NbrOfArmourElem R_armour r_armour space = inl OverflowError)
  /\ (forall R_ring r_wire gap : R,
        0 < R_ring -> 0 < r_wire -> 0 < gap ->
        armour_count R_ring r_wire gap
        = Zfloor ((2 * PI * R_ring) / (2 * r_wire + gap))
        /\ (0 <= armour_count R_ring r_wire gap)%Z
        /\ IZR (armour_count R_ring r_wire gap) * (2 * r_wire + gap)
             <= 2 * PI * R_ring
             < (IZR (armour_count R_ring r_wire gap) + 1)
               * (2 * r_wire + gap))
  /\ (forall cfg,
        NbrOfArmourElem cfg = armour_count (R_armour cfg) (r_armour cfg) 0.05
        /\ NbrOfArmourElem2 cfg
           = armour_count (R_armour_2 cfg) (r_armour_2 cfg) 0.05).
Proof.
  split.
  { intros R_armour r_armour space N H. unfold Binary64.NbrOfArmourElem in H.
    split; [now apply float_floor_Zfloor | now apply float_floor_bounds]. }
  split.
  { intros R_armour r_armour space e H. unfold Binary64.NbrOfArmourElem in H.
    now apply float_floor_raises. }
  split; [vm_compute; reflexivity |].
  split.
  { intros R_ring r_wire gap HR Hr Hg.
    pose proof (armour_count_bounds R_ring r_wire gap ltac:(lra)) as Hb.
    split; [reflexivity |].
    split; [| exact Hb].
    pose proof PI_RGT_0 as Hpi.
    apply Z.lt_succ_r, lt_IZR. rewrite succ_IZR.
    apply Rmult_lt_reg_r with (2 * r_wire + gap); [lra |].
    assert (0 < 2 * PI * R_ring) by nra. lra. }
  intro cfg. split; reflexivity.
Qed.

(** C2, as stated, fails: for the ring of radius 21.003677839837426 mm with
    wires of radius 0.77 mm and a gap of 0.05 mm, all three positive, the
    packer returns 83, while the floor of the exact quotient is 82 and 83
    pitches are longer than the perimeter. *)
Lemma packer_count_not_exact_floor :
  let '(R_ring, r_wire, gap) := tight_ring in
  0 < Binary64.float_to_R R_ring
  /\ 0 < Binary64.float_to_R r_wire
  /\ 0 < Binary64.float_to_R gap
  /\ Binary64.NbrOfArmourElem R_ring r_wire gap = inr 83%Z
  /\ Zfloor ((2 * PI * Binary64.float_to_R R_ring)
             / (2 * Binary64.float_to_R r_wire + Binary64.float_to_R gap))
     = 82%Z
  /\ ~ (83 * (2 * Binary64.float_to_R r_wire + Binary64.float_to_R gap)
        <= 2 * PI * Binary64.float_to_R R_ring).
Proof.
  pose proof tight_ring_values as Hv. pose proof tight_ring_exact as He.
  cbv beta iota delta [tight_ring] in Hv, He |- *.
  destruct Hv as (HR & Hr & Hg). destruct He as (H82 & Hlt).
  split; [rewrite HR; lra |].
  split; [rewrite Hr; lra |].
  split; [rewrite Hg; lra |].
  split; [vm_compute; reflexivity |].
  split; [exact H82 |].
  lra.
Qed.

(** ** The three phase currents *)

Lemma AMPS_pos (cfg : config) : 0 < AMPS_RMS cfg -> 0 < AMPS cfg.
Proof.
  intro H. unfold AMPS. apply Rmult_lt_0_compat; [apply Rlt_sqrt2_0 | exact H].
Qed.

Lemma sqrt_scaled (k a : R) : 0 <= k -> 0 <= a -> sqrt (k * (a * a)) = sqrt k * a.
Proof.
  intros Hk Ha. rewrite sqrt_mult by nra. now rewrite sqrt_square.
Qed.

Lemma Cabs_icoil1 (cfg : config) : 0 < AMPS_RMS cfg -> Cabs (icoil1 cfg) = AMPS cfg.
Proof.
  intro H. apply AMPS_pos in H. unfold Cabs, icoil1. simpl fst; simpl snd.
  replace (AMPS cfg ^ 2 + 0 ^ 2) with (AMPS cfg * AMPS cfg) by ring.
  apply sqrt_square. lra.
Qed.

Lemma Cabs_icoil2 (cfg : config) :
  0 < AMPS_RMS cfg -> Cabs (icoil2 cfg) = sqrt 0.999956 * AMPS cfg.
Proof.
  intro H. apply AMPS_pos in H. unfold Cabs, icoil2. simpl fst; simpl snd.
  replace ((-0.5 * AMPS cfg) ^ 2 + (AMPS cfg * 0.866) ^ 2)
    with (0.999956 * (AMPS cfg * AMPS cfg)) by (simpl; lra).
  apply sqrt_scaled; lra.
Qed.

Lemma Cabs_icoil3 (cfg : config) :
  0 < AMPS_RMS cfg -> Cabs (icoil3 cfg) = sqrt 0.999956 * AMPS cfg.
Proof.
  intro H. apply AMPS_pos in H. unfold Cabs, icoil3. simpl fst; simpl snd.
  replace ((-0.5 * AMPS cfg) ^ 2 + (- (AMPS cfg * 0.866)) ^ 2)
    with (0.999956 * (AMPS cfg * AMPS cfg)) by (simpl; lra).
  apply sqrt_scaled; lra.
Qed.

Lemma sqrt_0999956_bounds : 0.999977 < sqrt 0.999956 < 0.999979.
Proof. apply sqrt_between; lra. Qed.

(** C5, as the script has it.  For a positive RMS current the three phasors
    sum to zero exactly, and the second and third are mirror images with the
    same magnitude; but the constant [0.866] stands for [sqrt 3 / 2], so
    their magnitude is [sqrt 0.999956] times that of the first: smaller by
    about 2.2e-5 of it, far more than rounding.  The first phasor lies on the
    positive real axis (phase 0), the second in the upper half plane and the
    third in the lower one, on the lines of slope [-1.732] and [1.732], close
    to +120 and -120 degrees. *)
Theorem phasors_sum_zero_magnitudes_close (cfg : config) :
  0 < AMPS_RMS cfg ->
  Cadd (Cadd (icoil1 cfg) (icoil2 cfg)) (icoil3 cfg) = (0, 0)
  /\ Cabs (icoil1 cfg) = AMPS cfg
  /\ Cabs (icoil2 cfg) = sqrt 0.999956 * AMPS cfg
  /\ Cabs (icoil3 cfg) = Cabs (icoil2 cfg)
  /\ 2.1e-5 * Cabs (icoil1 cfg) < Cabs (icoil1 cfg) - Cabs (icoil2 cfg)
       < 2.3e-5 * Cabs (icoil1 cfg)
  /\ phase_is (icoil1 cfg) 0
  /\ (fst (icoil2 cfg) < 0 /\ 0 < snd (icoil2 cfg)
      /\ snd (icoil2 cfg) = -1.732 * fst (icoil2 cfg))
  /\ (fst (icoil3 cfg) < 0 /\ snd (icoil3 cfg) < 0
      /\ snd (icoil3 cfg) = 1.732 * fst (icoil3 cfg)).
Proof.
  intro H.
  pose proof (AMPS_pos cfg H) as HA.
  pose proof sqrt_0999956_bounds as [Hlo Hhi].
  rewrite (Cabs_icoil3 cfg H), (Cabs_icoil2 cfg H), (Cabs_icoil1 cfg H).
  split.
  { unfold Cadd, icoil1, icoil2, icoil3. simpl fst; simpl snd.
    f_equal; lra. }
  split; [reflexivity |].
  split; [reflexivity |].
  split; [reflexivity |].
  split; [split; nra |].
  split.
  { unfold phase_is. rewrite (Cabs_icoil1 cfg H). unfold radians, icoil1.
    simpl fst; simpl snd.
    replace (0 * PI / 180) with 0 by lra. rewrite cos_0, sin_0. split; lra. }
  unfold icoil2, icoil3. simpl fst; simpl snd.
  repeat split; lra.
Qed.

Lemma phasors_sum_zero_magnitudes_close_witness :
  0 < AMPS_RMS Main_config
  /\ Cadd (Cadd (icoil1 Main_config) (icoil2 Main_config)) (icoil3 Main_config)
     = (0, 0).
Proof.
  assert (H : 0 < AMPS_RMS Main_config) by (simpl; lra).
  split; [exact H |].
  destruct (phasors_sum_zero_magnitudes_close Main_config H) as (Hsum & _).
  exact Hsum.
Defined.

(** C5, as stated, fails for the script's current: the magnitudes of the
    first and second phasors are not equal up to rounding, and the second
    phasor, listed with -120 degrees, does not have that phase. *)
Lemma phasors_not_equal_magnitude :
  ~ isclose (Cabs (icoil1 Main_config)) (Cabs (icoil2 Main_config))
  /\ ~ phase_is (icoil2 Main_config) (-120).
Proof.
  assert (H : 0 < AMPS_RMS Main_config) by (simpl; lra).
  pose proof (AMPS_pos Main_config H) as HA.
  pose proof sqrt_0999956_bounds as [Hlo Hhi].
  split.
  - unfold isclose.
    rewrite (Cabs_icoil1 _ H), (Cabs_icoil2 _ H).
    set (A := AMPS Main_config) in *.
    rewrite (Rabs_pos_eq (A - sqrt 0.999956 * A)) by nra.
    rewrite (Rabs_pos_eq A) by lra.
    rewrite (Rabs_pos_eq (sqrt 0.999956 * A)) by nra.
    rewrite Rmax_left by nra.
    nra.
  - unfold phase_is. intros [_ Him].
    rewrite (Cabs_icoil2 _ H) in Him.
    unfold radians in Him.
    replace (-120 * PI / 180) with (- (2 * (PI / 3))) in Him by lra.
    rewrite sin_neg, sin_2PI3 in Him.
    unfold icoil2 in Him. simpl snd in Him.
    pose proof sqrt3_bounds as [H3 _].
    set (A := AMPS Main_config) in *.
    assert (Hpos : 0 < sqrt 0.999956 * A) by nra.
    nra.
Qed.

(** ** Traces of scripts *)

Lemma trace_bind {A B : Type} (m : script A) (k : A -> script B) :
  trace (bind m k)
  = (trace m ++ match outcome m with
                | inl _ => []
                | inr a => trace (k a)
                end)%list.
Proof.
  destruct m as [t [e | a]]; simpl.
  - now rewrite app_nil_r.
  - destruct (k a) as [t' r]. reflexivity.
Qed.

Lemma outcome_bind {A B : Type} (m : script A) (k : A -> script B) :
  outcome (bind m k)
  = match outcome m with
    | inl e => inl e
    | inr a => outcome (k a)
    end.
Proof.
  destruct m as [t [e | a]]; simpl.
  - reflexivity.
  - destruct (k a) as [t' r]. reflexivity.
Qed.

Lemma Forall_trace_bind {A B : Type} (P : femm_cmd -> Prop)
    (m : script A) (k : A -> script B) :
  Forall P (trace m) ->
  (forall a, outcome m = inr a -> Forall P (trace (k a))) ->
  Forall P (trace (bind m k)).
Proof.
  intros Hm Hk. rewrite trace_bind. apply Forall_app. split; [exact Hm |].
  destruct (outcome m) as [e | a]; [constructor | now apply Hk].
Qed.

Lemma Forall_for_each {A : Type} (P : femm_cmd -> Prop) (l : list A)
    (body : A -> list femm_cmd) :
  (forall x, Forall P (body x)) -> Forall P (for_each l body).
Proof.
  intro H. unfold for_each. apply Forall_flat_map.
  apply Forall_forall. intros x _. apply H.
Qed.

Lemma trace_count_step (R_ring r_wire gap : R) :
  trace (count_step R_ring r_wire gap) = [].
Proof.
  unfold count_step.
  destruct (Req_dec_T (2 * r_wire + gap) 0);
    [destruct (Req_dec_T (armour_perimeter R_ring) 0) |]; reflexivity.
Qed.

Lemma trace_theta_step (N : Z) : trace (theta_step N) = [].
Proof. unfold theta_step. destruct (Z.eqb N 0); reflexivity. Qed.

Lemma theta_step_defined (N : Z) :
  N <> 0%Z -> theta_step N = ret (radians (360 / IZR N)).
Proof.
  intro H. unfold theta_step.
  destruct (Z.eqb_spec N 0) as [H0 | _]; [contradiction | reflexivity].
Qed.

(** ** The script's cable in numbers *)

Lemma r_cond_Main_bounds : 3.989 < r_cond Main_config < 3.9895.
Proof.
  pose proof PI_bounds as [Hlo Hhi].
  unfold r_cond. simpl A_cond.
  apply sqrt_between; try lra.
  - apply Rmult_lt_reg_r with PI; [lra |].
    replace (50 / PI * PI) with 50 by (field; lra). lra.
  - apply Rmult_lt_reg_r with PI; [lra |].
    replace (50 / PI * PI) with 50 by (field; lra). lra.
Qed.

Lemma r_cond_total_Main_bounds : 10.789 < r_cond_total Main_config < 10.7895.
Proof.
  pose proof r_cond_Main_bounds as [Hlo Hhi].
  unfold r_cond_total. simpl. lra.
Qed.

(** Distance from the cable axis to the top of the conductor bundle. *)
Lemma bundle_top_Main_bounds :
  23.362
  < cond_center Main_config * sin60 - delta_y_triangle Main_config
    + r_cond_total Main_config
  < 23.3641.
Proof.
  pose proof r_cond_total_Main_bounds as [Hlo Hhi].
  pose proof sqrt3_bounds as [H3lo H3hi].
  rewrite sin60_sqrt3. unfold delta_y_triangle, cond_center, cond_surf.
  set (rt := r_cond_total Main_config) in *.
  set (s := sqrt 3) in *.
  replace ((2 * rt + 0.2) * (s / 2) - 1 / 6 * s * (2 * rt + 0.2) + rt)
    with ((2 * rt + 0.2) * s / 3 + rt) by lra.
  split; nra.
Qed.

Lemma R_armour_Main_bounds : 25.562 < R_armour Main_config < 25.5641.
Proof.
  pose proof bundle_top_Main_bounds as [Hlo Hhi].
  unfold R_armour. simpl bedding. simpl r_armour. lra.
Qed.

Lemma NbrOfArmourElem_Main : NbrOfArmourElem Main_config = 39%Z.
Proof.
  pose proof R_armour_Main_bounds as [Hlo Hhi].
  pose proof PI_bounds as [Plo Phi].
  unfold NbrOfArmourElem. simpl r_armour. unfold space.
  apply armour_count_eq; [lra |].
  set (Ra := R_armour Main_config) in *.
  split; nra.
Qed.

Lemma R_cable_total_Main_bounds : 29.572 < R_cable_total Main_config < 29.5741.
Proof.
  pose proof R_armour_Main_bounds as [Hlo Hhi].
  unfold R_cable_total. simpl r_armour_2.
  destruct (Req_dec_T 0 0) as [_ | Hne]; [| now elim Hne].
  simpl r_armour. simpl over_sheath. unfold dist1. lra.
Qed.

Lemma py_int_R_cable_total_Main : py_int (R_cable_total Main_config) = 29%Z.
Proof.
  pose proof R_cable_total_Main_bounds as [Hlo Hhi].
  apply py_int_eq; [lia |]. lra.
Qed.

Lemma armour_count_25 : armour_count 25 2.00 0.05 = 38%Z.
Proof.
  pose proof PI_bounds as [Plo Phi].
  apply armour_count_eq; [lra |]. split; lra.
Qed.

(** C10, as the script has it.  With a wire radius of 2.00 mm and a gap of
    0.05 mm the packed count of the first ring is
    [floor (2 * PI * R / 4.05)]; a ring radius of exactly 25 mm gives 38
    wires, but the ring radius of the script's cable is about 25.56 mm and
    its count is 39. *)
Theorem first_ring_count :
  (forall R_ring, armour_count R_ring 2.00 0.05
                  = Zfloor (2 * PI * R_ring / 4.05))
  /\ armour_count 25 2.00 0.05 = 38%Z
  /\ 25.562 < R_armour Main_config < 25.5641
  /\ NbrOfArmourElem Main_config
     = Zfloor (2 * PI * R_armour Main_config / 4.05)
  /\ NbrOfArmourElem Main_config = 39%Z.
Proof.
  assert (Hform : forall R_ring,
             armour_count R_ring 2.00 0.05 = Zfloor (2 * PI * R_ring / 4.05)).
  { intro R_ring. unfold armour_count, armour_perimeter.
    f_equal. f_equal. lra. }
  split; [exact Hform |].
  split; [exact armour_count_25 |].
  split; [exact R_armour_Main_bounds |].
  split; [| exact NbrOfArmourElem_Main].
  unfold NbrOfArmourElem. simpl r_armour. unfold space. apply Hform.
Qed.

(** C10, as stated, fails: the first ring of the script's cable does not
    hold 38 wires. *)
Lemma script_ring_not_38_wires : NbrOfArmourElem Main_config <> 38%Z.
Proof. rewrite NbrOfArmourElem_Main. lia. Qed.

(** ** Running the script *)

Lemma bind_emit {B : Type} (cmds : list femm_cmd) (k : unit -> script B) :
  bind (emit cmds) k = ((cmds ++ trace (k tt))%list, outcome (k tt)).
Proof. unfold bind, emit. destruct (k tt) as [t' r]. reflexivity. Qed.

Lemma bind_ret {A B : Type} (a : A) (k : A -> script B) :
  bind (ret a) k = k a.
Proof. unfold bind, ret. destruct (k a) as [t' r]. reflexivity. Qed.

Lemma bind_raise {A B : Type} (e : py_error) (k : A -> script B) :
  bind (raise e) k = raise e.
Proof. reflexivity. Qed.

Lemma Forall_trace_emit (P : femm_cmd -> Prop) (cmds : list femm_cmd) :
  Forall P cmds -> Forall P (trace (emit cmds)).
Proof. intro H; exact H. Qed.

Lemma Forall_trace_ret {A : Type} (P : femm_cmd -> Prop) (a : A) :
  Forall P (trace (ret a)).
Proof. constructor. Qed.

Lemma Forall_trace_count_step (P : femm_cmd -> Prop) (R_ring r_wire gap : R) :
  Forall P (trace (count_step R_ring r_wire gap)).
Proof. rewrite trace_count_step. constructor. Qed.

Lemma Forall_trace_theta_step (P : femm_cmd -> Prop) (N : Z) :
  Forall P (trace (theta_step N)).
Proof. rewrite trace_theta_step. constructor. Qed.

(** When the first armour count is computed and is 0, the script stops at
    the division [360/NbrOfArmourElem], with the set-up, the materials and
    the core geometry emitted. *)
Lemma Main_zero_count (cfg : config) (mo_getb : Z -> Z -> C * C)
    (mo_getj : Z -> Z -> C) :
  count_step (R_armour cfg) (r_armour cfg) space = ret 0%Z ->
  Main cfg mo_getb mo_getj
  = ((setup cfg ++ materials cfg ++ core_geometry cfg)%list,
     inl ZeroDivisionError).
Proof.
  intro H. unfold Main.
  rewrite bind_emit; cbv beta.
  rewrite bind_emit; cbv beta.
  rewrite bind_emit; cbv beta.
  rewrite H, bind_ret.
  change (theta_step 0) with (@raise R ZeroDivisionError).
  rewrite bind_raise.
  unfold raise, trace, outcome. cbn [fst snd].
  now rewrite app_nil_r.
Qed.

Lemma R_armour_thin_bounds : 0.362 < R_armour thin_config < 0.3641.
Proof.
  pose proof bundle_top_Main_bounds as [Hlo Hhi].
  unfold R_armour.
  change (cond_center thin_config * sin60 - delta_y_triangle thin_config
          + r_cond_total thin_config)
    with (cond_center Main_config * sin60 - delta_y_triangle Main_config
          + r_cond_total Main_config).
  simpl bedding. simpl r_armour. lra.
Qed.

Lemma count_step_thin :
  count_step (R_armour thin_config) (r_armour thin_config) space = ret 0%Z.
Proof.
  pose proof R_armour_thin_bounds as [Hlo Hhi].
  pose proof PI_bounds as [Plo Phi].
  simpl r_armour. unfold space.
  rewrite count_step_defined by lra.
  f_equal. apply armour_count_eq; [lra |].
  set (Ra := R_armour thin_config) in *.
  split; nra.
Qed.

(** C3, as the script has it.  When the computed count of the first armour
    ring is 0, the script stops with [ZeroDivisionError] at the computation
    of the angular step: the solver is never invoked, but the environment
    squares, the conductors, the filling label and the bedding have already
    been emitted.  Nothing checks the count before the geometry. *)
Theorem zero_count_aborts_before_solver (cfg : config)
    (mo_getb : Z -> Z -> C * C) (mo_getj : Z -> Z -> C) :
  count_step (R_armour cfg) (r_armour cfg) space = ret 0%Z ->
  outcome (Main cfg mo_getb mo_getj) = inl ZeroDivisionError
  /\ trace (Main cfg mo_getb mo_getj)
     = (setup cfg ++ materials cfg ++ core_geometry cfg)%list
  /\ Forall (fun c => is_solve c = false) (trace (Main cfg mo_getb mo_getj))
  /\ incl (coarse_square ++ fine_square ++ conductor_1 cfg ++ conductor_2 cfg
           ++ conductor_3 cfg ++ filling ++ bedding_geometry cfg)
          (trace (Main cfg mo_getb mo_getj))
  /\ existsb is_geometry (trace (Main cfg mo_getb mo_getj)) = true.
Proof.
  intro H. rewrite (Main_zero_count cfg mo_getb mo_getj H).
  unfold outcome, trace. cbn [fst snd].
  split; [reflexivity |].
  split; [reflexivity |].
  split.
  { apply Forall_app. split; [repeat constructor |].
    apply Forall_app. split; [repeat constructor |].
    unfold core_geometry, seabed_geometry.
    destruct (seabed_present cfg); repeat constructor. }
  split.
  { intros c Hc. apply in_or_app. right. apply in_or_app. right.
    unfold core_geometry.
    rewrite !in_app_iff in Hc. rewrite !in_app_iff. tauto. }
  reflexivity.
Qed.

Lemma zero_count_aborts_before_solver_witness :
  count_step (R_armour thin_config) (r_armour thin_config) space = ret 0%Z
  /\ outcome (Main thin_config null_b null_j) = inl ZeroDivisionError.
Proof.
  split; [exact count_step_thin |].
  destruct (zero_count_aborts_before_solver thin_config null_b null_j
              count_step_thin) as (Hout & _).
  exact Hout.
Defined.

(** C3, as stated, fails: with a bedding thickness of -25 mm the computed
    count is 0, and when the script stops the boundary of the outer square
    has already been drawn. *)
Lemma zero_count_geometry_emitted :
  count_step (R_armour thin_config) (r_armour thin_config) space = ret 0%Z
  /\ In (mi_drawline limit_coarse limit_coarse limit_coarse (- limit_coarse))
        (trace (Main thin_config null_b null_j))
  /\ existsb is_geometry (trace (Main thin_config null_b null_j)) = true.
Proof.
  split; [exact count_step_thin |].
  rewrite (Main_zero_count thin_config null_b null_j count_step_thin).
  unfold trace. cbn [fst].
  split; [| reflexivity].
  apply in_or_app. right. apply in_or_app. right.
  unfold core_geometry, coarse_square. simpl. tauto.
Qed.

(** ** The seabed *)

(** Splits a property of the whole trace into one goal per command. *)
Ltac split_trace :=
  repeat match goal with
    | |- Forall _ [] => apply Forall_nil
    | |- Forall _ (_ :: _) => apply Forall_cons
    | |- Forall _ (_ ++ _) => apply Forall_app; split
    | |- Forall _ (for_each _ _) => apply Forall_for_each; intro
    | |- Forall _ (trace (ret _)) => apply Forall_trace_ret
    | |- Forall _ (trace (count_step _ _ _)) => apply Forall_trace_count_step
    | |- Forall _ (trace (theta_step _)) => apply Forall_trace_theta_step
    | |- Forall _ (trace (emit _)) => apply Forall_trace_emit
    | |- Forall _ (trace (bind _ _)) =>
        apply Forall_trace_bind; [ | intros ? _ ]
    end.

Ltac unfold_blocks :=
  unfold setup, materials, core_geometry, coarse_square, fine_square,
    conductor_1, conductor_2, conductor_3, filling, bedding_geometry,
    draw_ring, draw_wire, area_between_armouring, over_sheath_1,
    over_sheath_2, armour_properties, area_properties,
    over_sheath_1_properties, over_sheath_2_properties, bedding_properties,
    filling_properties, conductor_properties, circuits, analysis.

Ltac split_outer_properties :=
  try match goal with
      | |- Forall _ (outer_properties _ ?layer2) =>
          destruct layer2 as [[? ?] |]; unfold outer_properties;
          unfold_blocks; split_trace
      end.

Lemma seabed_geometry_absent (cfg : config) :
  seabed_present cfg = false -> seabed_geometry cfg = [].
Proof. intro H. unfold seabed_geometry. now rewrite H. Qed.

Lemma environment_properties_seawater (cfg : config) :
  seabed_present cfg = false ->
  environment_properties cfg
  = [ mi_selectlabel (limit_coarse * 4 / 5) (limit_coarse * 4 / 5);
      mi_setblockprop "seawater" (10 * GridSize cfg) "<None>";
      mi_selectlabel (limit_coarse * 4 / 5) (limit_coarse * 4 / 5);
      mi_setblockprop "seawater" (10 * GridSize cfg) "<None>";
      mi_selectlabel (limit_fine * 4 / 5) (limit_fine * 4 / 5);
      mi_setblockprop "seawater" (6 * GridSize cfg) "<None>";
      mi_selectlabel (limit_fine * 4 / 5) (limit_fine * 4 / 5);
      mi_setblockprop "seawater" (6 * GridSize cfg) "<None>" ].
Proof. intro H. unfold environment_properties. rewrite H. reflexivity. Qed.

(** Without seabed, no block of the model is given the seabed material. *)
Lemma no_seabed_block (cfg : config) (mo_getb : Z -> Z -> C * C)
    (mo_getj : Z -> Z -> C) :
  seabed_present cfg = false ->
  Forall (fun c => assigns_material "seabed" c = false)
         (trace (Main cfg mo_getb mo_getj)).
Proof.
  intro H. unfold Main, outer_layers.
  rewrite (environment_properties_seawater cfg H).
  unfold core_geometry. rewrite (seabed_geometry_absent cfg H).
  unfold_blocks.
  destruct (Req_dec_T (r_armour_2 cfg) 0); split_trace;
    split_outer_properties; reflexivity.
Qed.

(** Without seabed, the only straight lines of the model are the eight edges
    of the two squares: there is no split line. *)
Lemma only_square_lines (cfg : config) (mo_getb : Z -> Z -> C * C)
    (mo_getj : Z -> Z -> C) :
  seabed_present cfg = false ->
  Forall (fun c => is_drawline c = true -> In c (coarse_square ++ fine_square))
         (trace (Main cfg mo_getb mo_getj)).
Proof.
  intro H. unfold Main, outer_layers.
  rewrite (environment_properties_seawater cfg H).
  unfold core_geometry. rewrite (seabed_geometry_absent cfg H).
  unfold_blocks.
  destruct (Req_dec_T (r_armour_2 cfg) 0); split_trace;
    split_outer_properties;
    solve [ intro Hline; discriminate Hline
          | intros _; simpl; tauto ].
Qed.

Lemma seabed_absent_at_zero (cfg : config) :
  burial_depth cfg = 0 -> seabed_present cfg = false.
Proof.
  intro H. unfold seabed_present.
  destruct (Req_dec_T (burial_depth cfg) 0) as [_ | Hne];
    [reflexivity | contradiction].
Qed.

Lemma below_burial_depth_at_zero (cfg : config) (y : Z) :
  burial_depth cfg = 0 -> below_burial_depth cfg y = false.
Proof.
  intro H. unfold below_burial_depth.
  destruct (Req_dec_T (burial_depth cfg) 0) as [_ | Hne];
    [reflexivity | contradiction].
Qed.

Lemma e_magnitude_at_zero (cfg : config) (e : C) (y : Z) :
  burial_depth cfg = 0 ->
  e_magnitude cfg e y = (Cabs e * 10 ^ 6 / seawater_conductivity cfg) * 10 ^ 6.
Proof.
  intro H. unfold e_magnitude. now rewrite below_burial_depth_at_zero.
Qed.

(** C8.  With a burial depth of 0 the script emits no seabed split (the
    seabed block of the geometry is empty and the only straight lines of the
    model are the edges of the two squares), no block is assigned the seabed
    material, and every electric field sample of the near, far and radial
    profiles is the current density magnitude divided by the seawater
    conductivity, whatever the height of the sample. *)
Theorem surface_laid_all_seawater (cfg : config)
    (mo_getb : Z -> Z -> C * C) (mo_getj : Z -> Z -> C) :
  burial_depth cfg = 0 ->
  seabed_geometry cfg = []
  /\ Forall (fun c => is_drawline c = true -> In c (coarse_square ++ fine_square))
            (trace (Main cfg mo_getb mo_getj))
  /\ Forall (fun c => assigns_material "seabed" c = false)
            (trace (Main cfg mo_getb mo_getj))
  /\ (forall e y, e_magnitude cfg e y
                  = (Cabs e * 10 ^ 6 / seawater_conductivity cfg) * 10 ^ 6)
  /\ (forall p, In p (near (sample_field cfg mo_getb mo_getj)) ->
        exists y, e_value p
          = map (fun n => (Cabs (mo_getj n y) * 10 ^ 6
                           / seawater_conductivity cfg) * 10 ^ 6)
                (py_range (-500) 500))
  /\ (forall p, In p (far (sample_field cfg mo_getb mo_getj)) ->
        exists y, e_value p
          = map (fun n => (Cabs (mo_getj n y) * 10 ^ 6
                           / seawater_conductivity cfg) * 10 ^ 6)
                (py_range (-500) 500))
  /\ e_value (radial (sample_field cfg mo_getb mo_getj))
     = map (fun n => (Cabs (mo_getj 0%Z n) * 10 ^ 6
                      / seawater_conductivity cfg) * 10 ^ 6)
           (py_range (py_int (R_cable_total cfg) + 100) 3000).
Proof.
  intro H.
  pose proof (seabed_absent_at_zero cfg H) as Hs.
  split; [now apply seabed_geometry_absent |].
  split; [now apply only_square_lines |].
  split; [now apply no_seabed_block |].
  split; [intros e y; now apply e_magnitude_at_zero |].
  assert (Hscan : forall y,
            e_value (scan_line cfg mo_getb mo_getj y)
            = map (fun n => (Cabs (mo_getj n y) * 10 ^ 6
                             / seawater_conductivity cfg) * 10 ^ 6)
                  (py_range (-500) 500)).
  { intro y. unfold scan_line. cbn [e_value].
    apply map_ext. intro n. now apply e_magnitude_at_zero. }
  split.
  { intros p Hp. unfold sample_field, near_profiles in Hp. cbn [near] in Hp.
    apply in_map_iff in Hp. destruct Hp as (q & <- & _).
    exists (near_offset cfg q). apply Hscan. }
  split.
  { intros p Hp. unfold sample_field, far_profiles in Hp. cbn [far] in Hp.
    apply in_map_iff in Hp. destruct Hp as (q & <- & _).
    exists (far_offset cfg q). apply Hscan. }
  unfold sample_field, radial_profile. cbn [radial e_value].
  apply map_ext. intro n. now apply e_magnitude_at_zero.
Qed.

Lemma surface_laid_all_seawater_witness :
  burial_depth (with_burial_depth 0 Main_config) = 0
  /\ seabed_geometry (with_burial_depth 0 Main_config) = []
  /\ e_magnitude (with_burial_depth 0 Main_config) (3, 4) 129 = 1000000000000.
Proof.
  assert (H : burial_depth (with_burial_depth 0 Main_config) = 0)
    by reflexivity.
  split; [exact H |].
  destruct (surface_laid_all_seawater (with_burial_depth 0 Main_config)
              null_b null_j H) as (Hgeo & _ & _ & He & _).
  split; [exact Hgeo |].
  rewrite He. unfold Cabs. cbn [fst snd seawater_conductivity with_burial_depth
                                Main_config].
  replace (3 ^ 2 + 4 ^ 2) with (5 * 5) by ring.
  rewrite sqrt_square by lra. lra.
Defined.

Lemma near_offset_shallow : near_offset shallow_config 1 = 129%Z.
Proof.
  unfold near_offset.
  change (R_cable_total shallow_config) with (R_cable_total Main_config).
  rewrite py_int_R_cable_total_Main. reflexivity.
Qed.

Lemma seabed_absent_shallow : seabed_present shallow_config = false.
Proof.
  unfold seabed_present. cbn [burial_depth shallow_config with_burial_depth].
  destruct (Req_dec_T 300 0) as [_ | _]; [reflexivity |].
  unfold limit_fine.
  destruct (Rlt_dec 400 300) as [Hlt | _]; [lra | reflexivity].
Qed.

Lemma below_burial_depth_shallow : below_burial_depth shallow_config 129 = true.
Proof.
  unfold below_burial_depth. cbn [burial_depth shallow_config with_burial_depth].
  destruct (Req_dec_T 300 0) as [H0 | _]; [lra |].
  destruct (Rle_dec 129 300) as [_ | Hgt]; [reflexivity | lra].
Qed.

(** C4 at a burial depth of 300 mm, which is positive and below the
    fine-mesh half-width of 400 mm.  The model has no seabed (no split line,
    no block with the seabed material: the near zone is seawater), and yet
    the electric field samples of the first near profile, taken 129 mm above
    the axis, are current densities divided by the seabed conductivity, five
    times what the division by the seawater conductivity gives. *)
Theorem shallow_burial_divides_by_seabed :
  0 < burial_depth shallow_config <= limit_fine
  /\ seabed_geometry shallow_config = []
  /\ (forall mo_getb mo_getj,
        Forall (fun c => is_drawline c = true
                         -> In c (coarse_square ++ fine_square))
               (trace (Main shallow_config mo_getb mo_getj))
        /\ Forall (fun c => assigns_material "seabed" c = false)
                  (trace (Main shallow_config mo_getb mo_getj)))
  /\ near_offset shallow_config 1 = 129%Z
  /\ (forall e, e_magnitude shallow_config e 129
                = (Cabs e * 10 ^ 6 / seabed_conductivity shallow_config)
                  * 10 ^ 6)
  /\ (forall e, e_magnitude shallow_config e 129
                = 5 * ((Cabs e * 10 ^ 6 / seawater_conductivity shallow_config)
                       * 10 ^ 6))
  /\ (forall mo_getb mo_getj,
        option_map e_value
          (nth_error (near (sample_field shallow_config mo_getb mo_getj)) 0)
        = Some (map (fun n => (Cabs (mo_getj n 129%Z) * 10 ^ 6
                               / seabed_conductivity shallow_config) * 10 ^ 6)
                    (py_range (-500) 500))).
Proof.
  assert (He : forall e, e_magnitude shallow_config e 129
                = (Cabs e * 10 ^ 6 / seabed_conductivity shallow_config)
                  * 10 ^ 6).
  { intro e. unfold e_magnitude. now rewrite below_burial_depth_shallow. }
  split.
  { cbn [burial_depth shallow_config with_burial_depth]. unfold limit_fine. lra. }
  split; [apply seabed_geometry_absent, seabed_absent_shallow |].
  split.
  { intros mo_getb mo_getj. split.
    - apply only_square_lines, seabed_absent_shallow.
    - apply no_seabed_block, seabed_absent_shallow. }
  split; [exact near_offset_shallow |].
  split; [exact He |].
  split.
  { intro e. rewrite He.
    cbn [seabed_conductivity seawater_conductivity shallow_config
         with_burial_depth Main_config]. lra. }
  intros mo_getb mo_getj.
  unfold sample_field, near_profiles. cbn [near].
  change (py_range 1 4) with [1%Z; 2%Z; 3%Z]. cbn [map nth_error option_map].
  rewrite near_offset_shallow. unfold scan_line. cbn [e_value].
  f_equal. apply map_ext. intro n. apply He.
Qed.

(** ** The wires of a ring *)

Lemma py_range_length (a b : Z) :
  List.length (py_range a b) = Z.to_nat (b - a).
Proof. unfold py_range. now rewrite length_map, length_seq. Qed.

Lemma py_range_In (a b i : Z) : In i (py_range a b) <-> (a <= i < b)%Z.
Proof.
  unfold py_range. rewrite in_map_iff. split.
  - intros (k & <- & Hk). apply in_seq in Hk. lia.
  - intro H. exists (Z.to_nat (i - a)). split; [lia |].
    apply in_seq. lia.
Qed.

Lemma draw_ring_labels (R_ring r_wire theta : R) (N : Z) :
  filter is_label (draw_ring R_ring r_wire theta N)
  = map (fun i => mi_addblocklabel (fst (wire_center R_ring theta i))
                                   (snd (wire_center R_ring theta i)))
        (py_range 1 (N + 1)).
Proof.
  unfold draw_ring, for_each.
  induction (py_range 1 (N + 1)) as [| i l IH].
  - reflexivity.
  - cbn [flat_map map]. rewrite filter_app, IH. reflexivity.
Qed.

Lemma theta_full_turn (N : Z) :
  N <> 0%Z -> radians (360 / IZR N) = 2 * PI / IZR N.
Proof.
  intro H. unfold radians. field. now apply not_0_IZR.
Qed.

(** Chord between the points of a circle at angles [a] and [b]. *)
Lemma chord_sqr (a b : R) :
  (sin a - sin b) ^ 2 + (cos a - cos b) ^ 2 = 4 * sin ((a - b) / 2) ^ 2.
Proof.
  pose proof (sin2_cos2 a) as Ha. pose proof (sin2_cos2 b) as Hb.
  unfold Rsqr in Ha, Hb.
  pose proof (cos_minus a b) as Hm.
  pose proof (cos_2a_sin ((a - b) / 2)) as H2.
  replace (2 * ((a - b) / 2)) with (a - b) in H2 by lra.
  nra.
Qed.

Lemma wire_distance (R_ring theta : R) (i j : Z) :
  0 <= R_ring ->
  distance (wire_center R_ring theta i) (wire_center R_ring theta j)
  = 2 * R_ring * Rabs (sin (IZR (i - j) * theta / 2)).
Proof.
  intro HR. unfold distance, wire_center, wire_angle. cbn [fst snd].
  set (a := IZR (i - 1) * theta). set (b := IZR (j - 1) * theta).
  replace (IZR (i - j) * theta / 2) with ((a - b) / 2).
  2:{ unfold a, b. rewrite !minus_IZR. lra. }
  replace ((R_ring * sin a - R_ring * sin b) ^ 2
           + (R_ring * cos a - R_ring * cos b) ^ 2)
    with ((2 * R_ring * sin ((a - b) / 2))²).
  2:{ unfold Rsqr. pose proof (chord_sqr a b) as Hc. nra. }
  rewrite sqrt_Rsqr_abs, Rabs_mult, (Rabs_pos_eq (2 * R_ring)) by lra.
  reflexivity.
Qed.

(** On [[x, PI - x]] the sine is at least [sin x]. *)
Lemma sin_lower (x y : R) :
  0 <= x -> x <= y -> y <= PI - x -> sin x <= sin y.
Proof.
  intros H0 Hxy Hy.
  pose proof PI_RGT_0 as Hpi.
  destruct (Rle_dec y (PI / 2)) as [Hle | Hgt].
  - apply sin_incr_1; lra.
  - rewrite <- (sin_PI_x y). apply sin_incr_1; lra.
Qed.

Lemma sin_step_lower (N k : Z) :
  (1 <= k <= N - 1)%Z ->
  sin (PI / IZR N) <= sin (IZR k * (2 * PI / IZR N) / 2).
Proof.
  intros [Hk1 HkN].
  pose proof PI_RGT_0 as Hpi.
  assert (HN : 0 < IZR N) by (apply IZR_lt; lia).
  assert (Hk1' : 1 <= IZR k) by (apply IZR_le; lia).
  assert (HkN' : IZR k <= IZR N - 1).
  { rewrite <- minus_IZR. apply IZR_le. lia. }
  set (x := PI / IZR N).
  assert (Hx : 0 < x) by (apply Rdiv_lt_0_compat; assumption).
  assert (HxN : x * IZR N = PI) by (unfold x; field; lra).
  replace (IZR k * (2 * PI / IZR N) / 2) with (IZR k * x)
    by (unfold x; field; lra).
  apply sin_lower; nra.
Qed.

Lemma wire_distance_lower (R_ring : R) (N i j : Z) :
  0 <= R_ring ->
  (1 <= i <= N)%Z -> (1 <= j <= N)%Z -> i <> j ->
  2 * R_ring * sin (PI / IZR N)
  <= distance (wire_center R_ring (radians (360 / IZR N)) i)
              (wire_center R_ring (radians (360 / IZR N)) j).
Proof.
  intros HR Hi Hj Hij.
  rewrite wire_distance by assumption.
  rewrite theta_full_turn by lia.
  apply Rmult_le_compat_l; [lra |].
  destruct (Z_lt_le_dec j i) as [Hlt | Hle].
  - eapply Rle_trans; [| apply Rle_abs].
    apply sin_step_lower. lia.
  - replace (IZR (i - j) * (2 * PI / IZR N) / 2)
      with (- (IZR (j - i) * (2 * PI / IZR N) / 2)).
    2:{ rewrite !minus_IZR. lra. }
    rewrite sin_neg, Rabs_Ropp.
    eapply Rle_trans; [| apply Rle_abs].
    apply sin_step_lower. lia.
Qed.

(** C9, as the script has it.  For a count [N >= 1] the step is
    [360/N] degrees and is computed without raising; the ring has one wire
    per index [i = 1 .. N], labelled at its centre, at angle
    [(i - 1) * (360/N)] degrees, so consecutive wires are exactly one step
    apart; two distinct wires have their centres at least
    [2 * R * sin (PI / N)] apart, hence their cross-sections of radius [r_w]
    do not overlap when [r_w <= R * sin (PI / N)].  The packer spaces the
    wires along the arc, which does not give that inequality. *)
Theorem ring_wires_evenly_spaced (R_ring r_wire : R) (N : Z) :
  (1 <= N)%Z ->
  0 <= R_ring ->
  theta_step N = ret (radians (360 / IZR N))
  /\ List.length (py_range 1 (N + 1)) = Z.to_nat N
  /\ (forall i, In i (py_range 1 (N + 1)) <-> (1 <= i <= N)%Z)
  /\ filter is_label (draw_ring R_ring r_wire (radians (360 / IZR N)) N)
     = map (fun i =>
              mi_addblocklabel
                (R_ring * sin (IZR (i - 1) * radians (360 / IZR N)))
                (R_ring * cos (IZR (i - 1) * radians (360 / IZR N))))
           (py_range 1 (N + 1))
  /\ (forall i,
        wire_angle (radians (360 / IZR N)) (i + 1)
        - wire_angle (radians (360 / IZR N)) i = radians (360 / IZR N))
  /\ (forall i j, (1 <= i <= N)%Z -> (1 <= j <= N)%Z -> i <> j ->
        2 * R_ring * sin (PI / IZR N)
        <= distance (wire_center R_ring (radians (360 / IZR N)) i)
                    (wire_center R_ring (radians (360 / IZR N)) j))
  /\ (r_wire <= R_ring * sin (PI / IZR N) ->
      forall i j, (1 <= i <= N)%Z -> (1 <= j <= N)%Z -> i <> j ->
        ~ discs_overlap r_wire
            (wire_center R_ring (radians (360 / IZR N)) i)
            (wire_center R_ring (radians (360 / IZR N)) j)).
Proof.
  intros HN HR.
  split; [apply theta_step_defined; lia |].
  split; [rewrite py_range_length; f_equal; lia |].
  split; [intro i; rewrite py_range_In; lia |].
  split; [apply draw_ring_labels |].
  split.
  { intro i. unfold wire_angle.
    replace (i + 1 - 1)%Z with (i - 1 + 1)%Z by lia.
    rewrite plus_IZR. lra. }
  split; [intros i j; now apply wire_distance_lower |].
  intros Hr i j Hi Hj Hij. unfold discs_overlap.
  pose proof (wire_distance_lower R_ring N i j HR Hi Hj Hij). lra.
Qed.

Lemma ring_wires_evenly_spaced_witness :
  (1 <= 39)%Z /\ 0 <= 25
  /\ theta_step 39 = ret (radians (360 / IZR 39))
  /\ List.length (py_range 1 (39 + 1)) = 39%nat.
Proof.
  assert (HN : (1 <= 39)%Z) by lia.
  assert (HR : 0 <= 25) by lra.
  split; [exact HN |].
  split; [exact HR |].
  destruct (ring_wires_evenly_spaced 25 2 39 HN HR) as (Hstep & Hlen & _).
  split; [exact Hstep | exact Hlen].
Defined.

Lemma R_armour_thick_bounds : 31.862 < R_armour thick_wire_config < 31.8641.
Proof.
  pose proof bundle_top_Main_bounds as [Hlo Hhi].
  unfold R_armour.
  change (cond_center thick_wire_config * sin60
          - delta_y_triangle thick_wire_config
          + r_cond_total thick_wire_config)
    with (cond_center Main_config * sin60 - delta_y_triangle Main_config
          + r_cond_total Main_config).
  simpl bedding. simpl r_armour. lra.
Qed.

Lemma count_step_thick :
  count_step (R_armour thick_wire_config) (r_armour thick_wire_config) space
  = ret 12%Z.
Proof.
  pose proof R_armour_thick_bounds as [Hlo Hhi].
  pose proof PI_bounds as [Plo Phi].
  simpl r_armour. unfold space.
  rewrite count_step_defined by lra.
  f_equal. apply armour_count_eq; [lra |].
  set (Ra := R_armour thick_wire_config) in *.
  split; nra.
Qed.

(** C9, as stated, fails: with armour wires of radius 8.3 mm, and the other
    values of the script, the packer puts 12 wires, 30 degrees apart, on a
    ring of radius about 31.86 mm; the centres of the first two are less
    than 16.55 mm apart, so the two wires overlap, with the nominal radius
    and with the radius drawn. *)
Lemma packed_wires_overlap :
  count_step (R_armour thick_wire_config) (r_armour thick_wire_config) space
  = ret 12%Z
  /\ theta_step 12 = ret (radians (360 / 12))
  /\ distance
       (wire_center (R_armour thick_wire_config) (radians (360 / 12)) 1)
       (wire_center (R_armour thick_wire_config) (radians (360 / 12)) 2)
     < 16.55
  /\ discs_overlap (r_armour thick_wire_config)
       (wire_center (R_armour thick_wire_config) (radians (360 / 12)) 1)
       (wire_center (R_armour thick_wire_config) (radians (360 / 12)) 2)
  /\ discs_overlap (r_armour thick_wire_config - dist1)
       (wire_center (R_armour thick_wire_config) (radians (360 / 12)) 1)
       (wire_center (R_armour thick_wire_config) (radians (360 / 12)) 2).
Proof.
  pose proof R_armour_thick_bounds as [Hlo Hhi].
  pose proof sqrt3_bounds as [H3lo H3hi].
  pose proof sqrt3_sqr as H3.
  split; [exact count_step_thick |].
  split; [reflexivity |].
  assert (Hd : distance
                 (wire_center (R_armour thick_wire_config) (radians (360 / 12)) 1)
                 (wire_center (R_armour thick_wire_config) (radians (360 / 12)) 2)
               < 16.55).
  { unfold distance, wire_center, wire_angle. cbn [fst snd].
    replace (IZR (1 - 1) * radians (360 / 12)) with 0 by (simpl; lra).
    replace (IZR (2 - 1) * radians (360 / 12)) with (PI / 6)
      by (unfold radians; simpl; lra).
    rewrite sin_0, cos_0, sin_PI6, cos_PI6.
    set (Ra := R_armour thick_wire_config) in *.
    set (s := sqrt 3) in *.
    replace ((Ra * 0 - Ra * (1 / 2)) ^ 2 + (Ra * 1 - Ra * (s / 2)) ^ 2)
      with (Ra * Ra * (2 - s)) by nra.
    assert (Hsq : Ra * Ra < 1015.33) by nra.
    assert (H0 : 0 <= 16.55) by lra.
    apply (sqrt_between _ 0 16.55); nra. }
  split; [exact Hd |].
  unfold discs_overlap. simpl r_armour. unfold dist1. split; lra.
Qed.

(** * Further properties of the script *)

(** ** Complete runs *)

Lemma bind_value {A B : Type} (t : list femm_cmd) (a : A) (k : A -> script B) :
  bind (t, inr a) k = ((t ++ trace (k a))%list, outcome (k a)).
Proof. unfold bind. destruct (k a) as [t' r]. reflexivity. Qed.

Lemma bind_emit_eq {B : Type} (cmds t : list femm_cmd) (k : unit -> script B)
    (r : py_error + B) :
  k tt = (t, r) -> bind (emit cmds) k = ((cmds ++ t)%list, r).
Proof. intro H. unfold bind, emit. now rewrite H. Qed.

Lemma bind_emit_ret {B : Type} (cmds : list femm_cmd) (b : B) :
  bind (emit cmds) (fun _ => ret b) = (cmds, inr b).
Proof. unfold bind, emit, ret. now rewrite app_nil_r. Qed.

Lemma bind_value_eq {A B : Type} (t t' : list femm_cmd) (a : A)
    (k : A -> script B) (r : py_error + B) :
  k a = (t', r) -> bind (t, inr a) k = ((t ++ t')%list, r).
Proof. intro H. unfold bind. now rewrite H. Qed.

Lemma outer_layers_single (cfg : config) :
  r_armour_2 cfg = 0 ->
  outer_layers cfg
  = ((over_sheath_1 cfg
      ++ [ py_print "Overall Cable Diameter :"
                    (Some (2 * R_cable_total cfg)) ])%list,
     inr None).
Proof.
  intro H. unfold outer_layers.
  destruct (Req_dec_T (r_armour_2 cfg) 0) as [_ | Hne]; [| contradiction].
  rewrite bind_emit; cbv beta. rewrite bind_emit; cbv beta.
  unfold ret, trace, outcome. cbn [fst snd]. now rewrite app_nil_r.
Qed.

Lemma outer_layers_double (cfg : config) (N2 : Z) :
  r_armour_2 cfg <> 0 ->
  count_step (R_armour_2 cfg) (r_armour_2 cfg) space = ret N2 ->
  N2 <> 0%Z ->
  outer_layers cfg
  = ((draw_ring (R_armour_2 cfg) (r_armour_2 cfg) (radians (360 / IZR N2)) N2
      ++ over_sheath_2 cfg
      ++ [ py_print "Overall Cable Diameter :"
                    (Some (2 * R_cable_total cfg)) ])%list,
     inr (Some (N2, radians (360 / IZR N2)))).
Proof.
  intros H Hc HN. unfold outer_layers.
  destruct (Req_dec_T (r_armour_2 cfg) 0) as [H0 | _]; [contradiction |].
  rewrite Hc, bind_ret, (theta_step_defined N2 HN), bind_ret.
  rewrite bind_emit; cbv beta. rewrite bind_emit; cbv beta.
  rewrite bind_emit; cbv beta.
  unfold ret, trace, outcome. cbn [fst snd]. now rewrite app_nil_r.
Qed.

Lemma outer_layers_zero_count (cfg : config) :
  r_armour_2 cfg <> 0 ->
  count_step (R_armour_2 cfg) (r_armour_2 cfg) space = ret 0%Z ->
  outer_layers cfg = ([], inl ZeroDivisionError).
Proof.
  intros H Hc. unfold outer_layers.
  destruct (Req_dec_T (r_armour_2 cfg) 0) as [H0 | _]; [contradiction |].
  rewrite Hc, bind_ret. reflexivity.
Qed.

(** The commands of a run in which both armour steps succeed: [geometry]
    before the message 'Objects geometries defined', [properties] after. *)
Lemma Main_run (cfg : config) (mo_getb : Z -> Z -> C * C)
    (mo_getj : Z -> Z -> C) (N : Z) (t2 : list femm_cmd)
    (r2 : py_error + option (Z * R)) :
  count_step (R_armour cfg) (r_armour cfg) space = ret N ->
  N <> 0%Z ->
  outer_layers cfg = (t2, r2) ->
  Main cfg mo_getb mo_getj
  = match r2 with
    | inl e =>
        ((setup cfg ++ materials cfg ++ core_geometry cfg
          ++ draw_ring (R_armour cfg) (r_armour cfg) (radians (360 / IZR N)) N
          ++ area_between_armouring cfg (radians (360 / IZR N)) ++ t2)%list,
         inl e)
    | inr layer2 =>
        ((setup cfg ++ materials cfg ++ core_geometry cfg
          ++ draw_ring (R_armour cfg) (r_armour cfg) (radians (360 / IZR N)) N
          ++ area_between_armouring cfg (radians (360 / IZR N)) ++ t2
          ++ [ py_print "Objects geometries defined" None ]
          ++ environment_properties cfg
          ++ armour_properties cfg (R_armour cfg) (radians (360 / IZR N)) N
          ++ area_properties cfg (radians (360 / IZR N))
          ++ outer_properties cfg layer2
          ++ bedding_properties cfg ++ filling_properties cfg
          ++ conductor_properties cfg ++ circuits cfg
          ++ [ py_print "Objects properties defined" None ]
          ++ analysis)%list,
         inr (sample_field cfg mo_getb mo_getj))
    end.
Proof.
  intros Hc HN Ho. unfold Main.
  destruct r2 as [e | layer2];
    repeat (apply bind_emit_eq; cbv beta);
    rewrite Hc, bind_ret, (theta_step_defined N HN), bind_ret;
    repeat (apply bind_emit_eq; cbv beta);
    rewrite Ho.
  - reflexivity.
  - apply bind_value_eq.
    repeat first [ apply bind_emit_ret | apply bind_emit_eq; cbv beta ].
Qed.

(** ** Inputs for which the script runs to the end *)

Lemma r_cond_total_nonneg (cfg : config) :
  Forall (fun t => 0 <= t) (layer_thicknesses cfg) -> 0 <= r_cond_total cfg.
Proof.
  intro H. unfold layer_thicknesses in H.
  inversion H as [| ? ? H1 H']; subst. inversion H' as [| ? ? H2 H'']; subst.
  inversion H'' as [| ? ? H3 H''']; subst.
  inversion H''' as [| ? ? H4 _]; subst.
  unfold r_cond_total, r_cond. pose proof (sqrt_pos (A_cond cfg / PI)). lra.
Qed.

Lemma R_armour_lower (cfg : config) :
  Forall (fun t => 0 <= t) (layer_thicknesses cfg) ->
  0 <= bedding cfg ->
  r_armour cfg + 0.115 < R_armour cfg.
Proof.
  intros Hts Hb.
  pose proof (r_cond_total_nonneg cfg Hts) as Hrt.
  pose proof sqrt3_bounds as [H3lo H3hi].
  unfold R_armour, delta_y_triangle, cond_center, cond_surf.
  rewrite sin60_sqrt3.
  set (rt := r_cond_total cfg) in *. set (s := sqrt 3) in *.
  nra.
Qed.

Lemma armour_count_lower (R_ring r_wire : R) :
  0 <= r_wire -> r_wire + 0.115 < R_ring ->
  (3 <= armour_count R_ring r_wire space)%Z.
Proof.
  intros Hr HR. pose proof PI_bounds as [Plo Phi].
  unfold armour_count, armour_perimeter, space.
  apply Zfloor_lub.
  apply Rmult_le_reg_r with (2 * r_wire + 0.05); [lra |].
  replace (2 * PI * R_ring / (2 * r_wire + 0.05) * (2 * r_wire + 0.05))
    with (2 * PI * R_ring) by (field; lra).
  nra.
Qed.

Ltac in_last_block :=
  repeat match goal with
         | |- In _ (_ ++ _) => apply in_or_app; right
         end.

Lemma moderate_inputs_nonneg (cfg : config) :
  moderate_inputs cfg ->
  Forall (fun t => 0 <= t) (layer_thicknesses cfg).
Proof.
  intros (_ & Hts & _).
  eapply Forall_impl; [| exact Hts]. intros t Ht. cbv beta in Ht. lra.
Qed.

Lemma moderate_inputs_Main_config : moderate_inputs Main_config.
Proof.
  unfold moderate_inputs, layer_thicknesses. simpl.
  repeat split; try lra; repeat constructor; lra.
Qed.

Lemma r_cond_total_upper (cfg : config) :
  moderate_inputs cfg -> r_cond_total cfg <= 5 * 10 ^ 6.
Proof.
  intros (HA & Hts & _).
  unfold layer_thicknesses in Hts.
  inversion Hts as [| ? ? H1 H']; subst. inversion H' as [| ? ? H2 H'']; subst.
  inversion H'' as [| ? ? H3 H''']; subst.
  inversion H''' as [| ? ? H4 _]; subst.
  assert (Hr : r_cond cfg <= 10 ^ 6).
  { unfold r_cond. pose proof PI_bounds as [Plo Phi].
    rewrite <- (sqrt_square (10 ^ 6)) by lra.
    apply sqrt_le_1_alt.
    apply Rmult_le_reg_r with PI; [lra |].
    replace (A_cond cfg / PI * PI) with (A_cond cfg) by (field; lra).
    nra. }
  unfold r_cond_total. lra.
Qed.

Lemma R_armour_upper (cfg : config) :
  moderate_inputs cfg -> R_armour cfg <= 128 * 10 ^ 5.
Proof.
  intro Hm. pose proof (r_cond_total_upper cfg Hm) as Hrt.
  pose proof (r_cond_total_nonneg cfg (moderate_inputs_nonneg cfg Hm)) as Hrt0.
  destruct Hm as (_ & _ & Hb & Hr & _).
  pose proof sqrt3_bounds as [H3lo H3hi].
  unfold R_armour, delta_y_triangle, cond_center, cond_surf.
  rewrite sin60_sqrt3.
  set (rt := r_cond_total cfg) in *. set (s := sqrt 3) in *.
  nra.
Qed.

Lemma armour_count_upper (R_ring r_wire : R) :
  0 <= r_wire -> R_ring <= 15 * 10 ^ 6 ->
  armour_perimeter R_ring / (2 * r_wire + space) < 2 * 10 ^ 9
  /\ (armour_count R_ring r_wire space <= 2000000000)%Z.
Proof.
  intros Hr HR. pose proof PI_bounds as [Plo Phi].
  assert (Hq : armour_perimeter R_ring / (2 * r_wire + space) < 2 * 10 ^ 9).
  { unfold armour_perimeter, space.
    apply Rmult_lt_reg_r with (2 * r_wire + 0.05); [lra |].
    replace (2 * PI * R_ring / (2 * r_wire + 0.05) * (2 * r_wire + 0.05))
      with (2 * PI * R_ring) by (field; lra).
    nra. }
  split; [exact Hq |].
  unfold armour_count.
  destruct (Zfloor_bound (armour_perimeter R_ring / (2 * r_wire + space)))
    as [Hlo _].
  apply le_IZR. lra.
Qed.

Lemma armour_quotient_lower (R_ring r_wire : R) :
  0 <= r_wire -> r_wire + 0.115 < R_ring ->
  3.14 < armour_perimeter R_ring / (2 * r_wire + space).
Proof.
  intros Hr HR. pose proof PI_bounds as [Plo Phi].
  unfold armour_perimeter, space.
  apply Rmult_lt_reg_r with (2 * r_wire + 0.05); [lra |].
  replace (2 * PI * R_ring / (2 * r_wire + 0.05) * (2 * r_wire + 0.05))
    with (2 * PI * R_ring) by (field; lra).
  nra.
Qed.

(** X1.  For inputs of moderate size (a conductor area between 0 and
    10^12 mm^2; thicknesses, wire radii and over sheath between 0 and
    10^6 mm) the quotient of perimeter by pitch of the first armour ring
    lies above 3.14 and below 2e9, so the ring holds between 3 and 2e9
    wires, by a margin that rounding does not consume; the same holds for
    the second ring when there is one.  Hence neither count nor step
    raises: the script runs to the end, invokes the solver and returns a
    report. *)
Theorem moderate_inputs_complete (cfg : config)
    (mo_getb : Z -> Z -> C * C) (mo_getj : Z -> Z -> C) :
  moderate_inputs cfg ->
  (exists r, outcome (Main cfg mo_getb mo_getj) = inr r)
  /\ (3.14 < armour_perimeter (R_armour cfg) / (2 * r_armour cfg + space)
        < 2 * 10 ^ 9
      /\ (3 <= NbrOfArmourElem cfg <= 2000000000)%Z)
  /\ (r_armour_2 cfg <> 0 ->
      3.14 < armour_perimeter (R_armour_2 cfg) / (2 * r_armour_2 cfg + space)
        < 2 * 10 ^ 9
      /\ (3 <= NbrOfArmourElem2 cfg <= 2000000000)%Z)
  /\ In mi_analyze (trace (Main cfg mo_getb mo_getj)).
Proof.
  intro Hm.
  pose proof (moderate_inputs_nonneg cfg Hm) as Hts.
  pose proof (R_armour_upper cfg Hm) as HRu.
  destruct Hm as (_ & _ & Hb & Hr & Hr2 & _).
  assert (Hb0 : 0 <= bedding cfg) by lra.
  assert (Hr0 : 0 <= r_armour cfg) by lra.
  assert (Hr20 : 0 <= r_armour_2 cfg) by lra.
  pose proof (R_armour_lower cfg Hts Hb0) as HR.
  pose proof (armour_count_lower _ _ Hr0 HR) as HN.
  assert (HRu' : R_armour cfg <= 15 * 10 ^ 6) by lra.
  destruct (armour_count_upper _ _ Hr0 HRu') as [Hq HNu].
  pose proof (armour_quotient_lower _ _ Hr0 HR) as Hql.
  assert (Hc : count_step (R_armour cfg) (r_armour cfg) space
               = ret (armour_count (R_armour cfg) (r_armour cfg) space)).
  { apply count_step_defined. unfold space. lra. }
  assert (HR2 : r_armour_2 cfg + 0.115 < R_armour_2 cfg)
    by (unfold R_armour_2, space; lra).
  assert (HR2u : R_armour_2 cfg <= 15 * 10 ^ 6)
    by (unfold R_armour_2, space; lra).
  pose proof (armour_count_lower _ _ Hr20 HR2) as HN2.
  destruct (armour_count_upper _ _ Hr20 HR2u) as [Hq2 HN2u].
  pose proof (armour_quotient_lower _ _ Hr20 HR2) as Hq2l.
  assert (Hrun : exists t2 layer2, outer_layers cfg = (t2, inr layer2)).
  { destruct (Req_dec_T (r_armour_2 cfg) 0) as [H0 | Hne].
    - eexists. eexists. apply outer_layers_single. exact H0.
    - eexists. eexists. apply outer_layers_double.
      + exact Hne.
      + apply count_step_defined. unfold space. lra.
      + lia. }
  destruct Hrun as (t2 & layer2 & Ho).
  assert (HN0 : armour_count (R_armour cfg) (r_armour cfg) space <> 0%Z) by lia.
  rewrite (Main_run cfg mo_getb mo_getj _ t2 (inr layer2) Hc HN0 Ho).
  unfold outcome, trace. cbn [fst snd].
  split; [eexists; reflexivity |].
  split; [split; [lra | unfold NbrOfArmourElem; lia] |].
  split; [intros _; split; [lra | unfold NbrOfArmourElem2; lia] |].
  in_last_block. unfold analysis. simpl. tauto.
Qed.

Lemma moderate_inputs_complete_witness :
  moderate_inputs Main_config
  /\ (exists r, outcome (Main Main_config null_b null_j) = inr r)
  /\ (3 <= NbrOfArmourElem Main_config <= 2000000000)%Z.
Proof.
  split; [exact moderate_inputs_Main_config |].
  destruct (moderate_inputs_complete Main_config null_b null_j
              moderate_inputs_Main_config) as (Hout & (_ & HN) & _).
  split; [exact Hout | exact HN].
Defined.

(** ** The solver is invoked last, or not at all *)

Lemma solves_last_bind {A B : Type} (result : B) (m : script A)
    (k : A -> script B) :
  never_solves (trace m) ->
  (forall a, outcome m = inr a -> solves_last result (k a)) ->
  solves_last result (bind m k).
Proof.
  intros Hm Hk. unfold solves_last.
  rewrite outcome_bind, trace_bind.
  destruct (outcome m) as [e | a] eqn:Hout.
  - now rewrite app_nil_r.
  - specialize (Hk a eq_refl). unfold solves_last in Hk.
    destruct (outcome (k a)) as [e' | b].
    + apply Forall_app. split; assumption.
    + destruct Hk as (Hb & pre & Ht & Hpre). split; [exact Hb |].
      exists (trace m ++ pre)%list. split.
      * rewrite Ht. now rewrite app_assoc.
      * apply Forall_app. split; assumption.
Qed.

Lemma solves_last_analysis {B : Type} (result : B) :
  solves_last result (bind (emit analysis) (fun _ => ret result)).
Proof.
  rewrite bind_emit_ret. unfold solves_last, outcome, trace. cbn [fst snd].
  split; [reflexivity |]. exists []. split; [reflexivity | constructor].
Qed.

Lemma never_solves_outer_layers (cfg : config) :
  never_solves (trace (outer_layers cfg)).
Proof.
  unfold never_solves, outer_layers.
  destruct (Req_dec_T (r_armour_2 cfg) 0); unfold_blocks; split_trace;
    reflexivity.
Qed.

(** X2.  Whatever the inputs, a run that returns has invoked the solver
    exactly at its end (the trace is a solver-free prefix followed by save,
    analyze, load) and returns the sampled report; a run that raises has not
    invoked the solver. *)
Theorem solver_invoked_last (cfg : config)
    (mo_getb : Z -> Z -> C * C) (mo_getj : Z -> Z -> C) :
  match outcome (Main cfg mo_getb mo_getj) with
  | inr r =>
      r = sample_field cfg mo_getb mo_getj
      /\ exists pre,
           trace (Main cfg mo_getb mo_getj)
           = (pre ++ [ mi_saveas "SubseaCable_model.fem"; mi_analyze;
                       mi_loadsolution ])%list
           /\ Forall (fun c => is_solve c = false) pre
  | inl _ =>
      Forall (fun c => is_solve c = false) (trace (Main cfg mo_getb mo_getj))
  end.
Proof.
  change (solves_last (sample_field cfg mo_getb mo_getj)
            (Main cfg mo_getb mo_getj)).
  unfold Main.
  repeat first
    [ apply solves_last_analysis
    | apply solves_last_bind; [ | intros ? _ ] ].
  all: try apply never_solves_outer_layers.
  all: unfold never_solves, environment_properties, core_geometry,
         seabed_geometry; unfold_blocks.
  all: try (destruct (seabed_present cfg)).
  all: split_trace; split_outer_properties; reflexivity.
Qed.

(** ** Degenerate armour counts *)

Lemma count_step_Main_like (cfg : config) :
  R_armour cfg = R_armour Main_config ->
  r_armour cfg = 2.00 ->
  count_step (R_armour cfg) (r_armour cfg) space = ret 39%Z.
Proof.
  intros HR Hr. rewrite HR, Hr.
  pose proof NbrOfArmourElem_Main as HN. unfold NbrOfArmourElem in HN.
  simpl r_armour in HN.
  rewrite count_step_defined by (unfold space; lra).
  now rewrite HN.
Qed.

Lemma R_armour_2_negative_layer_bounds :
  -2.388 < R_armour_2 negative_layer_config < -2.3859.
Proof.
  pose proof R_armour_Main_bounds as [Hlo Hhi].
  unfold R_armour_2.
  change (R_armour negative_layer_config) with (R_armour Main_config).
  simpl r_armour. simpl r_armour_2. unfold space. lra.
Qed.

Lemma count_step_negative_layer :
  count_step (R_armour_2 negative_layer_config)
             (r_armour_2 negative_layer_config) space
  = ret 0%Z.
Proof.
  pose proof R_armour_2_negative_layer_bounds as [Hlo Hhi].
  pose proof PI_bounds as [Plo Phi].
  simpl r_armour_2. unfold space.
  rewrite count_step_defined by lra.
  f_equal. unfold armour_count, armour_perimeter.
  set (R2 := R_armour_2 negative_layer_config) in *.
  replace (2 * PI * R2 / (2 * -30 + 0.05))
    with (2 * PI * (- R2) / 59.95) by lra.
  apply Zfloor_eq. split.
  - apply Rmult_le_reg_r with 59.95; [lra |].
    replace (2 * PI * - R2 / 59.95 * 59.95) with (2 * PI * - R2)
      by (field; lra).
    simpl IZR. nra.
  - apply Rmult_lt_reg_r with 59.95; [lra |].
    replace (2 * PI * - R2 / 59.95 * 59.95) with (2 * PI * - R2)
      by (field; lra).
    simpl IZR. nra.
Qed.

(** X3.  When the first ring has a non-zero count and a second armour layer
    is requested whose computed count is 0, the script stops with
    [ZeroDivisionError] at the step of the second layer: the first ring and
    the label between its wires are emitted, the second ring and the over
    sheath are not, no property is assigned and the solver is not invoked. *)
Theorem second_layer_zero_count_aborts (cfg : config)
    (mo_getb : Z -> Z -> C * C) (mo_getj : Z -> Z -> C) (N : Z) :
  count_step (R_armour cfg) (r_armour cfg) space = ret N ->
  N <> 0%Z ->
  r_armour_2 cfg <> 0 ->
  count_step (R_armour_2 cfg) (r_armour_2 cfg) space = ret 0%Z ->
  outcome (Main cfg mo_getb mo_getj) = inl ZeroDivisionError
  /\ trace (Main cfg mo_getb mo_getj)
     = (setup cfg ++ materials cfg ++ core_geometry cfg
        ++ draw_ring (R_armour cfg) (r_armour cfg) (radians (360 / IZR N)) N
        ++ area_between_armouring cfg (radians (360 / IZR N)))%list
  /\ Forall (fun c => match c with
                      | mi_setblockprop _ _ _ | mi_analyze => False
                      | _ => True
                      end)
            (trace (Main cfg mo_getb mo_getj)).
Proof.
  intros Hc HN Hr2 Hc2.
  pose proof (outer_layers_zero_count cfg Hr2 Hc2) as Ho.
  rewrite (Main_run cfg mo_getb mo_getj N [] (inl ZeroDivisionError) Hc HN Ho).
  unfold outcome, trace. cbn [fst snd]. rewrite app_nil_r.
  split; [reflexivity |].
  split; [reflexivity |].
  unfold core_geometry, seabed_geometry. unfold_blocks.
  destruct (seabed_present cfg); split_trace; exact I.
Qed.

Lemma second_layer_zero_count_aborts_witness :
  count_step (R_armour negative_layer_config) (r_armour negative_layer_config)
             space = ret 39%Z
  /\ (39 <> 0)%Z
  /\ r_armour_2 negative_layer_config <> 0
  /\ count_step (R_armour_2 negative_layer_config)
                (r_armour_2 negative_layer_config) space = ret 0%Z
  /\ outcome (Main negative_layer_config null_b null_j)
     = inl ZeroDivisionError.
Proof.
  assert (Hc : count_step (R_armour negative_layer_config)
                 (r_armour negative_layer_config) space = ret 39%Z).
  { apply count_step_Main_like; [reflexivity | simpl; lra]. }
  assert (HN : (39 <> 0)%Z) by lia.
  assert (Hr2 : r_armour_2 negative_layer_config <> 0) by (simpl; lra).
  split; [exact Hc |]. split; [exact HN |]. split; [exact Hr2 |].
  split; [exact count_step_negative_layer |].
  destruct (second_layer_zero_count_aborts negative_layer_config null_b null_j
              39 Hc HN Hr2 count_step_negative_layer) as (Hout & _).
  exact Hout.
Defined.

Lemma py_range_empty (a b : Z) : (b <= a)%Z -> py_range a b = [].
Proof.
  intro H. unfold py_range.
  replace (Z.to_nat (b - a)) with 0%nat by lia. reflexivity.
Qed.

Lemma count_negative_wire :
  (armour_count (R_armour negative_wire_config)
                (r_armour negative_wire_config) space < 0)%Z.
Proof.
  pose proof bundle_top_Main_bounds as [Hlo Hhi].
  pose proof PI_bounds as [Plo Phi].
  assert (HR : 22 < R_armour negative_wire_config).
  { unfold R_armour.
    change (cond_center negative_wire_config * sin60
            - delta_y_triangle negative_wire_config
            + r_cond_total negative_wire_config)
      with (cond_center Main_config * sin60 - delta_y_triangle Main_config
            + r_cond_total Main_config).
    simpl bedding. simpl r_armour. lra. }
  simpl r_armour. unfold space, armour_count, armour_perimeter.
  set (Ra := R_armour negative_wire_config) in *.
  apply lt_IZR.
  eapply Rle_lt_trans; [apply Zfloor_bound |].
  replace (2 * PI * Ra / (2 * -1 + 0.05)) with (- (2 * PI * Ra / 1.95))
    by lra.
  assert (0 < 2 * PI * Ra / 1.95).
  { apply Rdiv_lt_0_compat; nra. }
  simpl IZR. lra.
Qed.

(** X4.  A negative count of the first ring (which a negative wire radius
    gives) is no error: the step is computed, both loops over the wires are
    empty, so that no wire is drawn and no armour block assigned, and with no
    second layer the script runs to the end and invokes the solver. *)
Theorem negative_count_draws_nothing (cfg : config)
    (mo_getb : Z -> Z -> C * C) (mo_getj : Z -> Z -> C) (N : Z) :
  count_step (R_armour cfg) (r_armour cfg) space = ret N ->
  (N < 0)%Z ->
  r_armour_2 cfg = 0 ->
  theta_step N = ret (radians (360 / IZR N))
  /\ draw_ring (R_armour cfg) (r_armour cfg) (radians (360 / IZR N)) N = []
  /\ armour_properties cfg (R_armour cfg) (radians (360 / IZR N)) N = []
  /\ outcome (Main cfg mo_getb mo_getj) = inr (sample_field cfg mo_getb mo_getj)
  /\ Forall (fun c => assigns_material "armour" c = false)
            (trace (Main cfg mo_getb mo_getj))
  /\ In mi_analyze (trace (Main cfg mo_getb mo_getj)).
Proof.
  intros Hc HN Hr2.
  assert (HN0 : N <> 0%Z) by lia.
  assert (Hring : draw_ring (R_armour cfg) (r_armour cfg)
                    (radians (360 / IZR N)) N = []).
  { unfold draw_ring. rewrite py_range_empty by lia. reflexivity. }
  assert (Hprop : armour_properties cfg (R_armour cfg)
                    (radians (360 / IZR N)) N = []).
  { unfold armour_properties. rewrite py_range_empty by lia. reflexivity. }
  split; [now apply theta_step_defined |].
  split; [exact Hring |].
  split; [exact Hprop |].
  rewrite (Main_run cfg mo_getb mo_getj N _ _ Hc HN0
             (outer_layers_single cfg Hr2)).
  unfold outcome, trace. cbn [fst snd].
  split; [reflexivity |].
  split.
  - rewrite Hring, Hprop.
    unfold environment_properties, core_geometry, seabed_geometry,
      outer_properties.
    unfold_blocks.
    destruct (seabed_present cfg); split_trace; reflexivity.
  - in_last_block. unfold analysis. simpl. tauto.
Qed.

Lemma negative_count_draws_nothing_witness :
  (armour_count (R_armour negative_wire_config)
                (r_armour negative_wire_config) space < 0)%Z
  /\ r_armour_2 negative_wire_config = 0
  /\ outcome (Main negative_wire_config null_b null_j)
     = inr (sample_field negative_wire_config null_b null_j).
Proof.
  assert (Hc : count_step (R_armour negative_wire_config)
                 (r_armour negative_wire_config) space
               = ret (armour_count (R_armour negative_wire_config)
                        (r_armour negative_wire_config) space)).
  { apply count_step_defined. simpl r_armour. unfold space. lra. }
  assert (Hr2 : r_armour_2 negative_wire_config = 0) by reflexivity.
  split; [exact count_negative_wire |]. split; [exact Hr2 |].
  destruct (negative_count_draws_nothing negative_wire_config null_b null_j _
              Hc count_negative_wire Hr2) as (_ & _ & _ & Hout & _).
  exact Hout.
Defined.

(** ** Labels of a ring and their selection *)

Lemma seq_add_map (m : nat) :
  forall s n, seq (s + n) m = map (fun x => (x + n)%nat) (seq s m).
Proof.
  induction m as [| m IH]; intros s n.
  - reflexivity.
  - cbn [seq map]. f_equal. apply (IH (S s) n).
Qed.

Lemma py_range_app (a b c : Z) :
  (a <= b <= c)%Z -> py_range a c = (py_range a b ++ py_range b c)%list.
Proof.
  intros [Hab Hbc]. unfold py_range.
  replace (Z.to_nat (c - a)) with (Z.to_nat (b - a) + Z.to_nat (c - b))%nat
    by lia.
  rewrite seq_app, map_app. f_equal.
  rewrite (seq_add_map (Z.to_nat (c - b)) 0 (Z.to_nat (b - a))), map_map.
  apply map_ext. intro k. lia.
Qed.

Lemma py_range_shift (a b k : Z) :
  py_range (a + k) (b + k) = map (fun i => (i + k)%Z) (py_range a b).
Proof.
  unfold py_range. rewrite map_map.
  replace (b + k - (a + k))%Z with (b - a)%Z by lia.
  apply map_ext. intro n. lia.
Qed.

Lemma wire_center_period (R_ring : R) (N i : Z) :
  N <> 0%Z ->
  wire_center R_ring (radians (360 / IZR N)) (i + N)
  = wire_center R_ring (radians (360 / IZR N)) i.
Proof.
  intro HN. unfold wire_center, wire_angle.
  rewrite (theta_full_turn N HN).
  replace (IZR (i + N - 1) * (2 * PI / IZR N))
    with (IZR (i - 1) * (2 * PI / IZR N) + 2 * INR 1 * PI).
  2:{ replace (i + N - 1)%Z with (i - 1 + N)%Z by lia.
      rewrite plus_IZR. simpl INR. field. now apply not_0_IZR. }
  now rewrite sin_period, cos_period.
Qed.

Lemma label_points_app (t1 t2 : list femm_cmd) :
  label_points (t1 ++ t2) = (label_points t1 ++ label_points t2)%list.
Proof. unfold label_points. apply flat_map_app. Qed.

Lemma selected_points_app (t1 t2 : list femm_cmd) :
  selected_points (t1 ++ t2)
  = (selected_points t1 ++ selected_points t2)%list.
Proof. unfold selected_points. apply flat_map_app. Qed.

Lemma label_points_draw_ring (R_ring r_wire theta : R) (N : Z) :
  label_points (draw_ring R_ring r_wire theta N)
  = map (wire_center R_ring theta) (py_range 1 (N + 1)).
Proof.
  unfold draw_ring, for_each.
  induction (py_range 1 (N + 1)) as [| i l IH].
  - reflexivity.
  - cbn [flat_map map]. rewrite label_points_app, IH. reflexivity.
Qed.

Lemma selected_points_draw_ring (R_ring r_wire theta : R) (N : Z) :
  selected_points (draw_ring R_ring r_wire theta N) = [].
Proof.
  unfold draw_ring, for_each.
  induction (py_range 1 (N + 1)) as [| i l IH].
  - reflexivity.
  - cbn [flat_map]. rewrite selected_points_app, IH. reflexivity.
Qed.

Lemma selected_points_armour (cfg : config) (R_ring theta : R) (N : Z) :
  selected_points (armour_properties cfg R_ring theta N)
  = map (wire_center R_ring theta) (py_range 1 (2 * N + 1)).
Proof.
  unfold armour_properties, for_each.
  induction (py_range 1 (2 * N + 1)) as [| i l IH].
  - reflexivity.
  - cbn [flat_map map]. rewrite selected_points_app, IH. reflexivity.
Qed.

Lemma label_points_armour (cfg : config) (R_ring theta : R) (N : Z) :
  label_points (armour_properties cfg R_ring theta N) = [].
Proof.
  unfold armour_properties, for_each.
  induction (py_range 1 (2 * N + 1)) as [| i l IH].
  - reflexivity.
  - cbn [flat_map]. rewrite label_points_app, IH. reflexivity.
Qed.

Lemma armour_selection_twice (cfg : config) (R_ring : R) (N : Z) :
  (1 <= N)%Z ->
  selected_points
    (armour_properties cfg R_ring (radians (360 / IZR N)) N)
  = (map (wire_center R_ring (radians (360 / IZR N))) (py_range 1 (N + 1))
     ++ map (wire_center R_ring (radians (360 / IZR N)))
            (py_range 1 (N + 1)))%list.
Proof.
  intro HN. rewrite selected_points_armour.
  rewrite (py_range_app 1 (N + 1) (2 * N + 1)) by lia.
  rewrite map_app. f_equal.
  replace (2 * N + 1)%Z with (N + 1 + N)%Z by lia.
  replace (N + 1)%Z with (1 + N)%Z at 1 by lia.
  rewrite py_range_shift, map_map.
  apply map_ext. intro i. apply wire_center_period. lia.
Qed.

(** X5.  For a count [N >= 1] the ring emits one label and two arcs per
    wire, [3 * N] commands in all, and the property loop, which runs over
    [2 * N] indices, selects the [N] labels of the ring once and then, a full
    turn later, a second time: index [i + N] selects the point of index
    [i], and every selection is followed by the assignment of the armour
    material. *)
Theorem ring_labels_selected_twice (cfg : config) (R_ring r_wire : R) (N : Z) :
  (1 <= N)%Z ->
  List.length (draw_ring R_ring r_wire (radians (360 / IZR N)) N)
  = (3 * Z.to_nat N)%nat
  /\ label_points (draw_ring R_ring r_wire (radians (360 / IZR N)) N)
     = map (wire_center R_ring (radians (360 / IZR N))) (py_range 1 (N + 1))
  /\ selected_points
       (armour_properties cfg R_ring (radians (360 / IZR N)) N)
     = (label_points (draw_ring R_ring r_wire (radians (360 / IZR N)) N)
        ++ label_points (draw_ring R_ring r_wire (radians (360 / IZR N)) N))%list
  /\ (forall i,
        wire_center R_ring (radians (360 / IZR N)) (i + N)
        = wire_center R_ring (radians (360 / IZR N)) i)
  /\ List.length (armour_properties cfg R_ring (radians (360 / IZR N)) N)
     = (4 * Z.to_nat N)%nat
  /\ (forall k c,
        nth_error (armour_properties cfg R_ring (radians (360 / IZR N)) N)
                  (2 * k + 1) = Some c ->
        c = mi_setblockprop "armour" (0.5 * GridSize cfg) "<None>").
Proof.
  intro HN.
  split.
  { unfold draw_ring, for_each.
    rewrite (flat_map_constant_length (c := 3%nat)) by reflexivity.
    rewrite py_range_length. lia. }
  split; [apply label_points_draw_ring |].
  split.
  { rewrite label_points_draw_ring. now apply armour_selection_twice. }
  split; [intro i; apply wire_center_period; lia |].
  split.
  { unfold armour_properties, for_each.
    rewrite (flat_map_constant_length (c := 2%nat)) by reflexivity.
    rewrite py_range_length. lia. }
  unfold armour_properties, for_each.
  induction (py_range 1 (2 * N + 1)) as [| i l IH]; intros k c Hk.
  - destruct k; discriminate Hk.
  - destruct k as [| k].
    + cbn in Hk. now inversion Hk.
    + apply (IH k c). replace (2 * S k + 1)%nat with (S (S (2 * k + 1))) in Hk
        by lia.
      exact Hk.
Qed.

Lemma ring_labels_selected_twice_witness :
  (1 <= 39)%Z
  /\ List.length (draw_ring 25 2 (radians (360 / IZR 39)) 39) = 117%nat.
Proof.
  assert (HN : (1 <= 39)%Z) by lia.
  split; [exact HN |].
  destruct (ring_labels_selected_twice Main_config 25 2 39 HN) as (Hlen & _).
  exact Hlen.
Defined.

(** ** Labels and the blocks they identify *)

(** What the inputs are like when the script returns. *)
Lemma Main_returns (cfg : config) (mo_getb : Z -> Z -> C * C)
    (mo_getj : Z -> Z -> C) (r : report) :
  outcome (Main cfg mo_getb mo_getj) = inr r ->
  exists N,
    count_step (R_armour cfg) (r_armour cfg) space = ret N
    /\ N <> 0%Z
    /\ ((r_armour_2 cfg = 0
         /\ outer_layers cfg
            = ((over_sheath_1 cfg
                ++ [ py_print "Overall Cable Diameter :"
                       (Some (2 * R_cable_total cfg)) ])%list,
               inr None))
        \/ exists N2,
             r_armour_2 cfg <> 0 /\ N2 <> 0%Z
             /\ outer_layers cfg
                = ((draw_ring (R_armour_2 cfg) (r_armour_2 cfg)
                      (radians (360 / IZR N2)) N2
                    ++ over_sheath_2 cfg
                    ++ [ py_print "Overall Cable Diameter :"
                           (Some (2 * R_cable_total cfg)) ])%list,
                   inr (Some (N2, radians (360 / IZR N2))))).
Proof.
  intro H. unfold Main in H.
  do 3 (rewrite outcome_bind in H; change (outcome (emit ?l)) with (@inr py_error unit tt) in H; cbv beta iota in H).
  rewrite outcome_bind in H.
  destruct (outcome (count_step (R_armour cfg) (r_armour cfg) space))
    as [e | N] eqn:Hc; [discriminate H |].
  assert (Hc' : count_step (R_armour cfg) (r_armour cfg) space = ret N).
  { pose proof (trace_count_step (R_armour cfg) (r_armour cfg) space) as Ht.
    destruct (count_step (R_armour cfg) (r_armour cfg) space) as [t o].
    unfold trace, outcome in *. cbn [fst snd] in *. subst. reflexivity. }
  exists N. split; [exact Hc' |].
  rewrite outcome_bind in H.
  destruct (Z.eq_dec N 0) as [HN0 | HN0].
  { subst N. discriminate H. }
  split; [exact HN0 |].
  rewrite (theta_step_defined N HN0) in H.
  change (outcome (ret ?x)) with (@inr py_error R x) in H. cbv beta iota in H.
  do 2 (rewrite outcome_bind in H; change (outcome (emit ?l)) with (@inr py_error unit tt) in H; cbv beta iota in H).
  rewrite outcome_bind in H.
  destruct (Req_dec_T (r_armour_2 cfg) 0) as [H2 | H2].
  - left. split; [exact H2 |]. now apply outer_layers_single.
  - right.
    destruct (Req_dec_T (2 * r_armour_2 cfg + space) 0) as [Hd | Hd].
    { exfalso. unfold outer_layers, count_step in H.
      destruct (Req_dec_T (r_armour_2 cfg) 0); [contradiction |].
      destruct (Req_dec_T (2 * r_armour_2 cfg + space) 0); [| contradiction].
      destruct (Req_dec_T (armour_perimeter (R_armour_2 cfg)) 0);
        discriminate H. }
    pose proof (count_step_defined (R_armour_2 cfg) (r_armour_2 cfg) space Hd)
      as Hc2.
    exists (armour_count (R_armour_2 cfg) (r_armour_2 cfg) space).
    destruct (Z.eq_dec (armour_count (R_armour_2 cfg) (r_armour_2 cfg) space) 0)
      as [HN2 | HN2].
    { exfalso. rewrite HN2 in Hc2.
      rewrite (outer_layers_zero_count cfg H2 Hc2) in H. discriminate H. }
    split; [exact H2 |]. split; [exact HN2 |].
    now apply outer_layers_double.
Qed.

Ltac points_of_blocks :=
  unfold same_points, environment_properties, core_geometry, seabed_geometry;
  unfold_blocks;
  change (py_range 0 2) with [0%Z; 1%Z];
  unfold for_each; simpl.

Lemma environment_labels_selected (cfg : config) :
  same_points (selected_points (environment_properties cfg))
              (label_points (coarse_square ++ fine_square
                             ++ seabed_geometry cfg)).
Proof.
  points_of_blocks. destruct (seabed_present cfg); simpl; intro p; tauto.
Qed.

Lemma conductor_labels_selected (cfg : config) :
  same_points (selected_points (conductor_properties cfg))
              (label_points (conductor_1 cfg ++ conductor_2 cfg
                             ++ conductor_3 cfg)).
Proof. points_of_blocks. intro p. tauto. Qed.

Lemma bedding_labels_selected (cfg : config) :
  same_points (selected_points (bedding_properties cfg))
              (label_points (bedding_geometry cfg)).
Proof. points_of_blocks. intro p. tauto. Qed.

Lemma filling_labels_selected (cfg : config) :
  same_points (selected_points (filling_properties cfg))
              (label_points filling).
Proof. points_of_blocks. intro p. tauto. Qed.

Lemma area_labels_selected (cfg : config) (theta : R) :
  same_points (selected_points (area_properties cfg theta))
              (label_points (area_between_armouring cfg theta)).
Proof. points_of_blocks. intro p. tauto. Qed.

Lemma ring_labels_selected (cfg : config) (R_ring r_wire : R) (N : Z) :
  N <> 0%Z ->
  same_points
    (selected_points (armour_properties cfg R_ring (radians (360 / IZR N)) N))
    (label_points (draw_ring R_ring r_wire (radians (360 / IZR N)) N)).
Proof.
  intros HN p.
  destruct (Z_lt_le_dec N 1) as [Hneg | Hpos].
  - rewrite selected_points_armour, label_points_draw_ring.
    rewrite !py_range_empty by lia. reflexivity.
  - rewrite (armour_selection_twice cfg R_ring N Hpos).
    rewrite label_points_draw_ring, in_app_iff. tauto.
Qed.

Lemma outer_labels_selected_single (cfg : config) :
  same_points
    (selected_points (outer_properties cfg None))
    (label_points (over_sheath_1 cfg
                   ++ [ py_print "Overall Cable Diameter :"
                          (Some (2 * R_cable_total cfg)) ])).
Proof. unfold outer_properties. points_of_blocks. intro p. tauto. Qed.

Lemma outer_labels_selected_double (cfg : config) (N2 : Z) :
  N2 <> 0%Z ->
  same_points
    (selected_points
       (outer_properties cfg (Some (N2, radians (360 / IZR N2)))))
    (label_points
       (draw_ring (R_armour_2 cfg) (r_armour_2 cfg) (radians (360 / IZR N2)) N2
        ++ over_sheath_2 cfg
        ++ [ py_print "Overall Cable Diameter :"
               (Some (2 * R_cable_total cfg)) ])).
Proof.
  intros HN p. unfold outer_properties.
  rewrite selected_points_app, label_points_app, !in_app_iff.
  rewrite (ring_labels_selected cfg (R_armour_2 cfg) (r_armour_2 cfg) N2 HN p).
  assert (Hs : same_points
                 (selected_points (over_sheath_2_properties cfg))
                 (label_points
                    (over_sheath_2 cfg
                     ++ [ py_print "Overall Cable Diameter :"
                            (Some (2 * R_cable_total cfg)) ]))).
  { points_of_blocks. intro q. tauto. }
  rewrite (Hs p). tauto.
Qed.

Lemma seabed_geometry_selects_nothing (cfg : config) :
  selected_points (seabed_geometry cfg) = [].
Proof. unfold seabed_geometry. destruct (seabed_present cfg); reflexivity. Qed.

Lemma environment_properties_label_nothing (cfg : config) :
  label_points (environment_properties cfg) = [].
Proof.
  unfold environment_properties. change (py_range 0 2) with [0%Z; 1%Z].
  destruct (seabed_present cfg); reflexivity.
Qed.

Lemma outer_properties_label_nothing (cfg : config)
    (layer2 : option (Z * R)) :
  label_points (outer_properties cfg layer2) = [].
Proof.
  unfold outer_properties. destruct layer2 as [[N2 theta_2] |].
  - rewrite label_points_app, label_points_armour.
    unfold_blocks. change (py_range 0 2) with [0%Z; 1%Z]. reflexivity.
  - unfold_blocks. change (py_range 0 2) with [0%Z; 1%Z]. reflexivity.
Qed.

(** Rewrites to the empty list the labels and the selections of the blocks
    that have none. *)
Ltac no_points :=
  repeat match goal with
    | |- context [selected_points ?b] =>
        let H := fresh "H" in
        assert (H : selected_points b = [])
          by (unfold_blocks; try change (py_range 0 2) with [0%Z; 1%Z];
              first [ reflexivity | apply selected_points_draw_ring
                    | apply seabed_geometry_selects_nothing ]);
        rewrite H; clear H
    | |- context [label_points ?b] =>
        let H := fresh "H" in
        assert (H : label_points b = [])
          by (unfold_blocks; try change (py_range 0 2) with [0%Z; 1%Z];
              first [ reflexivity | apply label_points_armour
                    | apply environment_properties_label_nothing
                    | apply outer_properties_label_nothing ]);
        rewrite H; clear H
    end.

(** X6.  In a run that returns, the points selected for a block property
    are exactly the points at which a label was added: every label of the
    geometry (squares, seabed, conductor layers, filling, bedding, armour
    wires, space between the wires, over sheath) is selected and given a
    material, and nothing else is selected. *)
Theorem labels_are_the_selected_points (cfg : config)
    (mo_getb : Z -> Z -> C * C) (mo_getj : Z -> Z -> C) (r : report) :
  outcome (Main cfg mo_getb mo_getj) = inr r ->
  forall p,
    In p (selected_points (trace (Main cfg mo_getb mo_getj)))
    <-> In p (label_points (trace (Main cfg mo_getb mo_getj))).
Proof.
  intros H p.
  destruct (Main_returns cfg mo_getb mo_getj r H) as (N & Hc & HN & Hcases).
  destruct Hcases as [[H2 Ho] | (N2 & H2 & HN2 & Ho)].
  - rewrite (Main_run cfg mo_getb mo_getj N _ _ Hc HN Ho).
    unfold trace. cbn [fst]. unfold core_geometry.
    rewrite !selected_points_app, !label_points_app, !in_app_iff.
    rewrite (environment_labels_selected cfg p),
      (ring_labels_selected cfg (R_armour cfg) (r_armour cfg) N HN p),
      (area_labels_selected cfg _ p), (outer_labels_selected_single cfg p),
      (bedding_labels_selected cfg p), (filling_labels_selected cfg p),
      (conductor_labels_selected cfg p).
    rewrite !label_points_app, !in_app_iff.
    no_points. cbn [In]. tauto.
  - rewrite (Main_run cfg mo_getb mo_getj N _ _ Hc HN Ho).
    unfold trace. cbn [fst]. unfold core_geometry.
    rewrite !selected_points_app, !label_points_app, !in_app_iff.
    rewrite (environment_labels_selected cfg p),
      (ring_labels_selected cfg (R_armour cfg) (r_armour cfg) N HN p),
      (area_labels_selected cfg _ p),
      (outer_labels_selected_double cfg N2 HN2 p),
      (bedding_labels_selected cfg p), (filling_labels_selected cfg p),
      (conductor_labels_selected cfg p).
    rewrite !label_points_app, !in_app_iff.
    no_points. cbn [In]. tauto.
Qed.

Lemma Main_config_returns :
  outcome (Main Main_config null_b null_j)
  = inr (sample_field Main_config null_b null_j).
Proof.
  assert (Hc : count_step (R_armour Main_config) (r_armour Main_config) space
               = ret 39%Z).
  { apply count_step_Main_like; [reflexivity | simpl; lra]. }
  assert (HN : (39 <> 0)%Z) by lia.
  rewrite (Main_run Main_config null_b null_j 39 _ _ Hc HN
             (outer_layers_single Main_config eq_refl)).
  reflexivity.
Qed.

Lemma labels_are_the_selected_points_witness :
  outcome (Main Main_config null_b null_j)
  = inr (sample_field Main_config null_b null_j)
  /\ (In (0, 0) (selected_points (trace (Main Main_config null_b null_j)))
      <-> In (0, 0) (label_points (trace (Main Main_config null_b null_j)))).
Proof.
  split; [exact Main_config_returns |].
  exact (labels_are_the_selected_points Main_config null_b null_j _
           Main_config_returns (0, 0)).
Defined.

(** ** The copper conductivity *)

Lemma powerRZ_10_m6 : powerRZ 10 (-6) = / 1000000.
Proof. simpl. f_equal. lra. Qed.

(** C1.  The material ['copper_conductors'] is registered with the seawater
    conductivity times [10**-6] (which is 5e-6 for the script's values and
    differs from the copper conductivity times [10**-6]): that registration
    is the first entry of the material list, it is among the commands of
    every run, however the run ends, and no command of any run registers
    ['copper_conductors'] with another conductivity.  The whole run of the
    script, that is the emitted commands, the exception if any and the
    sampled report, is the same whatever the value of
    [copper_conductivity]. *)
Theorem copper_conductivity_unused :
  (forall cfg,
     nth_error (materials cfg) 0
     = Some (mi_addmaterial "copper_conductors" (copper_permeability cfg)
               (copper_permeability cfg)
               (seawater_conductivity cfg * powerRZ 10 (-6))))
  /\ (forall cfg mo_getb mo_getj,
        In (mi_addmaterial "copper_conductors" (copper_permeability cfg)
              (copper_permeability cfg)
              (seawater_conductivity cfg * powerRZ 10 (-6)))
           (trace (Main cfg mo_getb mo_getj))
        /\ Forall (registers_with "copper_conductors"
                     (seawater_conductivity cfg * powerRZ 10 (-6)))
                  (trace (Main cfg mo_getb mo_getj)))
  /\ seawater_conductivity Main_config * powerRZ 10 (-6) = 5.0e-6
  /\ seawater_conductivity Main_config * powerRZ 10 (-6)
     <> copper_conductivity Main_config * powerRZ 10 (-6)
  /\ (forall cfg v mo_getb mo_getj,
        Main (with_copper_conductivity v cfg) mo_getb mo_getj
        = Main cfg mo_getb mo_getj).
Proof.
  split; [reflexivity |].
  split.
  { intros cfg mo_getb mo_getj. split.
    - unfold Main. rewrite !trace_bind.
      apply in_or_app. right. apply in_or_app. left.
      unfold trace, emit, materials. cbn [fst]. left. reflexivity.
    - unfold Main, outer_layers, environment_properties, core_geometry,
        seabed_geometry.
      unfold_blocks.
      destruct (seabed_present cfg); destruct (Req_dec_T (r_armour_2 cfg) 0);
        split_trace; split_outer_properties;
        try exact I; cbn [registers_with]; intro Hname;
        first [ reflexivity | discriminate Hname ]. }
  rewrite powerRZ_10_m6.
  split; [simpl; lra |].
  split; [simpl; lra |].
  intros cfg v mo_getb mo_getj. reflexivity.
Qed.

(** ** Names of materials and circuits *)

(** X7.  Whatever the inputs and however the run ends, every block property
    of the trace names a material that the script registers (one of the ten
    materials of its list) and a circuit that is ['<None>'] or one of the
    three circuits it defines; and the material ['inner'], although
    registered, is never given to a block. *)
Theorem block_properties_well_named (cfg : config)
    (mo_getb : Z -> Z -> C * C) (mo_getj : Z -> Z -> C) :
  registered_materials (materials cfg)
  = [ "copper_conductors"; "XLPE"; "M_screen"; "NM_screen"; "inner";
      "bedding"; "armour"; "over"; "seawater"; "seabed" ]
  /\ registered_circuits (circuits cfg) = [ "icoil1"; "icoil2"; "icoil3" ]
  /\ Forall (fun c => well_named (registered_materials (materials cfg))
                                 (registered_circuits (circuits cfg)) c = true)
            (trace (Main cfg mo_getb mo_getj))
  /\ Forall (fun c => assigns_material "inner" c = false)
            (trace (Main cfg mo_getb mo_getj)).
Proof.
  split; [reflexivity |].
  split; [reflexivity |].
  change (registered_materials (materials cfg))
    with [ "copper_conductors"; "XLPE"; "M_screen"; "NM_screen"; "inner";
           "bedding"; "armour"; "over"; "seawater"; "seabed" ].
  change (registered_circuits (circuits cfg))
    with [ "icoil1"; "icoil2"; "icoil3" ].
  split.
  - unfold Main, outer_layers, environment_properties, core_geometry,
      seabed_geometry.
    unfold_blocks.
    destruct (seabed_present cfg); destruct (Req_dec_T (r_armour_2 cfg) 0);
      split_trace; split_outer_properties; reflexivity.
  - unfold Main, outer_layers, environment_properties, core_geometry,
      seabed_geometry.
    unfold_blocks.
    destruct (seabed_present cfg); destruct (Req_dec_T (r_armour_2 cfg) 0);
      split_trace; split_outer_properties; reflexivity.
Qed.

(** ** Circles *)

Lemma closes_circle_intro (c : R * R) (r x1 y1 x2 y2 : R) (maxseg : Z) :
  0 <= r ->
  (x1 + x2) / 2 = fst c -> (y1 + y2) / 2 = snd c ->
  (x1 - fst c) ^ 2 + (y1 - snd c) ^ 2 = r * r ->
  closes_circle c r (mi_drawarc x1 y1 x2 y2 180 maxseg,
                     mi_drawarc x2 y2 x1 y1 180 maxseg).
Proof.
  intros Hr Hx Hy H1.
  exists x1, y1, x2, y2, maxseg.
  split; [reflexivity |]. split; [reflexivity |].
  split; [destruct c; cbn [fst snd] in *; now subst |].
  split.
  - apply distance_sqr; [exact Hr | exact H1].
  - apply distance_sqr; [exact Hr |]. cbn [fst snd].
    rewrite <- H1. rewrite <- Hx, <- Hy. field.
Qed.

Lemma layer_radii_nonneg (cfg : config) :
  Forall (fun t => 0 <= t) (layer_thicknesses cfg) ->
  0 <= r_cond cfg /\ 0 <= r_cond_screen cfg /\ 0 <= r_cond_insul cfg
  /\ 0 <= r_cond_insu_screen_NM cfg /\ 0 <= r_cond_total cfg.
Proof.
  intro H. unfold layer_thicknesses in H.
  inversion H as [| ? ? H1 H']; subst. inversion H' as [| ? ? H2 H'']; subst.
  inversion H'' as [| ? ? H3 H''']; subst.
  inversion H''' as [| ? ? H4 _]; subst.
  pose proof (sqrt_pos (A_cond cfg / PI)) as H0. fold (r_cond cfg) in H0.
  unfold r_cond_screen, r_cond_insul, r_cond_insu_screen_NM, r_cond_total.
  repeat split; lra.
Qed.

Ltac circle_by_arcs :=
  apply closes_circle_intro; cbn [fst snd];
  [ assumption | lra | lra | ring ].

(** X8.  With non-negative layer thicknesses, the ten arcs of each conductor
    are five closed circles (two half turns each, the second back along the
    first), all centred on the centre of that conductor, of radii [r_cond],
    [r_cond_screen], [r_cond_insul], [r_cond_insu_screen_NM] and
    [r_cond_total], in that order. *)
Theorem conductor_layers_concentric (cfg : config) :
  Forall (fun t => 0 <= t) (layer_thicknesses cfg) ->
  Forall2 (closes_circle (conductor_1_center cfg))
          (r_cond cfg :: layer_radii cfg) (arc_pairs (conductor_1 cfg))
  /\ Forall2 (closes_circle (conductor_2_center cfg))
             (r_cond cfg :: layer_radii cfg) (arc_pairs (conductor_2 cfg))
  /\ Forall2 (closes_circle (conductor_3_center cfg))
             (r_cond cfg :: layer_radii cfg) (arc_pairs (conductor_3 cfg)).
Proof.
  intro Hts.
  destruct (layer_radii_nonneg cfg Hts) as (H0 & H1 & H2 & H3 & H4).
  unfold layer_radii, conductor_1_center, conductor_2_center,
    conductor_3_center.
  set (x := cond_center cfg * cos60). set (y := cond_center cfg * sin60).
  repeat split.
  - unfold conductor_1. cbn [arc_pairs]. fold x.
    repeat (apply Forall2_cons; [circle_by_arcs |]). apply Forall2_nil.
  - unfold conductor_2. cbn [arc_pairs]. fold y.
    repeat (apply Forall2_cons; [circle_by_arcs |]). apply Forall2_nil.
  - unfold conductor_3. cbn [arc_pairs].
    replace (- cond_center cfg * cos60) with (- x) by (unfold x; ring).
    repeat (apply Forall2_cons; [circle_by_arcs |]). apply Forall2_nil.
Qed.

Lemma conductor_layers_concentric_witness :
  Forall (fun t => 0 <= t) (layer_thicknesses Main_config)
  /\ Forall2 (closes_circle (conductor_1_center Main_config))
             (r_cond Main_config :: layer_radii Main_config)
             (arc_pairs (conductor_1 Main_config)).
Proof.
  assert (Hts : Forall (fun t => 0 <= t) (layer_thicknesses Main_config)).
  { unfold layer_thicknesses; simpl. repeat constructor; lra. }
  split; [exact Hts |].
  destruct (conductor_layers_concentric Main_config Hts) as (H1 & _).
  exact H1.
Defined.

(** X9.  The labels of a conductor are its centre, for the copper core, and
    for each of the four layers the point at the layer's label radius to the
    right of the centre.  That radius is the mean of the inner and outer
    radius of the layer: it lies strictly inside the layer exactly when the
    thickness is positive, and on both circles at once when it is 0. *)
Theorem layer_labels_mid_layer (cfg : config) :
  same_points
    (label_points (conductor_1 cfg))
    (conductor_1_center cfg
     :: map (fun m => (fst (conductor_1_center cfg) + m,
                       snd (conductor_1_center cfg)))
            (layer_label_radii cfg))
  /\ same_points
       (label_points (conductor_2 cfg))
       (conductor_2_center cfg
        :: map (fun m => (fst (conductor_2_center cfg) + m,
                          snd (conductor_2_center cfg)))
               (layer_label_radii cfg))
  /\ same_points
       (label_points (conductor_3 cfg))
       (conductor_3_center cfg
        :: map (fun m => (fst (conductor_3_center cfg) + m,
                          snd (conductor_3_center cfg)))
               (layer_label_radii cfg))
  /\ label_in_layer (r_cond cfg) (r_cond_screen cfg) (cond_screen cfg)
       (r_cond_screen cfg - 0.5 * cond_screen cfg)
  /\ label_in_layer (r_cond_screen cfg) (r_cond_insul cfg) (insulation cfg)
       (r_cond_insul cfg - 0.5 * insulation cfg)
  /\ label_in_layer (r_cond_insul cfg) (r_cond_insu_screen_NM cfg)
       (insul_screen_NM cfg)
       (r_cond_insu_screen_NM cfg - 0.5 * insul_screen_NM cfg)
  /\ label_in_layer (r_cond_insu_screen_NM cfg) (r_cond_total cfg)
       (insul_screen_ME cfg)
       (r_cond_total cfg - 0.5 * insul_screen_ME cfg).
Proof.
  assert (Heq : forall a b c d e a' b' c' d' e' : R * R,
             a = a' -> b = b' -> c = c' -> d = d' -> e = e' ->
             same_points [a; b; c; d; e] [a'; b'; c'; d'; e']).
  { intros. subst. intro p. reflexivity. }
  split.
  { unfold conductor_1, conductor_1_center, layer_label_radii.
    cbn [label_points flat_map app map fst snd].
    apply Heq; f_equal; lra. }
  split.
  { unfold conductor_2, conductor_2_center, layer_label_radii.
    cbn [label_points flat_map app map fst snd].
    apply Heq; f_equal; lra. }
  split.
  { unfold conductor_3, conductor_3_center, layer_label_radii.
    cbn [label_points flat_map app map fst snd].
    apply Heq; f_equal; lra. }
  unfold label_in_layer, r_cond_screen, r_cond_insul, r_cond_insu_screen_NM,
    r_cond_total.
  repeat split; intros; lra.
Qed.

(** X10.  A wire of radius at least [dist1] is drawn as one closed circle,
    centred on the label of the wire, of radius [r_wire - dist1]; its two
    arc ends lie on the ray from the cable axis through the centre, at
    [R_ring - r_wire + dist1] and [R_ring + r_wire - dist1] from the axis. *)
Theorem wire_drawn_as_circle (R_ring r_wire theta : R) (i : Z) :
  dist1 <= r_wire ->
  label_points (draw_wire R_ring r_wire theta i)
  = [ wire_center R_ring theta i ]
  /\ Forall2 (closes_circle (wire_center R_ring theta i)) [ r_wire - dist1 ]
             (arc_pairs (draw_wire R_ring r_wire theta i))
  /\ nth_error (draw_wire R_ring r_wire theta i) 1
     = Some (mi_drawarc
               ((R_ring - r_wire + dist1) * sin (wire_angle theta i))
               ((R_ring - r_wire + dist1) * cos (wire_angle theta i))
               ((R_ring + r_wire - dist1) * sin (wire_angle theta i))
               ((R_ring + r_wire - dist1) * cos (wire_angle theta i)) 180 3).
Proof.
  intro Hr.
  split; [reflexivity |].
  split; [| reflexivity].
  unfold draw_wire, wire_center, wire_angle. cbn [arc_pairs].
  set (a := IZR (i - 1) * theta).
  pose proof (sin2_cos2 a) as Hsc. unfold Rsqr in Hsc.
  apply Forall2_cons; [| apply Forall2_nil].
  apply closes_circle_intro; cbn [fst snd].
  - lra.
  - field.
  - field.
  - replace (((R_ring - r_wire + dist1) * sin a - R_ring * sin a) ^ 2
             + ((R_ring - r_wire + dist1) * cos a - R_ring * cos a) ^ 2)
      with ((r_wire - dist1) * (r_wire - dist1)
            * (sin a * sin a + cos a * cos a)) by ring.
    rewrite Hsc. ring.
Qed.

Lemma wire_drawn_as_circle_witness :
  dist1 <= 2
  /\ label_points (draw_wire 25 2 (radians (360 / 39)) 1)
     = [ wire_center 25 (radians (360 / 39)) 1 ].
Proof.
  assert (Hr : dist1 <= 2) by (unfold dist1; lra).
  split; [exact Hr |].
  destruct (wire_drawn_as_circle 25 2 (radians (360 / 39)) 1 Hr) as (H & _).
  exact H.
Defined.

(** ** Clearances *)

Lemma distance_origin (p : R * R) (d : R) :
  0 <= d -> fst p ^ 2 + snd p ^ 2 = d * d -> distance (0, 0) p = d.
Proof.
  intros Hd H. apply distance_sqr; [exact Hd |]. cbn [fst snd].
  rewrite <- H. ring.
Qed.

(** X11.  With non-negative layer thicknesses: the surfaces of any two
    conductors are exactly [cond_surf] (0.2 mm) apart; the three conductor
    centres are at the same distance [cond_center * sqrt 3 / 3] from the
    cable axis; and the inner circle of the bedding, of radius
    [bundle_top + dist1], clears each conductor by exactly [dist1]. *)
Theorem conductor_clearances (cfg : config) :
  Forall (fun t => 0 <= t) (layer_thicknesses cfg) ->
  (distance (conductor_1_center cfg) (conductor_2_center cfg)
   - 2 * r_cond_total cfg = cond_surf
   /\ distance (conductor_2_center cfg) (conductor_3_center cfg)
      - 2 * r_cond_total cfg = cond_surf
   /\ distance (conductor_1_center cfg) (conductor_3_center cfg)
      - 2 * r_cond_total cfg = cond_surf)
  /\ (distance (0, 0) (conductor_1_center cfg) = cond_center cfg * sqrt 3 / 3
      /\ distance (0, 0) (conductor_2_center cfg) = cond_center cfg * sqrt 3 / 3
      /\ distance (0, 0) (conductor_3_center cfg)
         = cond_center cfg * sqrt 3 / 3)
  /\ bundle_top cfg = cond_center cfg * sqrt 3 / 3 + r_cond_total cfg
  /\ (forall c, In c [ conductor_1_center cfg; conductor_2_center cfg;
                       conductor_3_center cfg ] ->
        (bundle_top cfg + dist1) - (distance (0, 0) c + r_cond_total cfg)
        = dist1).
Proof.
  intro Hts.
  pose proof (r_cond_total_nonneg cfg Hts) as Hrt.
  pose proof sqrt3_sqr as H3. pose proof sqrt3_bounds as [H3lo H3hi].
  assert (Hd : 0 < cond_center cfg) by (unfold cond_center, cond_surf; lra).
  assert (Hcs : cond_center cfg - 2 * r_cond_total cfg = cond_surf)
    by (unfold cond_center; lra).
  pose proof (delta_y_triangle_apothem cfg) as Hdelta.
  assert (Hc1 : conductor_1_center cfg
                = (cond_center cfg * (1 / 2), - (cond_center cfg * sqrt 3 / 6))).
  { unfold conductor_1_center. now rewrite Hdelta, cos60_half. }
  assert (Hc2 : conductor_2_center cfg
                = (0, cond_center cfg * (sqrt 3 / 2)
                      - cond_center cfg * sqrt 3 / 6)).
  { unfold conductor_2_center. now rewrite Hdelta, sin60_sqrt3. }
  assert (Hc3 : conductor_3_center cfg
                = (- cond_center cfg * (1 / 2),
                   - (cond_center cfg * sqrt 3 / 6))).
  { unfold conductor_3_center. now rewrite Hdelta, cos60_half. }
  set (d := cond_center cfg) in *. set (s := sqrt 3) in *.
  assert (H12 : distance (conductor_1_center cfg) (conductor_2_center cfg) = d).
  { rewrite Hc1, Hc2. apply distance_sqr; [lra |]. cbn [fst snd]. nra. }
  assert (H23 : distance (conductor_2_center cfg) (conductor_3_center cfg) = d).
  { rewrite Hc2, Hc3. apply distance_sqr; [lra |]. cbn [fst snd]. nra. }
  assert (H13 : distance (conductor_1_center cfg) (conductor_3_center cfg) = d).
  { rewrite Hc1, Hc3. apply distance_sqr; [lra |]. cbn [fst snd]. nra. }
  assert (Hpos : 0 <= d * s / 3) by nra.
  assert (Ho1 : distance (0, 0) (conductor_1_center cfg) = d * s / 3).
  { rewrite Hc1. apply distance_origin; [exact Hpos |]. cbn [fst snd]. nra. }
  assert (Ho2 : distance (0, 0) (conductor_2_center cfg) = d * s / 3).
  { rewrite Hc2. apply distance_origin; [exact Hpos |]. cbn [fst snd]. nra. }
  assert (Ho3 : distance (0, 0) (conductor_3_center cfg) = d * s / 3).
  { rewrite Hc3. apply distance_origin; [exact Hpos |]. cbn [fst snd]. nra. }
  assert (Htop : bundle_top cfg = d * s / 3 + r_cond_total cfg).
  { unfold bundle_top. rewrite Hdelta, sin60_sqrt3. fold d s. lra. }
  split; [rewrite H12, H23, H13; repeat split; lra |].
  split; [repeat split; assumption |].
  split; [exact Htop |].
  intros c [<- | [<- | [<- | []]]]; rewrite ?Ho1, ?Ho2, ?Ho3, Htop; lra.
Qed.

Lemma conductor_clearances_witness :
  Forall (fun t => 0 <= t) (layer_thicknesses Main_config)
  /\ distance (conductor_1_center Main_config) (conductor_2_center Main_config)
     - 2 * r_cond_total Main_config = cond_surf.
Proof.
  assert (Hts : Forall (fun t => 0 <= t) (layer_thicknesses Main_config)).
  { unfold layer_thicknesses; simpl. repeat constructor; lra. }
  split; [exact Hts |].
  destruct (conductor_clearances Main_config Hts) as ((H & _) & _).
  exact H.
Defined.

Ltac circle_about_axis :=
  apply closes_circle_intro; cbn [fst snd];
  [ lra | first [ lra | field ] | first [ lra | field ] | ring ].

Lemma bundle_top_nonneg (cfg : config) :
  Forall (fun t => 0 <= t) (layer_thicknesses cfg) -> 0 < bundle_top cfg.
Proof.
  intro Hts.
  pose proof (r_cond_total_nonneg cfg Hts) as Hrt.
  pose proof sqrt3_bounds as [H3lo H3hi].
  unfold bundle_top, delta_y_triangle, cond_center, cond_surf.
  rewrite sin60_sqrt3.
  set (rt := r_cond_total cfg) in *. set (s := sqrt 3) in *. nra.
Qed.

(** X12.  Radial stacking of a cable with one armour layer, for non-negative
    thicknesses and a wire radius of at least [dist1].  The bedding is drawn
    as two circles about the cable axis, of radii [bundle_top + dist1] and
    [bundle_top + bedding]; its label, at [bundle_top + 0.5 * bedding], is
    strictly between them exactly when [bedding > 2 * dist1].  The drawn
    wires start [dist1] outside the bedding.  The over sheath is drawn as
    two circles about the axis, the inner one [2 * dist1] outside the drawn
    wires, the outer one at [R_armour + r_armour + over_sheath + 2 * dist1];
    its label is strictly between them exactly when [over_sheath > 0]; and
    [R_cable_total], the radius printed and used by the sampler, is [dist1]
    less than the radius of the outer circle. *)
Theorem radial_stacking (cfg : config) :
  Forall (fun t => 0 <= t) (layer_thicknesses cfg) ->
  0 <= bedding cfg ->
  dist1 <= r_armour cfg ->
  0 <= over_sheath cfg ->
  r_armour_2 cfg = 0 ->
  (Forall2 (closes_circle (0, 0))
           [ bundle_top cfg + dist1; bundle_top cfg + bedding cfg ]
           (arc_pairs (bedding_geometry cfg))
   /\ label_points (bedding_geometry cfg)
      = [ (0, bundle_top cfg + 0.5 * bedding cfg) ]
   /\ (bundle_top cfg + dist1 < bundle_top cfg + 0.5 * bedding cfg
         < bundle_top cfg + bedding cfg
       <-> 2 * dist1 < bedding cfg))
  /\ (R_armour cfg = bundle_top cfg + bedding cfg + r_armour cfg
      /\ (R_armour cfg - (r_armour cfg - dist1))
         - (bundle_top cfg + bedding cfg) = dist1)
  /\ (Forall2 (closes_circle (0, 0))
              [ R_armour cfg + r_armour cfg + dist1;
                R_armour cfg + r_armour cfg + over_sheath cfg + 2 * dist1 ]
              (arc_pairs (over_sheath_1 cfg))
      /\ (R_armour cfg + r_armour cfg + dist1)
         - (R_armour cfg + (r_armour cfg - dist1)) = 2 * dist1
      /\ label_points (over_sheath_1 cfg)
         = [ (0, R_armour cfg + r_armour cfg + dist1 + 0.5 * over_sheath cfg) ]
      /\ (R_armour cfg + r_armour cfg + dist1
            < R_armour cfg + r_armour cfg + dist1 + 0.5 * over_sheath cfg
            < R_armour cfg + r_armour cfg + over_sheath cfg + 2 * dist1
          <-> 0 < over_sheath cfg))
  /\ R_cable_total cfg
     = (R_armour cfg + r_armour cfg + over_sheath cfg + 2 * dist1) - dist1.
Proof.
  intros Hts Hb Hr Hos Hr2.
  pose proof (bundle_top_nonneg cfg Hts) as Htop.
  assert (Hd1 : 0 < dist1) by (unfold dist1; lra).
  assert (HR : R_armour cfg = bundle_top cfg + bedding cfg + r_armour cfg).
  { unfold R_armour, bundle_top. lra. }
  split.
  { split.
    - unfold bedding_geometry. cbn [arc_pairs].
      unfold bundle_top in *.
      set (y := cond_center cfg * sin60) in *.
      replace (- cond_center cfg * sin60) with (- y) by (unfold y; ring).
      apply Forall2_cons; [circle_about_axis |].
      apply Forall2_cons; [circle_about_axis |]. apply Forall2_nil.
    - split; [reflexivity |]. split; intro H; lra. }
  split; [split; [exact HR | lra] |].
  split.
  { split.
    - unfold over_sheath_1. cbn [arc_pairs].
      set (Ra := R_armour cfg) in *.
      apply Forall2_cons; [circle_about_axis |].
      apply Forall2_cons; [circle_about_axis |]. apply Forall2_nil.
    - split; [lra |]. split; [reflexivity |]. split; intro H; lra. }
  unfold R_cable_total.
  destruct (Req_dec_T (r_armour_2 cfg) 0) as [_ | Hne]; [lra | contradiction].
Qed.

Lemma radial_stacking_witness :
  Forall (fun t => 0 <= t) (layer_thicknesses Main_config)
  /\ 0 <= bedding Main_config
  /\ dist1 <= r_armour Main_config
  /\ 0 <= over_sheath Main_config
  /\ r_armour_2 Main_config = 0
  /\ R_cable_total Main_config
     = (R_armour Main_config + r_armour Main_config + over_sheath Main_config
        + 2 * dist1) - dist1.
Proof.
  assert (Hts : Forall (fun t => 0 <= t) (layer_thicknesses Main_config)).
  { unfold layer_thicknesses; simpl. repeat constructor; lra. }
  assert (Hb : 0 <= bedding Main_config) by (simpl; lra).
  assert (Hr : dist1 <= r_armour Main_config) by (unfold dist1; simpl; lra).
  assert (Hos : 0 <= over_sheath Main_config) by (simpl; lra).
  assert (Hr2 : r_armour_2 Main_config = 0) by reflexivity.
  repeat (split; [assumption |]).
  destruct (radial_stacking Main_config Hts Hb Hr Hos Hr2) as (_ & _ & _ & H).
  exact H.
Defined.

(** ** The sampled profiles *)

Lemma py_int_bounds (x : R) : 0 <= x -> x - 1 < IZR (py_int x) <= x.
Proof.
  intro H. unfold py_int.
  destruct (Rle_dec 0 x) as [_ | Hn]; [| contradiction].
  pose proof (Zfloor_bound x). lra.
Qed.

Lemma py_range_hd (a b : Z) : (a < b)%Z -> hd_error (py_range a b) = Some a.
Proof.
  intro H. unfold py_range.
  destruct (Z.to_nat (b - a)) as [| n] eqn:Hn; [lia |].
  cbn [seq map hd_error]. f_equal. lia.
Qed.

Lemma py_range_last (a b : Z) :
  (a < b)%Z -> last (py_range a b) 0%Z = (b - 1)%Z.
Proof.
  intro H.
  rewrite (py_range_app a (b - 1) b) by lia.
  replace (py_range (b - 1) b) with [(b - 1)%Z].
  - apply last_last.
  - unfold py_range. replace (Z.to_nat (b - (b - 1))) with 1%nat by lia.
    cbn [seq map]. f_equal. lia.
Qed.

(** X13.  The report has three near profiles, at the heights
    [int(R_cable_total) + 100 * p], and three far ones, at
    [int(R_cable_total) + 1000 * p], for [p = 1, 2, 3] in that order.  Each
    has 1000 samples, one for each integer abscissa from -500 to 499 (500 is
    left out), with as many flux density and electric field values.  The
    radial profile has one sample for each integer height from
    [int(R_cable_total) + 100] to 2999, none when that start is 3000 or
    more. *)
Theorem report_shape (cfg : config)
    (mo_getb : Z -> Z -> C * C) (mo_getj : Z -> Z -> C) :
  near (sample_field cfg mo_getb mo_getj)
  = map (fun p => scan_line cfg mo_getb mo_getj
                    (py_int (R_cable_total cfg) + 100 * p))
        [1%Z; 2%Z; 3%Z]
  /\ far (sample_field cfg mo_getb mo_getj)
     = map (fun p => scan_line cfg mo_getb mo_getj
                       (py_int (R_cable_total cfg) + 1000 * p))
           [1%Z; 2%Z; 3%Z]
  /\ (forall y,
        let s := scan_line cfg mo_getb mo_getj y in
        List.length (contour s) = 1000%nat
        /\ List.length (b_value s) = 1000%nat
        /\ List.length (e_value s) = 1000%nat
        /\ hd_error (contour s) = Some (-500)%Z
        /\ last (contour s) 0%Z = 499%Z
        /\ (forall n, In n (contour s) <-> (-500 <= n < 500)%Z)
        /\ b_value s = map (fun n => b_magnitude (mo_getb n y)) (contour s)
        /\ e_value s = map (fun n => e_magnitude cfg (mo_getj n y) y)
                           (contour s))
  /\ (let s := radial (sample_field cfg mo_getb mo_getj) in
      List.length (contour s) = Z.to_nat (2900 - py_int (R_cable_total cfg))
      /\ List.length (b_value s) = List.length (contour s)
      /\ List.length (e_value s) = List.length (contour s)
      /\ (forall n, In n (contour s)
                    <-> (py_int (R_cable_total cfg) + 100 <= n < 3000)%Z)
      /\ b_value s = map (fun n => b_magnitude (mo_getb 0%Z n)) (contour s)
      /\ e_value s = map (fun n => e_magnitude cfg (mo_getj 0%Z n) n)
                         (contour s)
      /\ ((2900 <= py_int (R_cable_total cfg))%Z -> contour s = [])).
Proof.
  split; [reflexivity |].
  split; [reflexivity |].
  split.
  { intros y s. unfold s, scan_line. cbn [contour b_value e_value].
    rewrite !length_map, py_range_length.
    split; [reflexivity |]. split; [reflexivity |]. split; [reflexivity |].
    split; [apply py_range_hd; lia |].
    split; [rewrite py_range_last by lia; reflexivity |].
    split; [intro n; apply py_range_In |].
    split; reflexivity. }
  intro s. unfold s, sample_field, radial_profile.
  cbn [radial contour b_value e_value].
  rewrite !length_map, py_range_length.
  split; [f_equal; lia |].
  split; [reflexivity |]. split; [reflexivity |].
  split; [intro n; apply py_range_In |].
  split; [reflexivity |]. split; [reflexivity |].
  intro H. apply py_range_empty. lia.
Qed.

Lemma distance_above (x y h : R) : h < y -> 0 <= y -> h < distance (0, 0) (x, y).
Proof.
  intros Hy H0. unfold distance. cbn [fst snd].
  apply Rlt_le_trans with y; [exact Hy |].
  rewrite <- (sqrt_square y H0) at 1.
  apply sqrt_le_1_alt. nra.
Qed.

Lemma conductor_centers_from_axis (cfg : config) :
  Forall (fun t => 0 <= t) (layer_thicknesses cfg) ->
  distance (0, 0) (conductor_1_center cfg) = cond_center cfg * sqrt 3 / 3
  /\ distance (0, 0) (conductor_2_center cfg) = cond_center cfg * sqrt 3 / 3
  /\ distance (0, 0) (conductor_3_center cfg) = cond_center cfg * sqrt 3 / 3
  /\ bundle_top cfg = cond_center cfg * sqrt 3 / 3 + r_cond_total cfg.
Proof.
  intro Hts.
  pose proof (r_cond_total_nonneg cfg Hts) as Hrt.
  pose proof sqrt3_sqr as H3. pose proof sqrt3_bounds as [H3lo H3hi].
  assert (Hd : 0 < cond_center cfg) by (unfold cond_center, cond_surf; lra).
  pose proof (delta_y_triangle_apothem cfg) as Hdelta.
  unfold conductor_1_center, conductor_2_center, conductor_3_center,
    bundle_top.
  rewrite Hdelta, cos60_half, sin60_sqrt3.
  set (d := cond_center cfg) in *. set (s := sqrt 3) in *.
  assert (Hpos : 0 <= d * s / 3) by nra.
  repeat split.
  - apply distance_origin; [exact Hpos |]. cbn [fst snd]. nra.
  - apply distance_origin; [exact Hpos |]. cbn [fst snd]. nra.
  - apply distance_origin; [exact Hpos |]. cbn [fst snd]. nra.
  - lra.
Qed.

Lemma wire_center_from_axis (R_ring theta : R) (i : Z) :
  0 <= R_ring -> distance (0, 0) (wire_center R_ring theta i) = R_ring.
Proof.
  intro HR. unfold wire_center.
  apply distance_origin; [exact HR |]. cbn [fst snd].
  pose proof (sin2_cos2 (wire_angle theta i)) as H. unfold Rsqr in H.
  replace ((R_ring * sin (wire_angle theta i)) ^ 2
           + (R_ring * cos (wire_angle theta i)) ^ 2)
    with (R_ring * R_ring
          * (sin (wire_angle theta i) * sin (wire_angle theta i)
             + cos (wire_angle theta i) * cos (wire_angle theta i))) by ring.
  rewrite H. ring.
Qed.

Lemma wire_within (rho R_ring r_wire theta : R) (i : Z) :
  0 <= R_ring -> dist1 <= r_wire -> R_ring + r_wire - dist1 <= rho ->
  Forall (circle_within rho) (arc_pairs (draw_wire R_ring r_wire theta i)).
Proof.
  intros HR Hr Hrho.
  unfold draw_wire. cbn [arc_pairs].
  apply Forall_cons; [| apply Forall_nil].
  exists (wire_center R_ring theta i), (r_wire - dist1). split.
  - unfold wire_center, wire_angle.
    set (a := IZR (i - 1) * theta).
    pose proof (sin2_cos2 a) as Hsc. unfold Rsqr in Hsc.
    apply closes_circle_intro; cbn [fst snd].
    + lra.
    + field.
    + field.
    + replace (((R_ring - r_wire + dist1) * sin a - R_ring * sin a) ^ 2
               + ((R_ring - r_wire + dist1) * cos a - R_ring * cos a) ^ 2)
        with ((r_wire - dist1) * (r_wire - dist1)
              * (sin a * sin a + cos a * cos a)) by ring.
      rewrite Hsc. ring.
  - rewrite wire_center_from_axis by exact HR. lra.
Qed.

Lemma distance_axis : distance (0, 0) (0, 0) = 0.
Proof. apply distance_origin; [lra |]. cbn [fst snd]. ring. Qed.

(** One circle of a block: its centre and radius are given, the rest of the
    block is left. *)
Ltac circle_within_with c r :=
  apply Forall_cons;
  [ exists c, r; split;
    [ apply closes_circle_intro;
      unfold conductor_1_center, conductor_2_center, conductor_3_center;
      cbn [fst snd]; [ lra | lra | lra | ring ]
    | ]
  | ].

(** X14.  For inputs of moderate size and wires of radius at least [dist1],
    the cable lies within [R_cable_total + dist1] of its axis: every circle
    drawn for the conductor layers, the bedding, the over sheath and the
    wires of either armour layer does.  Every sample of every profile is
    taken more than 97 mm beyond that radius: the near and far lines are
    that far above it, each far line above the near line of the same index,
    and so is the start of the radial scan. *)
Theorem samples_clear_of_cable (cfg : config) :
  moderate_inputs cfg ->
  dist1 <= r_armour cfg ->
  r_armour_2 cfg = 0 \/ dist1 <= r_armour_2 cfg ->
  Forall (circle_within (R_cable_total cfg + dist1)) (cable_circles cfg)
  /\ (forall theta i,
        Forall (circle_within (R_cable_total cfg + dist1))
               (arc_pairs (draw_wire (R_armour cfg) (r_armour cfg) theta i)))
  /\ (r_armour_2 cfg <> 0 ->
      forall theta i,
        Forall (circle_within (R_cable_total cfg + dist1))
               (arc_pairs (draw_wire (R_armour_2 cfg) (r_armour_2 cfg)
                             theta i)))
  /\ (forall p, (1 <= p)%Z ->
        R_cable_total cfg + dist1 + 97 < IZR (near_offset cfg p)
        /\ R_cable_total cfg + dist1 + 97 < IZR (far_offset cfg p)
        /\ (near_offset cfg p < far_offset cfg p)%Z)
  /\ (forall mo_getb mo_getj s n,
        In s (near (sample_field cfg mo_getb mo_getj)
              ++ far (sample_field cfg mo_getb mo_getj)) ->
        In n (contour s) ->
        exists y, s = scan_line cfg mo_getb mo_getj y
                  /\ R_cable_total cfg + dist1 + 97
                     < distance (0, 0) (IZR n, IZR y))
  /\ (forall mo_getb mo_getj n,
        In n (contour (radial (sample_field cfg mo_getb mo_getj))) ->
        R_cable_total cfg + dist1 + 97 < distance (0, 0) (0, IZR n)).
Proof.
  intros Hm Hr Hr2.
  pose proof (moderate_inputs_nonneg cfg Hm) as Hts.
  destruct Hm as (_ & _ & Hb & _ & Hr2b & Hos).
  destruct (layer_radii_nonneg cfg Hts) as (H0 & H1 & H2 & H3 & H4).
  destruct (conductor_centers_from_axis cfg Hts) as (Ho1 & Ho2 & Ho3 & Htop).
  pose proof (bundle_top_nonneg cfg Hts) as Htop0.
  assert (Hd1 : dist1 = 0.01) by reflexivity.
  assert (Hsp : space = 0.05) by reflexivity.
  assert (HR : R_armour cfg = bundle_top cfg + bedding cfg + r_armour cfg).
  { unfold R_armour, bundle_top. lra. }
  assert (HR2 : R_armour_2 cfg
                = R_armour cfg + r_armour cfg + space + r_armour_2 cfg)
    by reflexivity.
  assert (Hord : r_cond cfg <= r_cond_total cfg
                 /\ r_cond_screen cfg <= r_cond_total cfg
                 /\ r_cond_insul cfg <= r_cond_total cfg
                 /\ r_cond_insu_screen_NM cfg <= r_cond_total cfg).
  { unfold layer_thicknesses in Hts.
    inversion Hts as [| ? ? T1 T']; subst. inversion T' as [| ? ? T2 T'']; subst.
    inversion T'' as [| ? ? T3 T''']; subst.
    inversion T''' as [| ? ? T4 _]; subst.
    unfold r_cond_screen, r_cond_insul, r_cond_insu_screen_NM, r_cond_total.
    repeat split; lra. }
  destruct Hord as (L0 & L1 & L2 & L3).
  set (rho := R_cable_total cfg + dist1).
  assert (Hrho : R_armour cfg + r_armour cfg + over_sheath cfg + 2 * dist1
                 <= rho
                 /\ (r_armour_2 cfg <> 0 ->
                     R_armour_2 cfg + r_armour_2 cfg + over_sheath cfg
                     + 2 * dist1 = rho)
                 /\ (r_armour_2 cfg = 0 ->
                     R_armour cfg + r_armour cfg + over_sheath cfg
                     + 2 * dist1 = rho)).
  { unfold rho, R_cable_total.
    destruct (Req_dec_T (r_armour_2 cfg) 0) as [Hz | Hne].
    - split; [lra |]. split; [intro; contradiction | intro; lra].
    - split; [lra |]. split; [intro; lra | intro; contradiction]. }
  destruct Hrho as (Hrho & Hrho2 & Hrho1).
  assert (HR0 : 0 <= rho) by lra.
  split.
  { unfold cable_circles.
    repeat (apply Forall_app; split).
    - unfold conductor_1. cbn [arc_pairs].
      circle_within_with (conductor_1_center cfg) (r_cond cfg);
        [rewrite Ho1; lra |].
      circle_within_with (conductor_1_center cfg) (r_cond_screen cfg);
        [rewrite Ho1; lra |].
      circle_within_with (conductor_1_center cfg) (r_cond_insul cfg);
        [rewrite Ho1; lra |].
      circle_within_with (conductor_1_center cfg) (r_cond_insu_screen_NM cfg);
        [rewrite Ho1; lra |].
      circle_within_with (conductor_1_center cfg) (r_cond_total cfg);
        [rewrite Ho1; lra |].
      apply Forall_nil.
    - unfold conductor_2. cbn [arc_pairs].
      circle_within_with (conductor_2_center cfg) (r_cond cfg);
        [rewrite Ho2; lra |].
      circle_within_with (conductor_2_center cfg) (r_cond_screen cfg);
        [rewrite Ho2; lra |].
      circle_within_with (conductor_2_center cfg) (r_cond_insul cfg);
        [rewrite Ho2; lra |].
      circle_within_with (conductor_2_center cfg) (r_cond_insu_screen_NM cfg);
        [rewrite Ho2; lra |].
      circle_within_with (conductor_2_center cfg) (r_cond_total cfg);
        [rewrite Ho2; lra |].
      apply Forall_nil.
    - unfold conductor_3. cbn [arc_pairs].
      circle_within_with (conductor_3_center cfg) (r_cond cfg);
        [rewrite Ho3; lra |].
      circle_within_with (conductor_3_center cfg) (r_cond_screen cfg);
        [rewrite Ho3; lra |].
      circle_within_with (conductor_3_center cfg) (r_cond_insul cfg);
        [rewrite Ho3; lra |].
      circle_within_with (conductor_3_center cfg) (r_cond_insu_screen_NM cfg);
        [rewrite Ho3; lra |].
      circle_within_with (conductor_3_center cfg) (r_cond_total cfg);
        [rewrite Ho3; lra |].
      apply Forall_nil.
    - unfold bedding_geometry. cbn [arc_pairs].
      unfold bundle_top in *.
      circle_within_with (0, 0)
        (cond_center cfg * sin60 + r_cond_total cfg - delta_y_triangle cfg
         + dist1);
        [rewrite distance_axis; lra |].
      circle_within_with (0, 0)
        (cond_center cfg * sin60 + r_cond_total cfg - delta_y_triangle cfg
         + bedding cfg);
        [rewrite distance_axis; lra |].
      apply Forall_nil.
    - destruct (Req_dec_T (r_armour_2 cfg) 0) as [Hz | Hne].
      + specialize (Hrho1 Hz).
        unfold over_sheath_1. cbn [arc_pairs].
        circle_within_with (0, 0) (R_armour cfg + r_armour cfg + dist1);
          [rewrite distance_axis; lra |].
        circle_within_with (0, 0)
          (R_armour cfg + r_armour cfg + over_sheath cfg + 2 * dist1);
          [rewrite distance_axis; lra |].
        apply Forall_nil.
      + specialize (Hrho2 Hne).
        assert (Hr2' : dist1 <= r_armour_2 cfg) by tauto.
        unfold over_sheath_2. cbn [arc_pairs].
        circle_within_with (0, 0) (R_armour_2 cfg + r_armour_2 cfg + dist1);
          [rewrite distance_axis; lra |].
        circle_within_with (0, 0)
          (R_armour_2 cfg + r_armour_2 cfg + over_sheath cfg + 2 * dist1);
          [rewrite distance_axis; lra |].
        apply Forall_nil. }
  split.
  { intros theta i. apply wire_within; lra. }
  split.
  { intros Hne theta i. specialize (Hrho2 Hne).
    assert (Hr2' : dist1 <= r_armour_2 cfg) by tauto.
    apply wire_within; lra. }
  assert (HRc : 0 <= R_cable_total cfg) by (unfold rho in Hrho; lra).
  destruct (py_int_bounds _ HRc) as [Hlo Hhi].
  assert (Hoff : forall p, (1 <= p)%Z ->
            rho + 97 < IZR (near_offset cfg p)
            /\ rho + 97 < IZR (far_offset cfg p)
            /\ (near_offset cfg p < far_offset cfg p)%Z).
  { intros p Hp. unfold rho, near_offset, far_offset.
    rewrite !plus_IZR, !mult_IZR.
    pose proof (IZR_le _ _ Hp) as Hp'. split; [lra |]. split; [lra | lia]. }
  split; [exact Hoff |].
  split.
  - intros mo_getb mo_getj s n Hs _.
    unfold sample_field, near_profiles, far_profiles in Hs. cbn [near far] in Hs.
    change (py_range 1 4) with [1%Z; 2%Z; 3%Z] in Hs.
    apply in_app_or in Hs.
    assert (Hcase : exists p, (1 <= p)%Z
                    /\ (s = scan_line cfg mo_getb mo_getj (near_offset cfg p)
                        \/ s = scan_line cfg mo_getb mo_getj (far_offset cfg p))).
    { destruct Hs as [Hs | Hs]; apply in_map_iff in Hs;
        destruct Hs as (p & <- & Hp); exists p;
        (split; [cbn [In] in Hp; lia | tauto]). }
    destruct Hcase as (p & Hp & [-> | ->]);
      destruct (Hoff p Hp) as (Hn & Hf & _);
      eexists; (split; [reflexivity |]);
      apply distance_above; lra.
  - intros mo_getb mo_getj n Hn.
    unfold sample_field, radial_profile in Hn. cbn [radial contour] in Hn.
    apply py_range_In in Hn. destruct Hn as [Hn _].
    apply IZR_le in Hn. rewrite plus_IZR in Hn.
    apply distance_above; unfold rho in *; lra.
Qed.

Lemma samples_clear_of_cable_witness :
  moderate_inputs Main_config
  /\ dist1 <= r_armour Main_config
  /\ (r_armour_2 Main_config = 0 \/ dist1 <= r_armour_2 Main_config)
  /\ R_cable_total Main_config + dist1 + 97 < IZR (near_offset Main_config 1).
Proof.
  assert (Hr : dist1 <= r_armour Main_config) by (unfold dist1; simpl; lra).
  assert (Hr2 : r_armour_2 Main_config = 0 \/ dist1 <= r_armour_2 Main_config)
    by (left; reflexivity).
  split; [exact moderate_inputs_Main_config |].
  split; [exact Hr |]. split; [exact Hr2 |].
  destruct (samples_clear_of_cable Main_config moderate_inputs_Main_config
              Hr Hr2) as (_ & _ & _ & Hoff & _).
  destruct (Hoff 1%Z) as (Hn & _); [lia |]. exact Hn.
Defined.

(** ** Counts of the two rings *)

Lemma armour_count_monotone (R1 R2 r_wire gap : R) :
  0 < 2 * r_wire + gap -> R1 <= R2 ->
  (armour_count R1 r_wire gap <= armour_count R2 r_wire gap)%Z.
Proof.
  intros Hd HR. pose proof PI_RGT_0 as Hpi.
  unfold armour_count, armour_perimeter. apply Zfloor_le.
  apply Rmult_le_compat_r; [left; now apply Rinv_0_lt_compat |].
  nra.
Qed.

Lemma moderate_inputs_two_layer_config : moderate_inputs two_layer_config.
Proof.
  unfold moderate_inputs, layer_thicknesses. simpl.
  repeat split; try lra; repeat constructor; lra.
Qed.

(** X15.  For inputs of moderate size: the count grows with the ring
    radius; when the second armour layer has wires of the same positive
    radius as the first, its ring is [2 * r_armour + space] larger in
    radius, that is one wire pitch, so the quotient of perimeter by pitch is
    [2 * PI] larger (and below 2e9): the second ring holds 6 or 7 wires more
    than the first. *)
Theorem second_ring_six_or_seven_more (cfg : config) :
  moderate_inputs cfg ->
  0 < r_armour cfg ->
  r_armour_2 cfg = r_armour cfg ->
  (forall R1 R2, 0 <= R1 -> R1 <= R2 -> R2 <= 15 * 10 ^ 6 ->
     (armour_count R1 (r_armour cfg) space
      <= armour_count R2 (r_armour cfg) space)%Z)
  /\ R_armour_2 cfg = R_armour cfg + (2 * r_armour cfg + space)
  /\ armour_perimeter (R_armour_2 cfg) / (2 * r_armour_2 cfg + space)
     = armour_perimeter (R_armour cfg) / (2 * r_armour cfg + space) + 2 * PI
  /\ armour_perimeter (R_armour_2 cfg) / (2 * r_armour_2 cfg + space)
     < 2 * 10 ^ 9
  /\ (NbrOfArmourElem cfg + 6 <= NbrOfArmourElem2 cfg
      <= NbrOfArmourElem cfg + 7)%Z.
Proof.
  intros Hm Hr H2.
  pose proof (R_armour_upper cfg Hm) as HRu.
  destruct Hm as (_ & _ & _ & Hrb & Hr2b & _).
  assert (Hd : 0 < 2 * r_armour cfg + space) by (unfold space; lra).
  pose proof PI_bounds as [Plo Phi].
  split; [intros R1 R2 _ HR _; now apply armour_count_monotone |].
  assert (HR2 : R_armour_2 cfg = R_armour cfg + (2 * r_armour cfg + space)).
  { unfold R_armour_2. rewrite H2. lra. }
  split; [exact HR2 |].
  assert (Hq : armour_perimeter (R_armour_2 cfg)
               / (2 * r_armour_2 cfg + space)
               = armour_perimeter (R_armour cfg) / (2 * r_armour cfg + space)
                 + 2 * PI).
  { rewrite HR2, H2. unfold armour_perimeter. field. lra. }
  split; [exact Hq |].
  split.
  { apply armour_count_upper; [lra |]. unfold R_armour_2, space. lra. }
  unfold NbrOfArmourElem, NbrOfArmourElem2, armour_count. rewrite Hq.
  set (q := armour_perimeter (R_armour cfg) / (2 * r_armour cfg + space)).
  destruct (Zfloor_bound q) as [Hlo Hhi].
  destruct (Zfloor_bound (q + 2 * PI)) as [Hlo2 Hhi2].
  split.
  - apply Zfloor_lub. rewrite plus_IZR. lra.
  - assert (H : (Zfloor (q + 2 * PI) < Zfloor q + 8)%Z); [| lia].
    apply lt_IZR. rewrite plus_IZR. lra.
Qed.

Lemma second_ring_six_or_seven_more_witness :
  moderate_inputs two_layer_config
  /\ 0 < r_armour two_layer_config
  /\ r_armour_2 two_layer_config = r_armour two_layer_config
  /\ (NbrOfArmourElem two_layer_config + 6 <= NbrOfArmourElem2 two_layer_config
      <= NbrOfArmourElem two_layer_config + 7)%Z.
Proof.
  assert (Hr : 0 < r_armour two_layer_config) by (simpl; lra).
  assert (H2 : r_armour_2 two_layer_config = r_armour two_layer_config)
    by (simpl; lra).
  split; [exact moderate_inputs_two_layer_config |].
  split; [exact Hr |]. split; [exact H2 |].
  destruct (second_ring_six_or_seven_more two_layer_config
              moderate_inputs_two_layer_config Hr H2) as (_ & _ & _ & _ & H).
  exact H.
Defined.
